(** * yt-transcriptor: content extraction cascade and quote ranking

    A shallow embedding of the core of the [yt-transcriptor] service:

    - [app/web_content_service.py]  : [WebContentService.is_valid_url] and
      [WebContentService.extract_content], the three-strategy cascade;
    - [app/transcript_service.py]   : [TranscriptService.format_transcript],
      [extract_video_id] and [get_transcript];
    - [sentiment_analyzer.py]       : [SentimentAnalyzer.clean_transcript],
      [split_into_sentences], [get_top_quotes] and [format_quote];
    - [app/api.py]                  : the handlers of [POST /transcript],
      [POST /webpage] and [POST /content].

    Python values are modelled as follows.  A [str] is a list of characters
    ([pystr]); characters are the code points 0..255, on which the classes
    [\s], [\d] and [\w] of the [re] module and [str.strip] are given by
    explicit tables.  A [float] holding a score or a time offset is an exact
    rational ([Q]).  A [dict] with string keys is a [gmap string _].  The
    library calls the code makes ([re.sub], [re.split], [sorted],
    [str.strip], [str.replace], [format]) are modelled by executable
    functions; [urlparse], the three extraction back ends, the transcript
    library and the VADER scorer are parameters. *)

From Stdlib Require Import Ascii String ZArith QArith Qround Lia Bool.
From Stdlib Require Import DecimalString DecimalFacts DecimalNat Sorted.
From stdpp Require Import gmap strings list.
Close Scope Q_scope.
Close Scope Z_scope.

Set Default Proof Using "Type".

(* ===================================================================== *)
(** * Python strings *)
(* ===================================================================== *)

Module PyStr.

Definition pystr := list ascii.

(** A string literal of the source. *)
Definition py (s : string) : pystr := list_ascii_of_string s.

Definition in_range (lo hi : nat) (c : ascii) : bool :=
  let n := nat_of_ascii c in (lo <=? n) && (n <=? hi).

(** [str.isspace], which is also the class [\s] of [re] on [str] patterns:
    TAB..CR, FS..US, SPACE, NEL and NBSP. *)
Definition isspace (c : ascii) : bool :=
  in_range 9 13 c || in_range 28 32 c || in_range 133 133 c || in_range 160 160 c.

(** The class [\d]: the decimal digits. *)
Definition isdigit (c : ascii) : bool := in_range 48 57 c.

(** The class [\w]: alphanumeric characters and the underscore. *)
Definition isword (c : ascii) : bool :=
  in_range 48 57 c || in_range 65 90 c || in_range 95 95 c || in_range 97 122 c
  || in_range 170 170 c || in_range 178 179 c || in_range 181 181 c
  || in_range 185 186 c || in_range 188 190 c || in_range 192 214 c
  || in_range 216 246 c || in_range 248 255 c.

Definition newline : ascii := ascii_of_nat 10.
Definition space : ascii := ascii_of_nat 32.
Definition dquote : ascii := ascii_of_nat 34.

(** The longest initial run of characters of a class, and what follows it. *)
Fixpoint take_run (p : ascii -> bool) (s : pystr) : pystr :=
  match s with
  | c :: rest => if p c then c :: take_run p rest else []
  | [] => []
  end.

Fixpoint drop_run (p : ascii -> bool) (s : pystr) : pystr :=
  match s with
  | c :: rest => if p c then drop_run p rest else s
  | [] => []
  end.

(** [s.lstrip()], [s.rstrip()] and [s.strip()]. *)
Definition lstrip (s : pystr) : pystr := drop_run isspace s.

Definition rstrip (s : pystr) : pystr := rev (lstrip (rev s)).

Definition strip (s : pystr) : pystr := rstrip (lstrip s).

(** [sep.join(pieces)]. *)
Fixpoint join (sep : pystr) (pieces : list pystr) : pystr :=
  match pieces with
  | [] => []
  | [p] => p
  | p :: rest => p ++ sep ++ join sep rest
  end.

(** [s.replace("  ", " ")]: occurrences are replaced from the left and do
    not overlap. *)
Fixpoint replace_double_space (s : pystr) : pystr :=
  match s with
  | c1 :: ((c2 :: rest) as tl) =>
      if Ascii.eqb c1 space && Ascii.eqb c2 space
      then space :: replace_double_space rest
      else c1 :: replace_double_space tl
  | _ => s
  end.

(** [l[:n]] for a Python integer [n]. *)
Definition slice_to {A} (l : list A) (n : Z) : list A :=
  if (0 <=? n)%Z then firstn (Z.to_nat n) l
  else firstn (length l - Z.to_nat (- n)) l.

End PyStr.

(* ===================================================================== *)
(** * The fragment of [re] used by the source *)
(* ===================================================================== *)

Module Re.
Import PyStr.

(** Items that match exactly one character. *)
Inductive item :=
| Lit (c : ascii)          (* a literal, possibly escaped: [\[], [:], [\.] *)
| Digit                    (* [\d] *)
| Space                    (* [\s] *)
| Word                     (* [\w] *)
| Dot                      (* [.], any character but a newline *)
| Range (lo hi : ascii).   (* [[A-Z]], [[a-z]] *)

Definition item_ok (i : item) (c : ascii) : bool :=
  match i with
  | Lit a => Ascii.eqb a c
  | Digit => isdigit c
  | Space => isspace c
  | Word => isword c
  | Dot => negb (Ascii.eqb c newline)
  | Range lo hi => in_range (nat_of_ascii lo) (nat_of_ascii hi) c
  end.

Inductive regex :=
| One (i : item)
| Cat (r1 r2 : regex)
| Alt (r1 r2 : regex)
| Plus (i : item)             (* greedy [i+] *)
| Behind (r : regex)          (* [(?<=r)] *)
| NotBehind (r : regex).      (* [(?<!r)] *)

(** The width of a fixed-width pattern, as [re] computes it for the body of
    a look-behind. *)
Fixpoint width (r : regex) : option nat :=
  match r with
  | One _ => Some 1
  | Cat r1 r2 =>
      match width r1, width r2 with
      | Some a, Some b => Some (a + b)
      | _, _ => None
      end
  | Alt r1 r2 =>
      match width r1, width r2 with
      | Some a, Some b => if a =? b then Some a else None
      | _, _ => None
      end
  | Plus _ => None
  | Behind _ | NotBehind _ => Some 0
  end.

(** Greedy repetition: take as many characters as possible, then give one
    back at a time until the rest of the pattern matches. *)
Fixpoint greedy {A} (i : item) (before after : pystr)
    (k : pystr -> pystr -> option A) : option A :=
  match after with
  | c :: rest =>
      if item_ok i c then
        match greedy i (c :: before) rest k with
        | Some x => Some x
        | None => k before after
        end
      else k before after
  | [] => k before after
  end.

(** The backtracking matcher.  [before] holds the text to the left of the
    current position, nearest character first; [after] the text to its
    right; [k] is the rest of the pattern. *)
Fixpoint matches (r : regex) {A} (before after : pystr)
    (k : pystr -> pystr -> option A) {struct r} : option A :=
  match r with
  | One i =>
      match after with
      | c :: rest => if item_ok i c then k (c :: before) rest else None
      | [] => None
      end
  | Cat r1 r2 => matches r1 before after (fun b a => matches r2 b a k)
  | Alt r1 r2 =>
      match matches r1 before after k with
      | Some x => Some x
      | None => matches r2 before after k
      end
  | Plus i =>
      match after with
      | c :: rest => if item_ok i c then greedy i (c :: before) rest k else None
      | [] => None
      end
  | Behind r1 =>
      match width r1 with
      | Some w =>
          if w <=? length before then
            match matches r1 (skipn w before) (rev (firstn w before) ++ after)
                    (fun _ _ => Some tt) with
            | Some _ => k before after
            | None => None
            end
          else None
      | None => None
      end
  | NotBehind r1 =>
      match width r1 with
      | Some w =>
          if w <=? length before then
            match matches r1 (skipn w before) (rev (firstn w before) ++ after)
                    (fun _ _ => Some tt) with
            | Some _ => None
            | None => k before after
            end
          else k before after
      | None => None
      end
  end.

(** One match attempt at the current position; the result is the length of
    the match.  With [must_advance] an empty match is rejected, as it is
    right after an empty match at the same position. *)
Definition match_here (r : regex) (must_advance : bool)
    (before after : pystr) : option nat :=
  matches r before after
    (fun _ a =>
       let n := length after - length a in
       if must_advance && (n =? 0) then None else Some n).

Definition cons_first (c : ascii) (pieces : list pystr) : list pystr :=
  match pieces with
  | p :: rest => (c :: p) :: rest
  | [] => [[c]]
  end.

(** The text between successive matches, scanning from the left.  [skip]
    counts the characters of the current match still to be passed over. *)
Fixpoint scan (r : regex) (skip : nat) (before after : pystr)
    {struct after} : list pystr :=
  match skip with
  | S n =>
      match after with
      | c :: rest => scan r n (c :: before) rest
      | [] => [[]]
      end
  | 0 =>
      let advance (_ : unit) :=
        match after with
        | c :: rest => cons_first c (scan r 0 (c :: before) rest)
        | [] => [[]]
        end in
      let consume (n : nat) :=
        match n, after with
        | S m, c :: rest => scan r m (c :: before) rest
        | _, _ => [[]]
        end in
      match match_here r false before after with
      | None => advance tt
      | Some (S m) => [] :: consume (S m)
      | Some 0 =>
          [] :: match match_here r true before after with
                | None => advance tt
                | Some n => [] :: consume n
                end
      end
  end.

(** [re.split(r, s)] for a pattern without groups. *)
Definition split (r : regex) (s : pystr) : list pystr := scan r 0 [] s.

(** [re.sub(r, repl, s)] for a replacement without escapes. *)
Definition sub (r : regex) (repl s : pystr) : pystr := join repl (split r s).

(** [re.search(r, s) is not None]. *)
Fixpoint search_from (r : regex) (before after : pystr) : bool :=
  match match_here r false before after with
  | Some _ => true
  | None =>
      match after with
      | c :: rest => search_from r (c :: before) rest
      | [] => false
      end
  end.

Definition search (r : regex) (s : pystr) : bool := search_from r [] s.

(** A sequence of items, as a pattern. *)
Fixpoint seq (i : item) (rest : list item) : regex :=
  match rest with
  | [] => One i
  | j :: more => Cat (One i) (seq j more)
  end.

End Re.

(* ===================================================================== *)
(** * sentiment_analyzer.py *)
(* ===================================================================== *)

Module Sentiment.
Import PyStr Re.

(** [r'\[\d+:\d+\]'] *)
Definition timestamp_re : regex :=
  Cat (One (Lit "[")) (Cat (Plus Digit) (Cat (One (Lit ":"))
    (Cat (Plus Digit) (One (Lit "]"))))).

(** [r'\s+'] *)
Definition whitespace_re : regex := Plus Space.

(** [SentimentAnalyzer.clean_transcript] *)
Definition clean_transcript (transcript : pystr) : pystr :=
  let cleaned_text := sub timestamp_re (py "") transcript in
  let cleaned_text := strip (sub whitespace_re (py " ") cleaned_text) in
  cleaned_text.

(** [r'(?<!\w\.\w.)(?<![A-Z][a-z]\.)(?<=\.|\?|\!)\s'] *)
Definition sentence_end_re : regex :=
  Cat (NotBehind (seq Word [Lit "."; Word; Dot]))
    (Cat (NotBehind (seq (Range "A" "Z") [Range "a" "z"; Lit "."]))
      (Cat (Behind (Alt (One (Lit ".")) (Alt (One (Lit "?")) (One (Lit "!")))))
        (One Space))).

(** [r'(?<=\,|\;)\s+|(?<=\sand\s)|(?<=\sbut\s)|(?<=\sor\s)|(?<=\sso\s)'] *)
Definition clause_re : regex :=
  Alt (Cat (Behind (Alt (One (Lit ",")) (One (Lit ";")))) (Plus Space))
    (Alt (Behind (seq Space [Lit "a"; Lit "n"; Lit "d"; Space]))
      (Alt (Behind (seq Space [Lit "b"; Lit "u"; Lit "t"; Space]))
        (Alt (Behind (seq Space [Lit "o"; Lit "r"; Space]))
          (Behind (seq Space [Lit "s"; Lit "o"; Space]))))).

(** The body of the loop over [raw_splits]: what one coarse segment adds to
    [sentences]. *)
Definition split_long (raw : pystr) : list pystr :=
  if 100 <? length (strip raw) then
    let sub_sentences := split clause_re raw in
    List.map strip
      (List.filter (fun s => 20 <? length (strip s)) sub_sentences)
  else [strip raw].

(** [SentimentAnalyzer.split_into_sentences] *)
Definition split_into_sentences (text : pystr) : list pystr :=
  let raw_splits := split sentence_end_re text in
  let sentences := flat_map split_long raw_splits in
  List.filter
    (fun s => (20 <? length (strip s)) && (length (strip s) <? 200))
    sentences.

(** [SentimentAnalyzer.format_quote] *)
Definition format_quote (text : pystr) : pystr :=
  let text := if 200 <? length text then firstn 197 text ++ py "..." else text in
  let text := strip (replace_double_space text) in
  dquote :: text ++ [dquote].

(** ** Vocabulary for the normalizer *)

(** A timestamp marker: an opening bracket, digits, a colon, digits and a
    closing bracket. *)
Definition is_timestamp (marker : pystr) : Prop :=
  exists d1 d2,
    marker = py "[" ++ d1 ++ py ":" ++ d2 ++ py "]"
    /\ d1 <> [] /\ d2 <> []
    /\ forallb isdigit d1 = true /\ forallb isdigit d2 = true.

(** The length of the marker a text starts with, if it starts with one. *)
Definition stamp_len (s : pystr) : option nat :=
  match s with
  | c :: r =>
      if Ascii.eqb "[" c then
        match take_run isdigit r, drop_run isdigit r with
        | (_ :: _) as d1, c2 :: r2 =>
            if Ascii.eqb ":" c2 then
              match take_run isdigit r2, drop_run isdigit r2 with
              | (_ :: _) as d2, c3 :: _ =>
                  if Ascii.eqb "]" c3 then Some (3 + length d1 + length d2)
                  else None
              | _, _ => None
              end
            else None
        | _, _ => None
        end
      else None
  | [] => None
  end.

(** The length of the whitespace a text starts with, if it starts with
    some. *)
Definition space_len (s : pystr) : option nat :=
  match take_run isspace s with
  | [] => None
  | run => Some (length run)
  end.

(** Whitespace in normal form: every whitespace character is a space and
    the next character, if any, is not whitespace. *)
Fixpoint single_spaced (s : pystr) : bool :=
  match s with
  | [] => true
  | c :: rest =>
      (if isspace c then
         Ascii.eqb c space
         && match rest with
            | c2 :: _ => negb (isspace c2)
            | [] => true
            end
       else true)
      && single_spaced rest
  end.

(** ** Scoring and ranking *)

(** The dictionary returned by [SentimentIntensityAnalyzer.polarity_scores]. *)
Record polarity := { neg : Q; neu : Q; pos : Q; compound : Q }.

(** An entry of [analyzed_sentences]. *)
Record analyzed := {
  a_text : pystr;
  a_compound : Q;
  a_positive : Q;
  a_negative : Q;
  a_neutral : Q
}.

(** An entry of the returned list: [{'quote': ..., 'score': ...}]. *)
Record top_quote := { quote : pystr; score : Q }.

Definition Qltb (x y : Q) : bool := negb (Qle_bool y x).

(** [sorted(l, key=key, reverse=reverse)].  The sort is stable, and a
    reversed sort keeps equal keys in their original order as well: the
    list is reversed, sorted and reversed again.  Keys are compared with
    [<] only. *)
Fixpoint insert_by {A} (key : A -> Q) (x : A) (l : list A) : list A :=
  match l with
  | [] => [x]
  | y :: rest => if Qltb (key y) (key x) then y :: insert_by key x rest else x :: l
  end.

Definition sort_by {A} (key : A -> Q) (l : list A) : list A :=
  fold_right (insert_by key) [] l.

Definition sorted {A} (l : list A) (key : A -> Q) (reverse : bool) : list A :=
  if reverse then rev (sort_by key (rev l)) else sort_by key l.

(** What the ranking is expected to deliver, in terms of a key: the order
    of two neighbours, and the entries that tie on a given score. *)
Definition ascending {A} (key : A -> Q) (a b : A) : Prop := (key a <= key b)%Q.
Definition descending {A} (key : A -> Q) (a b : A) : Prop := (key b <= key a)%Q.
Definition tied {A} (key : A -> Q) (v : Q) (a : A) : bool := Qeq_bool (key a) v.

(** [{'quote': self.format_quote(s['text']), 'score': s['compound']}] *)
Definition as_quote (s : analyzed) : top_quote :=
  {| quote := format_quote (a_text s); score := a_compound s |}.

Section Ranking.

(** [self.sia.polarity_scores], the VADER lexicon scorer. *)
Variable polarity_scores : pystr -> polarity.

(** [SentimentAnalyzer.analyze_sentiment] *)
Definition analyze_sentiment (text : pystr) : polarity := polarity_scores text.

Definition analyze (sentence : pystr) : analyzed :=
  let sentiment := analyze_sentiment sentence in
  {| a_text := sentence;
     a_compound := compound sentiment;
     a_positive := pos sentiment;
     a_negative := neg sentiment;
     a_neutral := neu sentiment |}.

(** [get_top_quotes] from the point where [sentences] is known. *)
Definition rank_sentences (sentences : list pystr) (top_n : Z)
    (sentiment_type : pystr) : list top_quote :=
  let analyzed_sentences := List.map analyze sentences in
  let filtered_sentences :=
    if bool_decide (sentiment_type = py "positive") then
      sorted
        (List.filter (fun s => Qltb (2 # 10) (a_compound s)) analyzed_sentences)
        a_compound true
    else
      sorted
        (List.filter (fun s => Qltb (a_compound s) (- (2 # 10))) analyzed_sentences)
        a_compound false in
  List.map as_quote (slice_to filtered_sentences top_n).

(** The entry a sentence gives rise to when it is selected. *)
Definition quote_of (sentence : pystr) : top_quote :=
  {| quote := format_quote sentence;
     score := compound (analyze_sentiment sentence) |}.

(** [SentimentAnalyzer.get_top_quotes] *)
Definition get_top_quotes (transcript : pystr) (top_n : Z)
    (sentiment_type : pystr) : list top_quote :=
  let cleaned_text := clean_transcript transcript in
  let sentences := split_into_sentences cleaned_text in
  rank_sentences sentences top_n sentiment_type.

End Ranking.

(** ** A stand-in for the scorer, used in examples

    A two-word lexicon: a sentence containing [awful] scores -0.6, one
    containing [wonderful] scores 0.6, any other 0. *)
Definition keyword_scores (text : pystr) : polarity :=
  if search (seq (Lit "a") [Lit "w"; Lit "f"; Lit "u"; Lit "l"]) text then
    {| neg := 6 # 10; neu := 4 # 10; pos := 0; compound := - (6 # 10) |}
  else if search (seq (Lit "w") [Lit "o"; Lit "n"; Lit "d"; Lit "e"; Lit "r";
                                 Lit "f"; Lit "u"; Lit "l"]) text then
    {| neg := 0; neu := 4 # 10; pos := 6 # 10; compound := 6 # 10 |}
  else {| neg := 0; neu := 1; pos := 0; compound := 0 |}.

(** The text [format_transcript] renders for the segments used in
    [tests/test_transcript_service.py]. *)
Definition sample_formatted : pystr :=
  py "[00:00] Hello world" ++ [newline]
  ++ py "[00:05] This is a test" ++ [newline]
  ++ py "[00:10] Goodbye" ++ [newline].

Definition sample_review : pystr :=
  py "The opening was wonderful and bright. The middle part was awful to sit through. The hall opens at nine in the morning.".

End Sentiment.

(* ===================================================================== *)
(** * app/transcript_service.py *)
(* ===================================================================== *)

Module Transcript.
Import PyStr.

(** A transcript segment as [format_transcript] reads it: a dictionary of
    which only the keys ['text'] and ['start'] are looked up, both with a
    default.  [None] is an absent key. *)
Record segment := { text : option pystr; start : option Q }.

(** [x // d] and [x % d] for a positive integer [d]. *)
Definition floordiv (x : Q) (d : Z) : Q := inject_Z (Qfloor (x / inject_Z d)).
Definition pymod (x : Q) (d : Z) : Q := (x - inject_Z d * floordiv x d)%Q.

(** [int(x)]: rounding towards zero. *)
Definition int (x : Q) : Z := if Qle_bool 0 x then Qfloor x else Qceiling x.

(** [str(n)] for a natural number. *)
Definition decimal (n : nat) : pystr := py (NilEmpty.string_of_uint (Nat.to_uint n)).

Definition zero : ascii := ascii_of_nat 48.
Definition minus : ascii := ascii_of_nat 45.

(** [format(n, '02d')]: the sign, if any, counts towards the width. *)
Definition format_02d (n : Z) : pystr :=
  let digits := decimal (Z.abs_nat n) in
  if (n <? 0)%Z then minus :: digits
  else if length digits <? 2 then zero :: digits
  else digits.

(** The text one segment adds to [formatted_text]. *)
Definition format_line (item : segment) : pystr :=
  let text := default (py "") (text item) in
  let start_time := default 0%Q (start item) in
  let minutes := int (floordiv start_time 60) in
  let seconds := int (pymod start_time 60) in
  let timestamp :=
    py "[" ++ format_02d minutes ++ py ":" ++ format_02d seconds ++ py "]" in
  timestamp ++ py " " ++ text ++ [newline].

(** [TranscriptService.format_transcript] *)
Definition format_transcript (transcript_data : list segment) : pystr :=
  fold_left (fun formatted_text item => formatted_text ++ format_line item)
    transcript_data (py "").

(** ** Vocabulary for the line format *)

(** Padding with zeros on the left, up to a width. *)
Definition zero_pad (width : nat) (s : pystr) : pystr :=
  repeat zero (width - length s) ++ s.

Definition all_digits (s : pystr) : bool := forallb isdigit s.

(** The number a string of decimal digits denotes. *)
Definition decimal_value (s : pystr) : nat :=
  fold_left (fun acc c => 10 * acc + (nat_of_ascii c - 48)) s 0.

Definition start_time (item : segment) : Q := default 0%Q (start item).

(** Whole minutes and remaining whole seconds of an offset. *)
Definition whole_minutes (t : Q) : nat := Z.to_nat (Qfloor t / 60).
Definition whole_seconds (t : Q) : nat := Z.to_nat (Qfloor t mod 60).

Definition sample_transcript : list segment :=
  [ {| text := Some (py "Hello world"); start := Some (5 # 10)%Q |};
    {| text := Some (py "This is a test"); start := Some (52 # 10)%Q |};
    {| text := Some (py "Goodbye"); start := Some (10 # 1)%Q |} ].

End Transcript.

(* ===================================================================== *)
(** * app/web_content_service.py *)
(* ===================================================================== *)

Module Web.
Import PyStr.

(** The values stored in the dictionaries the strategies return. *)
Inductive pyval :=
| VNone
| VStr (s : pystr)
| VList (l : list pystr).

#[export] Instance pyval_eq_dec : EqDecision pyval.
Proof. solve_decision. Defined.

Abbreviation pydict := (gmap string pyval).

(** Truth value of a Python object; [d.get(k)] is [None] for an absent key. *)
Definition truthy (v : pyval) : bool :=
  match v with
  | VNone => false
  | VStr s => negb (bool_decide (s = []))
  | VList l => negb (bool_decide (l = []))
  end.

Definition dict_get (d : pydict) (k : string) : pyval := default VNone (d !! k).

(** Exceptions: a missing key, or any other exception with its class name
    and the text [str(e)] gives. *)
Inductive exn :=
| KeyError (key : string)
| Exception (kind : string) (message : pystr).

Definition str_exn (e : exn) : pystr :=
  match e with
  | KeyError key => py "'" ++ py key ++ py "'"
  | Exception _ message => message
  end.

Inductive result (A : Type) :=
| Ok (a : A)
| Raised (e : exn).
Arguments Ok {A} a.
Arguments Raised {A} e.

(** The three extraction back ends, in the order [extract_content] tries
    them. *)
Inductive strategy := Trafilatura | Newspaper | BeautifulSoup.

#[export] Instance strategy_eq_dec : EqDecision strategy.
Proof. solve_decision. Defined.

(** A computation that may raise and that records which back ends it
    called, and with which URL. *)
Definition M (A : Type) : Type :=
  list (strategy * pystr) -> result A * list (strategy * pystr).

#[export] Instance M_ret : MRet M := fun A a log => (Ok a, log).
#[export] Instance M_bind : MBind M := fun A B f m log =>
  match m log with
  | (Ok a, log') => f a log'
  | (Raised e, log') => (Raised e, log')
  end.

Definition raise {A} (e : exn) : M A := fun log => (Raised e, log).

(** [d[k]] *)
Definition getitem (d : pydict) (k : string) : M pyval :=
  match d !! k with
  | Some v => mret v
  | None => raise (KeyError k)
  end.

(** [len(v)] *)
Definition len (v : pyval) : M nat :=
  match v with
  | VStr s => mret (length s)
  | VList l => mret (length l)
  | VNone => raise (Exception "TypeError" (py "object of type 'NoneType' has no len()"))
  end.

(** The result of [urlparse]; only these two attributes are read. *)
Record ParseResult := { scheme : pystr; netloc : pystr }.

Definition invalid_url_error : pydict :=
  {[ "status" := VStr (py "error");
     "message" := VStr (py "Invalid URL format") ]}.

Definition all_methods_failed_error : pydict :=
  {[ "status" := VStr (py "error");
     "message" :=
       VStr (py "Failed to extract content from the URL using all available methods") ]}.

Section Service.

(** [urllib.parse.urlparse]; it raises [ValueError] on some inputs. *)
Variable urlparse : pystr -> result ParseResult.

(** [extract_with_trafilatura], [extract_with_newspaper] and
    [extract_with_beautifulsoup]: each fetches the page and returns a
    dictionary; none raises. *)
Variable backend : strategy -> pystr -> pydict.

(** [WebContentService.is_valid_url] *)
Definition is_valid_url (url : pystr) : bool :=
  match urlparse url with
  | Ok result =>
      negb (bool_decide (scheme result = [])) && negb (bool_decide (netloc result = []))
  | Raised _ => false
  end.

Definition call (s : strategy) (url : pystr) : M pydict :=
  fun log => (Ok (backend s url), log ++ [(s, url)]).

(** [result["status"] == "success" and result.get("text")] *)
Definition has_text (result : pydict) : M bool :=
  status ← getitem result "status";
  if bool_decide (status = VStr (py "success"))
  then mret (truthy (dict_get result "text"))
  else mret false.

(** [... and len(result["text"]) > 200] *)
Definition passes_gate (result : pydict) : M bool :=
  ok ← has_text result;
  if ok : bool then
    text ← getitem result "text";
    n ← len text;
    mret (200 <? n)
  else mret false.

(** The final loop: the first result with text, if any. *)
Fixpoint first_with_text (results : list pydict) : M (option pydict) :=
  match results with
  | [] => mret None
  | result :: rest =>
      ok ← has_text result;
      if ok : bool then mret (Some result) else first_with_text rest
  end.

(** [WebContentService.extract_content] *)
Definition extract_content (url : pystr) : M pydict :=
  if negb (is_valid_url url) then mret invalid_url_error
  else
    trafilatura_result ← call Trafilatura url;
    ok ← passes_gate trafilatura_result;
    if ok : bool then mret trafilatura_result
    else
      newspaper_result ← call Newspaper url;
      ok ← passes_gate newspaper_result;
      if ok : bool then mret newspaper_result
      else
        bs_result ← call BeautifulSoup url;
        ok ← has_text bs_result;
        if ok : bool then mret bs_result
        else
          found ← first_with_text [trafilatura_result; newspaper_result; bs_result];
          match found with
          | Some result => mret result
          | None => mret all_methods_failed_error
          end.

End Service.

(** ** The three back ends

    What the libraries do with a URL is left open: each library is a record
    of functions that return a value or raise. *)

Definition error_dict (message : pystr) (method : string) : pydict :=
  {[ "status" := VStr (py "error");
     "message" := VStr message;
     "method" := VStr (py method) ]}.

(** [trafilatura.fetch_url], [trafilatura.extract] with the options of the
    call, and [trafilatura.extract_metadata]; [None] is the value Python
    calls [None]. *)
Record metadata := { md_title : pyval; md_author : pyval; md_date : pyval }.

Record trafilatura_api := {
  fetch_url : pystr -> result (option pystr);
  extract : pystr -> result (option pystr);
  extract_metadata : pystr -> result (option metadata)
}.

(** [WebContentService.extract_with_trafilatura] *)
Definition extract_with_trafilatura (api : trafilatura_api) (url : pystr) : pydict :=
  let except e :=
    error_dict (py "Error extracting with trafilatura: " ++ str_exn e) "trafilatura" in
  match fetch_url api url with
  | Raised e => except e
  | Ok None => error_dict (py "Failed to download content") "trafilatura"
  | Ok (Some downloaded) =>
      match extract api downloaded with
      | Raised e => except e
      | Ok None => error_dict (py "Failed to extract content") "trafilatura"
      | Ok (Some result) =>
          match extract_metadata api downloaded with
          | Raised e => except e
          | Ok metadata =>
              {[ "status" := VStr (py "success");
                 "title" := from_option md_title VNone metadata;
                 "text" := VStr result;
                 "authors" := from_option md_author VNone metadata;
                 "publish_date" := from_option md_date VNone metadata;
                 "method" := VStr (py "trafilatura") ]}
          end
      end
  end.

(** An [Article] after [download()], [parse()] and [nlp()];
    [art_publish_date] is the ISO text of the date when there is one. *)
Record article := {
  art_title : pystr;
  art_text : pystr;
  art_summary : pystr;
  art_keywords : list pystr;
  art_authors : list pystr;
  art_publish_date : option pystr;
  art_top_image : pystr
}.

(** [WebContentService.extract_with_newspaper] *)
Definition extract_with_newspaper (fetch_article : pystr -> result article)
    (url : pystr) : pydict :=
  match fetch_article url with
  | Ok a =>
      {[ "status" := VStr (py "success");
         "title" := VStr (art_title a);
         "text" := VStr (art_text a);
         "summary" := VStr (art_summary a);
         "keywords" := VList (art_keywords a);
         "authors" := VList (art_authors a);
         "publish_date" := from_option VStr VNone (art_publish_date a);
         "top_image" := VStr (art_top_image a);
         "method" := VStr (py "newspaper3k") ]}
  | Raised e =>
      error_dict (py "Error extracting with newspaper3k: " ++ str_exn e) "newspaper3k"
  end.

(** A page fetched with [requests.get] and parsed, once the [script],
    [style], [header], [footer] and [nav] elements are removed: the string
    of its title if it has one, the text of each [p] element, and the text
    of the whole page with the separator of the call. *)
Record page := {
  page_title : pyval;
  page_paragraphs : list pystr;
  page_text : pystr
}.

(** [r'\n+'] *)
Definition newlines_re : Re.regex := Re.Plus (Re.Lit newline).

(** [WebContentService.extract_with_beautifulsoup] *)
Definition extract_with_beautifulsoup (fetch_page : pystr -> result page)
    (url : pystr) : pydict :=
  match fetch_page url with
  | Ok soup =>
      let title := page_title soup in
      let paragraphs := page_paragraphs soup in
      let text :=
        join [newline; newline]
          (List.map strip
             (List.filter (fun p => negb (bool_decide (strip p = []))) paragraphs)) in
      let text :=
        if length text <? 100 then
          let text := page_text soup in
          let text := Re.sub newlines_re [newline; newline] text in
          Re.sub Sentiment.whitespace_re (py " ") text
        else text in
      {[ "status" := VStr (py "success");
         "title" := title;
         "text" := VStr text;
         "method" := VStr (py "beautifulsoup") ]}
  | Raised e =>
      error_dict (py "Error extracting with BeautifulSoup: " ++ str_exn e) "beautifulsoup"
  end.

(** The three together, as [extract_content] calls them. *)
Record libraries := {
  trafilatura : trafilatura_api;
  newspaper : pystr -> result article;
  beautifulsoup : pystr -> result page
}.

Definition backends (lib : libraries) (s : strategy) (url : pystr) : pydict :=
  match s with
  | Trafilatura => extract_with_trafilatura (trafilatura lib) url
  | Newspaper => extract_with_newspaper (newspaper lib) url
  | BeautifulSoup => extract_with_beautifulsoup (beautifulsoup lib) url
  end.

(** ** Vocabulary for the properties of the cascade *)

Definition status_of (result : pydict) : option pyval := result !! "status".

(** A result counts as a success with text when its status is the string
    [success] and its text is neither absent, [None] nor empty. *)
Definition usable (result : pydict) : bool :=
  bool_decide (status_of result = Some (VStr (py "success")))
  && truthy (dict_get result "text").

Definition text_length (result : pydict) : nat :=
  match dict_get result "text" with
  | VStr s => length s
  | VList l => length l
  | VNone => 0
  end.

(** The quality gate: a success with more than 200 characters of text. *)
Definition gate (result : pydict) : bool := usable result && (200 <? text_length result).

(** A failed result: it has a status, and the status is not [success]. *)
Definition failed (result : pydict) : Prop :=
  exists v, status_of result = Some v /\ v <> VStr (py "success").

(** ** Stand-ins for the parameters, used in examples *)

(** Back ends that answer with fixed dictionaries, as the mocks of
    [tests/test_web_content_service.py] do. *)
Definition fixed_backend (t n b : pydict) (s : strategy) (_ : pystr) : pydict :=
  match s with
  | Trafilatura => t
  | Newspaper => n
  | BeautifulSoup => b
  end.

Definition success_result (method : string) (text : pystr) : pydict :=
  {[ "status" := VStr (py "success");
     "title" := VStr (py "Test Title");
     "text" := VStr text;
     "method" := VStr (py method) ]}.

Definition error_result (method : string) : pydict :=
  {[ "status" := VStr (py "error");
     "message" := VStr (py "Failed to extract");
     "method" := VStr (py method) ]}.

(** A URL splitter for the examples: the scheme is what precedes the first
    colon when that is a letter followed by letters, digits, [+], [-] or
    [.]; the host part is what follows a leading [//] up to the next [/],
    [?] or [#]. *)
Definition scheme_char (c : ascii) : bool :=
  in_range 97 122 c || in_range 65 90 c || in_range 48 57 c
  || in_range 43 43 c || in_range 45 46 c.

Fixpoint split_at_colon (s : pystr) : option (pystr * pystr) :=
  match s with
  | [] => None
  | c :: rest =>
      if in_range 58 58 c then Some ([], rest)
      else if scheme_char c then
        match split_at_colon rest with
        | Some (a, b) => Some (c :: a, b)
        | None => None
        end
      else None
  end.

Fixpoint upto_delimiter (s : pystr) : pystr :=
  match s with
  | [] => []
  | c :: rest =>
      if in_range 47 47 c || in_range 63 63 c || in_range 35 35 c then []
      else c :: upto_delimiter rest
  end.

Definition host_part (s : pystr) : pystr :=
  match s with
  | c1 :: c2 :: rest =>
      if in_range 47 47 c1 && in_range 47 47 c2 then upto_delimiter rest else []
  | _ => []
  end.

Definition text_of_length (n : nat) : pystr := repeat (ascii_of_nat 120) n.

Definition simple_urlparse (url : pystr) : result ParseResult :=
  match url with
  | c :: _ =>
      if in_range 97 122 c || in_range 65 90 c then
        match split_at_colon url with
        | Some (a, b) => Ok {| scheme := a; netloc := host_part b |}
        | None => Ok {| scheme := []; netloc := host_part url |}
        end
      else Ok {| scheme := []; netloc := host_part url |}
  | [] => Ok {| scheme := []; netloc := [] |}
  end.

End Web.

(* ===================================================================== *)
(** * Vocabulary for further properties of the text functions *)
(* ===================================================================== *)

Module TextSpec.
Import PyStr Sentiment.

(** [p] is a contiguous part of [s]. *)
Definition part_of (p s : pystr) : Prop := exists l r, s = l ++ p ++ r.

Definition nonspace (c : ascii) : bool := negb (isspace c).

(** What [re.split] returns for a text [s]: a first piece that starts the
    text, and further pieces that are parts of it. *)
Definition pieces_of (pieces : list pystr) (s : pystr) : Prop :=
  match pieces with
  | [] => False
  | p0 :: ps => (exists rest, s = p0 ++ rest) /\ Forall (fun p => part_of p s) ps
  end.

(** Whether a text is empty or begins with whitespace. *)
Definition starts_space (s : pystr) : bool :=
  match s with
  | c :: _ => isspace c
  | [] => true
  end.

(** The words of a text: its maximal runs of characters other than
    whitespace, in order ([s.split()]). *)
Fixpoint words (s : pystr) : list pystr :=
  match s with
  | [] => []
  | c :: r =>
      if isspace c then words r
      else if starts_space r then [c] :: words r
      else match words r with
           | w :: ws => (c :: w) :: ws
           | [] => [[c]]
           end
  end.

(** [kept] is [text] less some of its markers: the characters of [text] are
    kept in their order, and every stretch left out is a marker, a text
    [[digits:digits]] as [is_timestamp] describes it. *)
Inductive without_markers : pystr -> pystr -> Prop :=
| wm_end : without_markers [] []
| wm_keep (c : ascii) (text kept : pystr) :
    without_markers text kept -> without_markers (c :: text) (c :: kept)
| wm_drop (marker text kept : pystr) :
    is_timestamp marker -> without_markers text kept ->
    without_markers (marker ++ text) kept.

(** What [format_transcript] writes between brackets for an offset of [z]
    seconds, [z] a negative whole number: the minus sign and the minutes,
    rounded down, then the seconds that remain, on two digits. *)
Definition negative_stamp (z : Z) : pystr :=
  py "[-" ++ Transcript.decimal (Z.to_nat (- (z / 60)))
  ++ py ":" ++ Transcript.zero_pad 2 (Transcript.decimal (Z.to_nat (z mod 60)))
  ++ py "]".

(** The length of the run of characters of a class a text starts with, if
    it starts with one. *)
Definition run_len (p : ascii -> bool) (s : pystr) : option nat :=
  match take_run p s with
  | [] => None
  | run => Some (length run)
  end.

End TextSpec.

(* ===================================================================== *)
(** * [app/transcript_service.py]: video identifiers *)
(* ===================================================================== *)

Module VideoId.
Import PyStr Re.

(** [[0-9A-Za-z_-]] *)
Definition id_class : regex :=
  Alt (One (Range "0" "9"))
    (Alt (One (Range "A" "Z"))
       (Alt (One (Range "a" "z"))
          (Alt (One (Lit "_")) (One (Lit "-"))))).

(** [r{n}], for [n] at least 1. *)
Fixpoint times (r : regex) (n : nat) : regex :=
  match n with
  | S ((S _) as m) => Cat r (times r m)
  | _ => r
  end.

(** A pattern [(?:prefix)(group)], followed by [.*] when [any_tail] is
    set. *)
Record pattern := { prefix : regex; group : regex; any_tail : bool }.

(** One match attempt at the current position; the result is the text of
    the group. *)
Definition group_here (p : pattern) (before after : pystr) : option pystr :=
  matches (prefix p) before after
    (fun b a =>
       matches (group p) b a
         (fun b' a' =>
            let captured := firstn (length a - length a') a in
            if any_tail p then greedy Dot b' a' (fun _ _ => Some captured)
            else Some captured)).

Fixpoint group_from (p : pattern) (before after : pystr) : option pystr :=
  match group_here p before after with
  | Some g => Some g
  | None =>
      match after with
      | c :: rest => group_from p (c :: before) rest
      | [] => None
      end
  end.

(** [re.search(p, s)], then [group(1)] of the match if there is one. *)
Definition search_group (p : pattern) (s : pystr) : option pystr :=
  group_from p [] s.

(** The three patterns of [extract_video_id], in their order. *)
Definition standard_pattern : pattern :=
  {| prefix := Alt (seq (Lit "v") [Lit "="]) (One (Lit "/"));
     group := times id_class 11;
     any_tail := true |}.

Definition embed_pattern : pattern :=
  {| prefix := seq (Lit "e") (List.map Lit (py "mbed/"));
     group := times id_class 11;
     any_tail := false |}.

Definition short_pattern : pattern :=
  {| prefix := seq (Lit "y") (List.map Lit (py "outu.be/"));
     group := times id_class 11;
     any_tail := false |}.

Definition patterns : list pattern :=
  [standard_pattern; embed_pattern; short_pattern].

(** The loop over the patterns: the group of the first that matches. *)
Fixpoint first_group (patterns : list pattern) (url : pystr) : option pystr :=
  match patterns with
  | [] => None
  | p :: rest =>
      match search_group p url with
      | Some g => Some g
      | None => first_group rest url
      end
  end.

(** [TranscriptService.extract_video_id] *)
Definition extract_video_id (url : pystr) : option pystr :=
  first_group patterns url.

(** ** Vocabulary for the identifiers *)

(** The characters of an identifier. *)
Definition idchar (c : ascii) : bool :=
  in_range 48 57 c || in_range 65 90 c || in_range 97 122 c
  || Ascii.eqb "_" c || Ascii.eqb "-" c.

(** The eleven characters a text starts with, when they all are
    characters of an identifier. *)
Definition id_at (s : pystr) : option pystr :=
  if (11 <=? length s) && forallb idchar (firstn 11 s)
  then Some (firstn 11 s) else None.

(** What follows a given text at the head of another. *)
Fixpoint after_prefix (p s : pystr) : option pystr :=
  match p, s with
  | [], _ => Some s
  | c :: p', d :: s' => if Ascii.eqb c d then after_prefix p' s' else None
  | _ :: _, [] => None
  end.

Definition id_after (sep s : pystr) : option pystr :=
  match after_prefix sep s with
  | Some rest => id_at rest
  | None => None
  end.

(** The first of the results a function gives on a text, on the text less
    its first character, and so on. *)
Fixpoint first_at {A} (f : pystr -> option A) (s : pystr) : option A :=
  match f s with
  | Some x => Some x
  | None =>
      match s with
      | _ :: rest => first_at f rest
      | [] => None
      end
  end.

(** The identifier that follows [v=] or [/] at the head of a text. *)
Definition standard_at (s : pystr) : option pystr :=
  match id_after (py "v=") s with
  | Some g => Some g
  | None => id_after (py "/") s
  end.

End VideoId.

(* ===================================================================== *)
(** * [app/transcript_service.py]: fetching a transcript *)
(* ===================================================================== *)

Module Youtube.
Import PyStr Transcript Web.

(** The exceptions [get_transcript] tells apart: the two of
    [youtube_transcript_api] it names, and any other, with the text
    [str(e)] gives. *)
Inductive api_exn :=
| TranscriptsDisabled
| NoTranscriptFound
| OtherError (message : pystr).

Inductive outcome (A : Type) :=
| Returned (a : A)
| Failed (e : api_exn).
Arguments Returned {A} a.
Arguments Failed {A} e.

(** [YouTubeTranscriptApi.list_transcripts], [find_transcript] of the list
    it returns, and [fetch] and [language_code] of a transcript.  What they
    do with a video is left open. *)
Record youtube_api {TL T : Type} := {
  list_transcripts : pystr -> outcome TL;
  find_transcript : TL -> list pystr -> outcome T;
  fetch : T -> outcome (list segment);
  language_code : T -> pystr
}.
Arguments youtube_api : clear implicits.

(** The values of the dictionaries of [get_transcript] and of the request
    handlers: those of the web service, and transcript data. *)
Inductive tval :=
| TVal (v : pyval)
| TData (data : list segment).

Abbreviation tdict := (gmap string tval).

Definition TStr (s : pystr) : tval := TVal (VStr s).

Definition transcript_success (transcript_data : list segment)
    (language_code : pystr) : tdict :=
  {[ "status" := TStr (py "success");
     "transcript" := TData transcript_data;
     "language" := TStr language_code ]}.

Definition transcript_error (message : pystr) : tdict :=
  {[ "status" := TStr (py "error");
     "message" := TStr message ]}.

Section Service.
Context {TL T : Type} (api : youtube_api TL T).

(** [find_transcript([language])], [fetch()] and the dictionary returned
    on success. *)
Definition find_and_fetch (transcript_list : TL) (language : pystr)
    : outcome tdict :=
  match find_transcript api transcript_list [language] with
  | Failed e => Failed e
  | Returned transcript =>
      match fetch api transcript with
      | Failed e => Failed e
      | Returned transcript_data =>
          Returned (transcript_success transcript_data
                      (language_code api transcript))
      end
  end.

(** The three [except] clauses of the outer [try]. *)
Definition handle (r : outcome tdict) : tdict :=
  match r with
  | Returned d => d
  | Failed TranscriptsDisabled =>
      transcript_error (py "Transcripts are disabled for this video")
  | Failed NoTranscriptFound =>
      transcript_error (py "No transcript found for this video")
  | Failed (OtherError message) =>
      transcript_error (py "Error retrieving transcript: " ++ message)
  end.

(** [TranscriptService.get_transcript]; [language] is [None] or a
    string. *)
Definition get_transcript (video_id : pystr) (language : option pystr) : tdict :=
  handle
    match list_transcripts api video_id with
    | Failed e => Failed e
    | Returned transcript_list =>
        let english (_ : unit) := find_and_fetch transcript_list (py "en") in
        match language with
        | Some ((_ :: _) as language) =>
            match find_and_fetch transcript_list language with
            | Failed NoTranscriptFound => english tt
            | r => r
            end
        | _ => english tt
        end
    end.

End Service.

(** A stand-in for the library, used in examples: videos are known by
    their identifier, each with the transcripts it has, by language. *)
Definition catalogue := list (pystr * list (pystr * list segment)).

Fixpoint assoc {A} (k : pystr) (l : list (pystr * A)) : option A :=
  match l with
  | [] => None
  | (k', v) :: rest => if bool_decide (k' = k) then Some v else assoc k rest
  end.

Definition catalogue_api (videos : catalogue)
    : youtube_api (list (pystr * list segment)) (pystr * list segment) :=
  {| list_transcripts video_id :=
       match assoc video_id videos with
       | Some transcripts => Returned transcripts
       | None => Failed TranscriptsDisabled
       end;
     find_transcript transcripts languages :=
       match languages with
       | language :: _ =>
           match assoc language transcripts with
           | Some data => Returned (language, data)
           | None => Failed NoTranscriptFound
           end
       | [] => Failed NoTranscriptFound
       end;
     fetch transcript := Returned (snd transcript);
     language_code transcript := fst transcript |}.

Definition sample_catalogue : catalogue :=
  [ (py "dQw4w9WgXcQ", [ (py "en", sample_transcript) ]) ].

End Youtube.

(* ===================================================================== *)
(** * [app/api.py]: the request handlers *)
(* ===================================================================== *)

Module Api.
Import PyStr Transcript Web VideoId Youtube.

(** [d[k]] *)
Definition tgetitem (d : tdict) (k : string) : M tval :=
  match d !! k with
  | Some v => mret v
  | None => raise (KeyError k)
  end.

(** [v == s] for a string [s] *)
Definition is_str (v : tval) (s : pystr) : bool :=
  match v with
  | TVal (VStr x) => bool_decide (x = s)
  | _ => false
  end.

(** [not video_id] *)
Definition falsy (video_id : option pystr) : bool :=
  match video_id with
  | Some (_ :: _) => false
  | _ => true
  end.

Definition http_400 : exn := Exception "HTTPException" (py "Invalid YouTube URL").

(** [TranscriptService.format_transcript(transcript_data)] on a value of a
    dictionary.  The value is always transcript data here; on any other
    the call is an error. *)
Definition format_value (transcript_data : tval) : M tval :=
  match transcript_data with
  | TData data => mret (TStr (format_transcript data))
  | TVal _ => raise (Exception "AttributeError" (py "object has no attribute 'get'"))
  end.

(** [{k: v for k, v in result.items() if k != "status"}], as values of a
    response. *)
Definition without_status (result : pydict) : tdict :=
  TVal <$> delete "status" result.

Section Handlers.
Context {TL T : Type} (api : youtube_api TL T).
Variable urlparse : pystr -> result ParseResult.
Variable backend : strategy -> pystr -> pydict.

(** The handler of [POST /transcript]; [url] is [str(request.url)]. *)
Definition get_transcript (url : pystr) (language : option pystr)
    (format_text : bool) : M tdict :=
  let video_id := extract_video_id url in
  if falsy video_id then raise http_400
  else
    let video_id := default [] video_id in
    let result := Youtube.get_transcript api video_id language in
    status ← tgetitem result "status";
    if is_str status (py "error") then
      message ← tgetitem result "message";
      mret ({[ "status" := TStr (py "error");
               "message" := message;
               "video_id" := TStr video_id ]} : tdict)
    else
      transcript_data ← tgetitem result "transcript";
      transcript_output ←
        (if format_text then format_value transcript_data
         else mret transcript_data);
      mret ({[ "status" := TStr (py "success");
               "video_id" := TStr video_id;
               "language" := default (TVal VNone) (result !! "language");
               "transcript" := transcript_output ]} : tdict).

(** The handler of [POST /webpage]. *)
Definition get_webpage_content (url : pystr) : M tdict :=
  result ← extract_content urlparse backend url;
  status ← getitem result "status";
  if bool_decide (status = VStr (py "error")) then
    message ← getitem result "message";
    mret ({[ "status" := TStr (py "error");
             "url" := TStr url;
             "message" := TVal message ]} : tdict)
  else
    mret (without_status result
          ∪ ({[ "status" := TStr (py "success"); "url" := TStr url ]} : tdict)).

(** The handler of [POST /content]. *)
Definition get_content (url : pystr) (language : option pystr)
    (format_text : bool) : M tdict :=
  let video_id := extract_video_id url in
  if negb (falsy video_id) then
    let video_id := default [] video_id in
    let result := Youtube.get_transcript api video_id language in
    status ← tgetitem result "status";
    if is_str status (py "error") then
      message ← tgetitem result "message";
      mret ({[ "status" := TStr (py "error");
               "url" := TStr url;
               "content_type" := TStr (py "youtube");
               "video_id" := TStr video_id;
               "message" := message ]} : tdict)
    else
      transcript_data ← tgetitem result "transcript";
      text ←
        (if format_text then format_value transcript_data
         else mret transcript_data);
      mret ({[ "status" := TStr (py "success");
               "url" := TStr url;
               "content_type" := TStr (py "youtube");
               "video_id" := TStr video_id;
               "language" := default (TVal VNone) (result !! "language");
               "text" := text ]} : tdict)
  else
    result ← extract_content urlparse backend url;
    status ← getitem result "status";
    if bool_decide (status = VStr (py "error")) then
      message ← getitem result "message";
      mret ({[ "status" := TStr (py "error");
               "url" := TStr url;
               "content_type" := TStr (py "webpage");
               "message" := TVal message ]} : tdict)
    else
      mret (without_status result
            ∪ ({[ "status" := TStr (py "success");
                  "url" := TStr url;
                  "content_type" := TStr (py "webpage") ]} : tdict)).

End Handlers.

(** ** Vocabulary for the responses *)

(** The response of [POST /webpage] to a result of [extract_content]. *)
Definition webpage_response (url : pystr) (result : pydict) : tdict :=
  if bool_decide (result !! "status" = Some (VStr (py "error")))
  then {[ "status" := TStr (py "error");
          "url" := TStr url;
          "message" := TVal (dict_get result "message") ]}
  else <["url" := TStr url]> (TVal <$> result).

End Api.

(* ===================================================================== *)
(** * Properties of the matcher *)
(* ===================================================================== *)

Module ReFacts.
Import PyStr Re.

Lemma take_drop_run p s : take_run p s ++ drop_run p s = s.
Proof.
  induction s as [|c s IH]; [reflexivity|].
  cbn. destruct (p c); cbn; [now rewrite IH | reflexivity].
Qed.

Lemma take_run_all p s : forallb p (take_run p s) = true.
Proof.
  induction s as [|c s IH]; [reflexivity|].
  cbn. destruct (p c) eqn:E; cbn; [now rewrite E | reflexivity].
Qed.

Lemma drop_run_head p s c rest : drop_run p s = c :: rest -> p c = false.
Proof.
  induction s as [|x s IH]; cbn; [discriminate|].
  destruct (p x) eqn:E; [exact IH | intros [= -> _]; exact E].
Qed.

Lemma drop_run_length p s : length (drop_run p s) <= length s.
Proof.
  induction s as [|x s IH]; cbn; [lia|]. destruct (p x); cbn; lia.
Qed.

Lemma run_app p run rest :
  forallb p run = true ->
  match rest with c :: _ => p c = false | [] => True end ->
  take_run p (run ++ rest) = run /\ drop_run p (run ++ rest) = rest.
Proof.
  intros Hrun Hrest. induction run as [|x run IH]; cbn in *.
  - destruct rest as [|c rest]; [auto|]. cbn. now rewrite Hrest.
  - apply andb_true_iff in Hrun as [Hx Hrun]. rewrite Hx.
    destruct (IH Hrun) as [-> ->]. auto.
Qed.

(** A run followed by a character outside the class. *)
Lemma run_app_stop p s c rest :
  p c = false ->
  take_run p (s ++ c :: rest) = take_run p s
  /\ drop_run p (s ++ c :: rest) = drop_run p s ++ c :: rest.
Proof.
  intros Hc. induction s as [|x s IH]; cbn.
  - now rewrite Hc.
  - destruct (p x); [|auto]. destruct IH as [-> ->]. auto.
Qed.

(** Greedy repetition stops at the end of the run when the continuation
    accepts there ... *)
Lemma greedy_accept {A} i b a (k : pystr -> pystr -> option A) x :
  k (rev (take_run (item_ok i) a) ++ b) (drop_run (item_ok i) a) = Some x ->
  greedy i b a k = Some x.
Proof.
  revert b. induction a as [|c a IH]; intros b H; cbn in *; [exact H|].
  destruct (item_ok i c); [|exact H].
  cbn in H. rewrite <- app_assoc in H. cbn in H. now rewrite (IH _ H).
Qed.

(** ... and nowhere else when the continuation rejects every position that
    is followed by a character of the class. *)
Lemma greedy_max {A} i b a (k : pystr -> pystr -> option A) :
  (forall b' c a', item_ok i c = true -> k b' (c :: a') = None) ->
  greedy i b a k
  = k (rev (take_run (item_ok i) a) ++ b) (drop_run (item_ok i) a).
Proof.
  intros Hk. revert b. induction a as [|c a IH]; intros b; cbn; [reflexivity|].
  destruct (item_ok i c) eqn:E; [|reflexivity].
  rewrite IH. cbn. rewrite <- app_assoc. cbn.
  destruct (k _ _); [reflexivity|]. now rewrite Hk.
Qed.

Lemma scan_S r n b c rest : scan r (S n) b (c :: rest) = scan r n (c :: b) rest.
Proof. reflexivity. Qed.

Lemma scan_0 r b a :
  scan r 0 b a =
    match match_here r false b a with
    | None =>
        match a with
        | c :: rest => cons_first c (scan r 0 (c :: b) rest)
        | [] => [[]]
        end
    | Some (S m) =>
        [] :: match a with
              | c :: rest => scan r m (c :: b) rest
              | [] => [[]]
              end
    | Some 0 =>
        [] :: match match_here r true b a with
              | None =>
                  match a with
                  | c :: rest => cons_first c (scan r 0 (c :: b) rest)
                  | [] => [[]]
                  end
              | Some n =>
                  [] :: match n, a with
                        | S m, c :: rest => scan r m (c :: b) rest
                        | _, _ => [[]]
                        end
              end
    end.
Proof. destruct a; reflexivity. Qed.

Lemma cons_first_nonempty c ps : cons_first c ps <> [].
Proof. destruct ps; discriminate. Qed.

Lemma scan_nonempty r n b a : scan r n b a <> [].
Proof.
  revert n b. induction a as [|c a IH]; intros n b.
  - destruct n; [|discriminate]. rewrite scan_0.
    destruct (match_here r false b []) as [[|m]|]; discriminate.
  - destruct n as [|n]; [|rewrite scan_S; apply IH].
    rewrite scan_0. destruct (match_here r false b (c :: a)) as [[|m]|];
      try discriminate. apply cons_first_nonempty.
Qed.

Lemma scan_skip r n b a :
  n <= length a ->
  scan r n b a = scan r 0 (rev (firstn n a) ++ b) (skipn n a).
Proof.
  revert b a. induction n as [|n IH]; intros b a Hn; [reflexivity|].
  destruct a as [|c a]; [cbn in Hn; lia|].
  rewrite scan_S, IH by (cbn in Hn; lia).
  cbn [firstn skipn rev]. now rewrite <- app_assoc.
Qed.

Lemma join_cons_first sep c ps :
  ps <> [] -> join sep (cons_first c ps) = c :: join sep ps.
Proof. destruct ps as [|p [|q ps]]; [congruence | reflexivity | reflexivity]. Qed.

Lemma join_nil_cons sep ps : ps <> [] -> join sep ([] :: ps) = sep ++ join sep ps.
Proof. destruct ps; [congruence | reflexivity]. Qed.

(** ** Patterns that never match the empty string and do not look back

    Such a pattern is described by a function [m] giving the length of the
    match at the head of a text. *)
Section Simple.
Variable r : regex.
Variable m : pystr -> option nat.
Hypothesis Hm : forall adv b a, match_here r adv b a = m a.
Hypothesis Hlen : forall a n, m a = Some n -> 1 <= n <= length a.

Lemma simple_nil : m [] = None.
Proof using Hlen.
  destruct (m []) as [n|] eqn:E; [|reflexivity].
  apply Hlen in E. cbn in E. lia.
Qed.

Lemma scan_nil b : scan r 0 b [] = [[]].
Proof using Hm Hlen. rewrite scan_0, Hm, simple_nil. reflexivity. Qed.

Lemma scan_miss b c rest :
  m (c :: rest) = None ->
  scan r 0 b (c :: rest) = cons_first c (scan r 0 (c :: b) rest).
Proof using Hm. intros H. rewrite scan_0, Hm, H. reflexivity. Qed.

Lemma scan_hit b a n :
  m a = Some n ->
  scan r 0 b a = [] :: scan r 0 (rev (firstn n a) ++ b) (skipn n a).
Proof using Hm Hlen.
  intros H. rewrite scan_0, Hm, H. destruct (Hlen _ _ H) as [H1 H2].
  destruct n as [|k]; [lia|]. destruct a as [|c a]; [cbn in H2; lia|].
  rewrite scan_skip by (cbn in H2; lia).
  cbn [firstn skipn rev]. now rewrite <- app_assoc.
Qed.

Lemma scan_before a : forall b, scan r 0 b a = scan r 0 [] a.
Proof using Hm Hlen.
  remember (length a) as k eqn:Hk. revert a Hk.
  induction k as [k IH] using lt_wf_ind. intros a Hk b.
  destruct a as [|c a]; [now rewrite !scan_nil|].
  destruct (m (c :: a)) as [n|] eqn:E.
  - rewrite !(scan_hit _ _ _ E). f_equal.
    destruct (Hlen _ _ E) as [H1 H2].
    rewrite (IH (length (skipn n (c :: a)))) with (b := rev (firstn n (c :: a)) ++ b);
      [| rewrite length_skipn; cbn in *; lia | reflexivity].
    rewrite (IH (length (skipn n (c :: a)))) with (b := rev (firstn n (c :: a)) ++ []);
      [reflexivity | rewrite length_skipn; cbn in *; lia | reflexivity].
  - rewrite !(scan_miss _ _ _ E). f_equal.
    rewrite (IH (length a)) with (b := c :: b); [| cbn in Hk; lia | reflexivity].
    rewrite (IH (length a)) with (b := [c]); [reflexivity | cbn in Hk; lia | reflexivity].
Qed.

Lemma sub_nil repl : sub r repl [] = [].
Proof using Hm Hlen. unfold sub, split. now rewrite scan_nil. Qed.

Lemma sub_miss repl c rest :
  m (c :: rest) = None -> sub r repl (c :: rest) = c :: sub r repl rest.
Proof using Hm Hlen.
  intros H. unfold sub, split. rewrite (scan_miss _ _ _ H), scan_before.
  apply join_cons_first, scan_nonempty.
Qed.

Lemma sub_hit repl a n :
  m a = Some n -> sub r repl a = repl ++ sub r repl (skipn n a).
Proof using Hm Hlen.
  intros H. unfold sub, split. rewrite (scan_hit _ _ _ H), scan_before.
  apply join_nil_cons, scan_nonempty.
Qed.

Lemma search_from_before a : forall b, search_from r b a = search r a.
Proof using Hm.
  unfold search. induction a as [|c a IH]; intros b; cbn; rewrite !Hm.
  - reflexivity.
  - destruct (m (c :: a)); [reflexivity|]. now rewrite (IH (c :: b)), (IH [c]).
Qed.

Lemma search_cons c rest :
  search r (c :: rest)
  = match m (c :: rest) with Some _ => true | None => search r rest end.
Proof using Hm.
  unfold search at 1. cbn. rewrite Hm.
  destruct (m (c :: rest)); [reflexivity | apply search_from_before].
Qed.

Lemma search_nil : search r [] = false.
Proof using Hm Hlen. unfold search. cbn. now rewrite Hm, simple_nil. Qed.

(** No match anywhere: the substitution changes nothing. *)
Lemma sub_no_match repl s : search r s = false -> sub r repl s = s.
Proof using Hm Hlen.
  induction s as [|c s IH]; intros H; [apply sub_nil|].
  rewrite search_cons in H. destruct (m (c :: s)) eqn:E; [discriminate|].
  now rewrite (sub_miss _ _ _ E), IH.
Qed.

End Simple.

End ReFacts.

(* ===================================================================== *)
(** * Properties of the normalizer *)
(* ===================================================================== *)

Module NormalizerFacts.
Import PyStr Re Sentiment ReFacts.

(** ** Timestamp markers *)

Lemma digit_not_colon c : isdigit c = true -> Ascii.eqb ":" c = false.
Proof. destruct (Ascii.eqb_spec ":" c) as [<-|]; [discriminate | reflexivity]. Qed.

Lemma digit_not_close c : isdigit c = true -> Ascii.eqb "]" c = false.
Proof. destruct (Ascii.eqb_spec "]" c) as [<-|]; [discriminate | reflexivity]. Qed.

Lemma digit_not_space c : isdigit c = true -> isspace c = false.
Proof.
  unfold isdigit, isspace, in_range. intros H.
  apply andb_true_iff in H as [H1 H2]. apply Nat.leb_le in H1, H2.
  repeat (apply orb_false_iff; split); apply andb_false_iff;
    rewrite !Nat.leb_gt; lia.
Qed.

Lemma stamp_len_inv a n :
  stamp_len a = Some n ->
  exists d1 d2 rest,
    a = py "[" ++ d1 ++ py ":" ++ d2 ++ py "]" ++ rest
    /\ d1 <> [] /\ d2 <> []
    /\ forallb isdigit d1 = true /\ forallb isdigit d2 = true
    /\ n = 3 + length d1 + length d2.
Proof.
  unfold stamp_len. destruct a as [|c r]; [discriminate|].
  destruct (Ascii.eqb_spec "[" c) as [<-|]; [|discriminate].
  assert (E1 := take_drop_run isdigit r). assert (D1 := take_run_all isdigit r).
  destruct (take_run isdigit r) as [|x d1] eqn:T1; [discriminate|].
  destruct (drop_run isdigit r) as [|c2 r2] eqn:R1; [discriminate|].
  destruct (Ascii.eqb_spec ":" c2) as [<-|]; [|discriminate].
  assert (E2 := take_drop_run isdigit r2). assert (D2 := take_run_all isdigit r2).
  destruct (take_run isdigit r2) as [|y d2] eqn:T2; [discriminate|].
  destruct (drop_run isdigit r2) as [|c3 r3] eqn:R2; [discriminate|].
  destruct (Ascii.eqb_spec "]" c3) as [<-|]; [|discriminate].
  intros [= <-]. exists (x :: d1), (y :: d2), r3.
  repeat split; try discriminate; try assumption.
  subst r r2. reflexivity.
Qed.

Lemma stamp_len_intro d1 d2 rest :
  d1 <> [] -> d2 <> [] ->
  forallb isdigit d1 = true -> forallb isdigit d2 = true ->
  stamp_len (py "[" ++ d1 ++ py ":" ++ d2 ++ py "]" ++ rest)
  = Some (3 + length d1 + length d2).
Proof.
  intros N1 N2 D1 D2. cbn [py list_ascii_of_string app stamp_len].
  rewrite Ascii.eqb_refl.
  destruct (run_app_stop isdigit d1 ":" (d2 ++ "]"%char :: rest) eq_refl) as [-> ->].
  destruct (run_app isdigit d1 [] D1 I) as [T1 R1]. rewrite app_nil_r in T1, R1.
  rewrite T1, R1. destruct d1 as [|x d1]; [congruence|].
  cbn [app]. rewrite Ascii.eqb_refl.
  destruct (run_app_stop isdigit d2 "]" rest eq_refl) as [-> ->].
  destruct (run_app isdigit d2 [] D2 I) as [T2 R2]. rewrite app_nil_r in T2, R2.
  rewrite T2, R2. destruct d2 as [|y d2]; [congruence|].
  cbn [app]. rewrite Ascii.eqb_refl. reflexivity.
Qed.

Lemma timestamp_length d1 d2 :
  length (py "[" ++ d1 ++ py ":" ++ d2 ++ py "]") = 3 + length d1 + length d2.
Proof. cbn. rewrite length_app. cbn. rewrite length_app. cbn. lia. Qed.

(** The recogniser is complete and sound for markers. *)
Lemma stamp_len_timestamp marker rest :
  is_timestamp marker -> stamp_len (marker ++ rest) = Some (length marker).
Proof.
  intros (d1 & d2 & -> & N1 & N2 & D1 & D2).
  rewrite timestamp_length, <- (stamp_len_intro d1 d2 rest N1 N2 D1 D2).
  f_equal. now rewrite <- !app_assoc.
Qed.

Lemma stamp_len_sound a n :
  stamp_len a = Some n ->
  is_timestamp (firstn n a) /\ a = firstn n a ++ skipn n a /\ n <= length a.
Proof.
  intros H. destruct (stamp_len_inv _ _ H) as (d1 & d2 & rest & -> & N1 & N2 & D1 & D2 & ->).
  rewrite <- timestamp_length.
  replace (py "[" ++ d1 ++ py ":" ++ d2 ++ py "]" ++ rest)
    with ((py "[" ++ d1 ++ py ":" ++ d2 ++ py "]") ++ rest)
    by now rewrite <- !app_assoc.
  rewrite firstn_app, Nat.sub_diag, firstn_all, firstn_O, app_nil_r.
  rewrite skipn_app, Nat.sub_diag, skipn_all, skipn_O.
  repeat split.
  - exists d1, d2. auto.
  - rewrite !length_app. lia.
Qed.

Lemma stamp_len_bounds a n : stamp_len a = Some n -> 1 <= n <= length a.
Proof.
  intros H. destruct (stamp_len_sound _ _ H) as (_ & _ & Hn).
  destruct (stamp_len_inv _ _ H) as (d1 & d2 & rest & _ & _ & _ & _ & _ & E). lia.
Qed.

(** The pattern [\[\d+:\d+\]] matches exactly the markers. *)
Lemma timestamp_re_stamp_len adv b a :
  match_here timestamp_re adv b a = stamp_len a.
Proof.
  unfold match_here, timestamp_re, stamp_len. cbn [matches item_ok].
  destruct a as [|c r]; [reflexivity|].
  destruct (Ascii.eqb "[" c); [|reflexivity].
  assert (E1 := take_drop_run isdigit r).
  destruct r as [|x r]; [reflexivity|]. cbn [take_run drop_run] in *.
  destruct (isdigit x) eqn:Dx; [|reflexivity].
  rewrite greedy_max
    by (intros b' c' a' Hc; cbn [item_ok] in Hc; cbn [matches item_ok];
        now rewrite (digit_not_colon _ Hc)).
  change (item_ok Digit) with isdigit.
  destruct (drop_run isdigit r) as [|c2 r2] eqn:R1; [reflexivity|].
  destruct (Ascii.eqb ":" c2); [|reflexivity].
  assert (E2 := take_drop_run isdigit r2).
  destruct r2 as [|y r2]; [reflexivity|]. cbn [take_run drop_run] in *.
  destruct (isdigit y) eqn:Dy; [|reflexivity].
  rewrite greedy_max
    by (intros b' c' a' Hc; cbn [item_ok] in Hc; cbn [matches item_ok];
        now rewrite (digit_not_close _ Hc)).
  change (item_ok Digit) with isdigit.
  destruct (drop_run isdigit r2) as [|c3 r3] eqn:R2; [reflexivity|].
  destruct (Ascii.eqb "]" c3); [|reflexivity].
  apply (f_equal (@length ascii)) in E1, E2.
  cbn [length] in *. rewrite length_app in E1, E2. cbn [length] in *.
  replace (S (S (length r)) - length r3)
    with (3 + S (length (take_run isdigit r)) + S (length (take_run isdigit r2)))
    by lia.
  rewrite andb_false_r. reflexivity.
Qed.

(** ** Removing the markers *)

Lemma remove_nil : sub timestamp_re (py "") [] = [].
Proof. apply (sub_nil _ _ timestamp_re_stamp_len stamp_len_bounds). Qed.

Lemma remove_miss c rest :
  stamp_len (c :: rest) = None ->
  sub timestamp_re (py "") (c :: rest) = c :: sub timestamp_re (py "") rest.
Proof. apply (sub_miss _ _ timestamp_re_stamp_len stamp_len_bounds). Qed.

Lemma remove_hit a n :
  stamp_len a = Some n ->
  sub timestamp_re (py "") a = sub timestamp_re (py "") (skipn n a).
Proof.
  intros H.
  now rewrite (sub_hit _ _ timestamp_re_stamp_len stamp_len_bounds _ _ _ H).
Qed.

Lemma remove_no_match s :
  search timestamp_re s = false -> sub timestamp_re (py "") s = s.
Proof. apply (sub_no_match _ _ timestamp_re_stamp_len stamp_len_bounds). Qed.

Lemma search_timestamp_cons c rest :
  search timestamp_re (c :: rest)
  = match stamp_len (c :: rest) with
    | Some _ => true
    | None => search timestamp_re rest
    end.
Proof. apply (search_cons _ _ timestamp_re_stamp_len). Qed.

Lemma search_timestamp_nil : search timestamp_re [] = false.
Proof. apply (search_nil _ _ timestamp_re_stamp_len stamp_len_bounds). Qed.

(** A text in front of an opening bracket is matched as it is alone. *)
Lemma stamp_len_app_bracket p z :
  p <> [] -> stamp_len (p ++ "["%char :: z) = stamp_len p.
Proof.
  destruct p as [|c r]; [congruence|]. intros _. cbn [app stamp_len].
  destruct (Ascii.eqb "[" c); [|reflexivity].
  destruct (run_app_stop isdigit r "[" z eq_refl) as [-> ->].
  destruct (take_run isdigit r) as [|x d1]; [reflexivity|].
  destruct (drop_run isdigit r) as [|c2 r2]; [reflexivity|].
  cbn [app]. destruct (Ascii.eqb ":" c2); [|reflexivity].
  destruct (run_app_stop isdigit r2 "[" z eq_refl) as [-> ->].
  destruct (take_run isdigit r2) as [|y d2]; [reflexivity|].
  destruct (drop_run isdigit r2) as [|c3 r3]; reflexivity.
Qed.

Lemma timestamp_head marker :
  is_timestamp marker -> exists z, marker = "["%char :: z.
Proof. intros (d1 & d2 & -> & _). eexists. reflexivity. Qed.

(** Every marker of the input is removed, and the texts on its two sides
    are treated independently. *)
Lemma remove_marker p marker q :
  is_timestamp marker ->
  sub timestamp_re (py "") (p ++ marker ++ q)
  = sub timestamp_re (py "") p ++ sub timestamp_re (py "") q.
Proof.
  intros Hm. remember (length p) as k eqn:Hk. revert p Hk.
  induction k as [k IH] using lt_wf_ind. intros p Hk.
  destruct p as [|c p].
  - cbn [app]. rewrite (remove_hit _ _ (stamp_len_timestamp _ q Hm)).
    rewrite skipn_app, Nat.sub_diag, skipn_all, skipn_O, remove_nil. reflexivity.
  - destruct (timestamp_head _ Hm) as [z Hz].
    assert (E : stamp_len ((c :: p) ++ marker ++ q) = stamp_len (c :: p)).
    { rewrite Hz. cbn [app]. apply (stamp_len_app_bracket (c :: p)). discriminate. }
    destruct (stamp_len (c :: p)) as [n|] eqn:Hs.
    + rewrite (remove_hit _ _ E), (remove_hit _ _ Hs).
      destruct (stamp_len_bounds _ _ Hs) as [H1 H2].
      rewrite skipn_app. replace (n - length (c :: p)) with 0 by lia.
      rewrite skipn_O. apply (IH (length (skipn n (c :: p)))); [|reflexivity].
      rewrite length_skipn. cbn in *. lia.
    + cbn [app] in *. rewrite (remove_miss _ _ E), (remove_miss _ _ Hs).
      cbn [app]. f_equal. apply (IH (length p)); [cbn in Hk; lia | reflexivity].
Qed.

(** ** Texts without a marker *)

Lemma search_timestamp_false s :
  search timestamp_re s = false <-> forall p q, s = p ++ q -> stamp_len q = None.
Proof.
  induction s as [|c s IH].
  - split; [|intros _; apply search_timestamp_nil].
    intros _ p q E. symmetry in E. apply app_eq_nil in E as [_ ->]. reflexivity.
  - rewrite search_timestamp_cons. split.
    + intros H p q E. destruct (stamp_len (c :: s)) eqn:Hs; [discriminate|].
      destruct p as [|x p]; cbn in E.
      * now subst q.
      * injection E as _ E. now apply (proj1 IH H p q).
    + intros H. rewrite (H [] (c :: s) eq_refl). apply IH.
      intros p q E. apply (H (c :: p) q). now rewrite E.
Qed.

Lemma stamp_len_prefix q r n :
  stamp_len q = Some n -> stamp_len (q ++ r) = Some n.
Proof.
  intros H. destruct (stamp_len_sound _ _ H) as (Hm & E & Hn).
  rewrite E at 1. rewrite <- app_assoc, (stamp_len_timestamp _ _ Hm).
  now rewrite length_firstn, Nat.min_l.
Qed.

Lemma no_timestamp_inside l z r :
  search timestamp_re (l ++ z ++ r) = false -> search timestamp_re z = false.
Proof.
  rewrite !search_timestamp_false. intros H p q ->.
  destruct (stamp_len q) as [n|] eqn:Hq; [|reflexivity].
  rewrite <- (H (l ++ p) (q ++ r)) by now rewrite <- !app_assoc.
  symmetry. now apply stamp_len_prefix.
Qed.

Lemma timestamp_no_space marker :
  is_timestamp marker -> forallb (fun c => negb (isspace c)) marker = true.
Proof.
  intros (d1 & d2 & -> & _ & _ & D1 & D2).
  assert (F : forall d, forallb isdigit d = true ->
                        forallb (fun c => negb (isspace c)) d = true).
  { induction d as [|x d IHd]; cbn; [reflexivity|].
    intros [Hx Hd]%andb_true_iff. now rewrite (digit_not_space _ Hx), IHd. }
  cbn. rewrite !forallb_app, (F _ D1). cbn. rewrite forallb_app, (F _ D2).
  reflexivity.
Qed.

(** ** Trimming *)

Lemma drop_run_fixed p s :
  match s with c :: _ => p c = false | [] => True end -> drop_run p s = s.
Proof. destruct s as [|c s]; [reflexivity|]. cbn. now intros ->. Qed.

Lemma drop_run_idem p s : drop_run p (drop_run p s) = drop_run p s.
Proof.
  apply drop_run_fixed. destruct (drop_run p s) as [|c r] eqn:E; [exact I|].
  now apply drop_run_head in E.
Qed.

Lemma skipn_take_run p s : skipn (length (take_run p s)) s = drop_run p s.
Proof.
  induction s as [|c s IH]; [reflexivity|]. cbn. destruct (p c); cbn; auto.
Qed.

Lemma rstrip_nil : rstrip [] = [].
Proof. reflexivity. Qed.

Lemma rstrip_app_nonspace l x t :
  isspace x = false -> rstrip (l ++ x :: t) = l ++ x :: rstrip t.
Proof.
  intros Hx. unfold rstrip, lstrip.
  rewrite rev_app_distr. cbn [rev]. rewrite <- app_assoc. cbn [app].
  destruct (run_app_stop isspace (rev t) x (rev l) Hx) as [_ ->].
  rewrite rev_app_distr. cbn [rev]. rewrite rev_involutive, <- app_assoc.
  reflexivity.
Qed.

Lemma rstrip_cons_nonspace x t :
  isspace x = false -> rstrip (x :: t) = x :: rstrip t.
Proof. apply (rstrip_app_nonspace []). Qed.

Lemma rstrip_idem s : rstrip (rstrip s) = rstrip s.
Proof.
  unfold rstrip, lstrip. now rewrite rev_involutive, drop_run_idem.
Qed.

Lemma rstrip_all_space s : forallb isspace s = true -> rstrip s = [].
Proof.
  intros H. unfold rstrip, lstrip.
  assert (R : forallb isspace (rev s) = true).
  { apply forallb_forall. intros c Hc. apply in_rev in Hc.
    now apply (proj1 (forallb_forall _ _) H). }
  destruct (run_app isspace (rev s) [] R I) as [_ E].
  rewrite app_nil_r in E. now rewrite E.
Qed.

Lemma strip_cases s :
  strip s = []
  \/ exists c r, lstrip s = c :: r /\ isspace c = false /\ strip s = c :: rstrip r.
Proof.
  unfold strip. destruct (lstrip s) as [|c r] eqn:E; [left; reflexivity|].
  right. exists c, r. assert (Hc := drop_run_head _ _ _ _ E).
  repeat split; [exact Hc | now apply rstrip_cons_nonspace].
Qed.

Lemma lstrip_strip s : lstrip (strip s) = strip s.
Proof.
  destruct (strip_cases s) as [-> | (c & r & _ & Hc & ->)]; [reflexivity|].
  unfold lstrip. cbn. now rewrite Hc.
Qed.

Lemma rstrip_strip s : rstrip (strip s) = strip s.
Proof. unfold strip. apply rstrip_idem. Qed.

Lemma strip_idem s : strip (strip s) = strip s.
Proof. unfold strip at 1. now rewrite lstrip_strip, rstrip_strip. Qed.

(** What [strip] returns is a part of its argument. *)
Lemma strip_inside s : exists l r, s = l ++ strip s ++ r.
Proof.
  exists (take_run isspace s), (rev (take_run isspace (rev (lstrip s)))).
  unfold strip, rstrip. fold (lstrip (rev (lstrip s))). unfold lstrip at 2.
  rewrite <- rev_app_distr, take_drop_run, rev_involutive.
  symmetry. apply take_drop_run.
Qed.

(** ** Collapsing whitespace *)

Lemma space_len_bounds a n : space_len a = Some n -> 1 <= n <= length a.
Proof.
  unfold space_len. assert (E := take_drop_run isspace a).
  apply (f_equal (@length ascii)) in E. rewrite length_app in E.
  destruct (take_run isspace a); [discriminate|]. intros [= <-]. cbn in *. lia.
Qed.

(** The pattern [\s+] matches exactly the longest run of whitespace. *)
Lemma whitespace_re_space_len adv b a :
  match_here whitespace_re adv b a = space_len a.
Proof.
  unfold match_here, whitespace_re, space_len. cbn [matches].
  destruct a as [|c rest]; [reflexivity|].
  change (item_ok Space c) with (isspace c). cbn [take_run].
  destruct (isspace c); [|reflexivity].
  apply greedy_accept. change (item_ok Space) with isspace.
  assert (E := take_drop_run isspace rest).
  apply (f_equal (@length ascii)) in E. rewrite length_app in E.
  cbn [length].
  replace (S (length rest) - length (drop_run isspace rest))
    with (S (length (take_run isspace rest))) by lia.
  now rewrite andb_false_r.
Qed.

Lemma collapse_nil : sub whitespace_re (py " ") [] = [].
Proof. apply (sub_nil _ _ whitespace_re_space_len space_len_bounds). Qed.

Lemma collapse_keep c rest :
  isspace c = false ->
  sub whitespace_re (py " ") (c :: rest) = c :: sub whitespace_re (py " ") rest.
Proof.
  intros H. apply (sub_miss _ _ whitespace_re_space_len space_len_bounds).
  unfold space_len. cbn. now rewrite H.
Qed.

Lemma collapse_run c rest :
  isspace c = true ->
  sub whitespace_re (py " ") (c :: rest)
  = space :: sub whitespace_re (py " ") (drop_run isspace rest).
Proof.
  intros H.
  rewrite (sub_hit _ _ whitespace_re_space_len space_len_bounds (py " ")
             (c :: rest) (S (length (take_run isspace rest)))).
  - cbn [skipn]. now rewrite skipn_take_run.
  - unfold space_len. cbn. now rewrite H.
Qed.

Lemma collapse_single_spaced y :
  single_spaced (sub whitespace_re (py " ") y) = true.
Proof.
  remember (length y) as k eqn:Hk. revert y Hk.
  induction k as [k IH] using lt_wf_ind. intros y Hk.
  destruct y as [|c rest]; [now rewrite collapse_nil|].
  destruct (isspace c) eqn:E.
  - rewrite (collapse_run _ _ E). cbn [single_spaced].
    assert (L := drop_run_length isspace rest).
    rewrite (IH (length (drop_run isspace rest))); [| cbn in Hk; lia | reflexivity].
    destruct (drop_run isspace rest) as [|c2 r2] eqn:D.
    + rewrite collapse_nil. reflexivity.
    + apply drop_run_head in D. rewrite (collapse_keep _ _ D), D. reflexivity.
  - rewrite (collapse_keep _ _ E). cbn [single_spaced]. rewrite E.
    apply (IH (length rest)); [cbn in Hk; lia | reflexivity].
Qed.

Lemma collapse_fixed z :
  single_spaced z = true -> sub whitespace_re (py " ") z = z.
Proof.
  induction z as [|c rest IH]; intros H; [apply collapse_nil|].
  cbn [single_spaced] in H. apply andb_true_iff in H as [Hc Hrest].
  destruct (isspace c) eqn:E.
  - apply andb_true_iff in Hc as [Heq Hnext].
    apply Ascii.eqb_eq in Heq. rewrite (collapse_run _ _ E).
    rewrite drop_run_fixed.
    + now rewrite IH, Heq.
    + destruct rest as [|c2 r2]; [exact I|]. now apply negb_true_iff in Hnext.
  - now rewrite (collapse_keep _ _ E), IH.
Qed.

Lemma single_spaced_suffix l z :
  single_spaced (l ++ z) = true -> single_spaced z = true.
Proof.
  induction l as [|c l IH]; [auto|]. cbn [app single_spaced].
  intros [_ H]%andb_true_iff. auto.
Qed.

Lemma single_spaced_prefix z r :
  single_spaced (z ++ r) = true -> single_spaced z = true.
Proof.
  induction z as [|c z IH]; [reflexivity|]. cbn [app single_spaced].
  intros [Hc H]%andb_true_iff. rewrite (IH H), andb_true_r.
  destruct (isspace c); [|reflexivity].
  apply andb_true_iff in Hc as [-> Hn]. destruct z; [reflexivity | exact Hn].
Qed.

Lemma single_spaced_strip z :
  single_spaced z = true -> single_spaced (strip z) = true.
Proof.
  intros H. destruct (strip_inside z) as (l & r & E). rewrite E in H.
  apply single_spaced_suffix, single_spaced_prefix in H. exact H.
Qed.

Lemma no_space_single_spaced w :
  forallb (fun c => negb (isspace c)) w = true -> single_spaced w = true.
Proof.
  induction w as [|c w IH]; [reflexivity|]. cbn.
  intros [Hc Hw]%andb_true_iff. apply negb_true_iff in Hc.
  now rewrite Hc, IH.
Qed.

(** A stretch without whitespace in the collapsed text stood in the
    original text. *)
Lemma collapse_prefix w y rest' :
  forallb (fun c => negb (isspace c)) w = true ->
  sub whitespace_re (py " ") y = w ++ rest' ->
  exists rest, y = w ++ rest.
Proof.
  revert y. induction w as [|x w IH]; intros y Hw E; [now exists y|].
  cbn in Hw. apply andb_true_iff in Hw as [Hx Hw]. apply negb_true_iff in Hx.
  destruct y as [|c r]; [rewrite collapse_nil in E; discriminate|].
  destruct (isspace c) eqn:Ec.
  - rewrite (collapse_run _ _ Ec) in E. injection E as <- _. discriminate.
  - rewrite (collapse_keep _ _ Ec) in E. injection E as <- E.
    destruct (IH _ Hw E) as [rest ->]. now exists rest.
Qed.

Lemma collapse_inside y : forall p' w rest',
  forallb (fun c => negb (isspace c)) w = true ->
  sub whitespace_re (py " ") y = p' ++ w ++ rest' ->
  exists p rest, y = p ++ w ++ rest.
Proof.
  remember (length y) as k eqn:Hk. revert y Hk.
  induction k as [k IH] using lt_wf_ind. intros y Hk p' w rest' Hw E.
  destruct p' as [|a p'].
  - destruct (collapse_prefix _ _ _ Hw E) as [rest ->]. now exists [], rest.
  - destruct y as [|c r]; [rewrite collapse_nil in E; discriminate|].
    destruct (isspace c) eqn:Ec.
    + rewrite (collapse_run _ _ Ec) in E. injection E as _ E.
      assert (L := drop_run_length isspace r).
      destruct (IH (length (drop_run isspace r)) ltac:(cbn in Hk; lia) _ eq_refl
                  _ _ _ Hw E) as (p & rest & E').
      exists (c :: take_run isspace r ++ p), rest.
      cbn [app]. rewrite <- app_assoc, <- E', take_drop_run. reflexivity.
    + rewrite (collapse_keep _ _ Ec) in E. injection E as _ E.
      destruct (IH (length r) ltac:(cbn in Hk; lia) _ eq_refl _ _ _ Hw E)
        as (p & rest & ->).
      now exists (c :: p), rest.
Qed.

Lemma search_timestamp_true s :
  search timestamp_re s = true ->
  exists p q n, s = p ++ q /\ stamp_len q = Some n.
Proof.
  induction s as [|c s IH]; [rewrite search_timestamp_nil; discriminate|].
  rewrite search_timestamp_cons. destruct (stamp_len (c :: s)) as [n|] eqn:E.
  - intros _. now exists [], (c :: s), n.
  - intros H. destruct (IH H) as (p & q & n & -> & Hq). now exists (c :: p), q, n.
Qed.

Lemma no_timestamp_collapse y :
  search timestamp_re y = false ->
  search timestamp_re (sub whitespace_re (py " ") y) = false.
Proof.
  intros H. destruct (search timestamp_re (sub whitespace_re (py " ") y)) eqn:E;
    [|reflexivity].
  exfalso. destruct (search_timestamp_true _ E) as (p & q & n & Epq & Hq).
  destruct (stamp_len_sound _ _ Hq) as (Hm & Eq & _).
  rewrite Eq in Epq.
  destruct (collapse_inside _ _ _ _ (timestamp_no_space _ Hm) Epq)
    as (p0 & rest & Ey).
  rewrite search_timestamp_false in H. specialize (H _ _ Ey).
  now rewrite (stamp_len_timestamp _ rest Hm) in H.
Qed.

Lemma no_timestamp_strip y :
  search timestamp_re y = false -> search timestamp_re (strip y) = false.
Proof.
  intros H. destruct (strip_inside y) as (l & r & E). rewrite E in H.
  now apply no_timestamp_inside in H.
Qed.

(** A maximal run of whitespace becomes one space, and the texts on its
    two sides are treated independently. *)
Lemma collapse_between a run b :
  rstrip a = a -> lstrip b = b ->
  run <> [] -> forallb isspace run = true ->
  sub whitespace_re (py " ") (a ++ run ++ b)
  = sub whitespace_re (py " ") a ++ space :: sub whitespace_re (py " ") b.
Proof.
  intros Ha Hb Hne Hrun. remember (length a) as k eqn:Hk. revert a Ha Hk.
  induction k as [k IH] using lt_wf_ind. intros a Ha Hk.
  assert (Hbh : match b with c :: _ => isspace c = false | [] => True end).
  { destruct b as [|c b']; [exact I|]. unfold lstrip in Hb. cbn in Hb.
    destruct (isspace c); [|reflexivity].
    exfalso. assert (L := drop_run_length isspace b').
    apply (f_equal (@length ascii)) in Hb. cbn in Hb. lia. }
  destruct a as [|c a].
  - rewrite collapse_nil. cbn [app].
    destruct run as [|x run]; [congruence|]. cbn in Hrun.
    apply andb_true_iff in Hrun as [Hx Hrun]. cbn [app].
    rewrite (collapse_run _ _ Hx).
    destruct (run_app isspace run b Hrun Hbh) as [_ ->]. reflexivity.
  - destruct (isspace c) eqn:Ec.
    + cbn [app]. rewrite !(collapse_run _ _ Ec).
      rewrite <- (take_drop_run isspace a) at 1.
      destruct (drop_run isspace a) as [|x t] eqn:D.
      * exfalso. assert (All : forallb isspace (c :: a) = true).
        { cbn. rewrite Ec. rewrite <- (take_drop_run isspace a), D, app_nil_r.
          apply take_run_all. }
        rewrite (rstrip_all_space _ All) in Ha. discriminate.
      * assert (Hx := drop_run_head _ _ _ _ D).
        rewrite <- app_assoc.
        destruct (run_app isspace (take_run isspace a) ((x :: t) ++ run ++ b)
                    (take_run_all isspace a) Hx) as [_ ->].
        assert (Ha' : rstrip (x :: t) = x :: t).
        { rewrite <- (take_drop_run isspace a), D in Ha.
          change (c :: take_run isspace a ++ x :: t)
            with ((c :: take_run isspace a) ++ x :: t) in Ha.
          rewrite (rstrip_app_nonspace (c :: take_run isspace a) x t Hx) in Ha.
          rewrite (rstrip_cons_nonspace x t Hx).
          cbn [app] in Ha. injection Ha as Ha. now apply app_inv_head in Ha. }
        assert (L := drop_run_length isspace a). rewrite D in L.
        rewrite (IH (length (x :: t)) ltac:(cbn in *; lia) _ Ha' eq_refl).
        reflexivity.
    + cbn [app]. rewrite !(collapse_keep _ _ Ec). cbn [app]. f_equal.
      apply (IH (length a)); [cbn in Hk; lia | | reflexivity].
      rewrite (rstrip_cons_nonspace _ _ Ec) in Ha. now injection Ha.
Qed.

(** ** The normalizer *)

Lemma clean_transcript_unfold x :
  clean_transcript x
  = strip (sub whitespace_re (py " ") (sub timestamp_re (py "") x)).
Proof. reflexivity. Qed.

Lemma clean_transcript_normal x :
  single_spaced (clean_transcript x) = true
  /\ lstrip (clean_transcript x) = clean_transcript x
  /\ rstrip (clean_transcript x) = clean_transcript x.
Proof.
  rewrite clean_transcript_unfold. repeat split.
  - apply single_spaced_strip, collapse_single_spaced.
  - apply lstrip_strip.
  - apply rstrip_strip.
Qed.

(** Normalising whitespace twice is normalising it once. *)
Lemma whitespace_idempotent y :
  strip (sub whitespace_re (py " ") (strip (sub whitespace_re (py " ") y)))
  = strip (sub whitespace_re (py " ") y).
Proof.
  rewrite (collapse_fixed (strip _)).
  - apply strip_idem.
  - apply single_spaced_strip, collapse_single_spaced.
Qed.

(** ** What a marker left behind does to a second pass *)

Lemma collapse_nonspace_app w rest :
  forallb (fun c => negb (isspace c)) w = true ->
  sub whitespace_re (py " ") (w ++ rest) = w ++ sub whitespace_re (py " ") rest.
Proof.
  induction w as [|x w IH]; [reflexivity|]. cbn [forallb app].
  intros [Hx Hw]%andb_true_iff. apply negb_true_iff in Hx.
  now rewrite (collapse_keep _ _ Hx), IH.
Qed.

Lemma collapse_keeps_inside w rest p :
  forallb (fun c => negb (isspace c)) w = true ->
  exists p' rest', sub whitespace_re (py " ") (p ++ w ++ rest) = p' ++ w ++ rest'.
Proof.
  intros Hw. remember (length p) as k eqn:Hk. revert p Hk.
  induction k as [k IH] using lt_wf_ind. intros p Hk.
  destruct p as [|c p].
  - exists [], (sub whitespace_re (py " ") rest). cbn [app].
    now apply collapse_nonspace_app.
  - cbn [app]. destruct (isspace c) eqn:Ec.
    + rewrite (collapse_run _ _ Ec).
      destruct w as [|x w].
      * exists (space :: sub whitespace_re (py " ") (drop_run isspace (p ++ rest))), [].
        cbn [app]. now rewrite app_nil_r.
      * cbn [forallb] in Hw. apply andb_true_iff in Hw as [Hx Hw'].
        apply negb_true_iff in Hx. cbn [app].
        destruct (run_app_stop isspace p x (w ++ rest) Hx) as [_ ->].
        assert (L := drop_run_length isspace p).
        destruct (IH (length (drop_run isspace p)) ltac:(cbn in Hk; lia) _ eq_refl)
          as (p' & rest' & E).
        cbn [app] in E. rewrite E. now exists (space :: p'), rest'.
    + rewrite (collapse_keep _ _ Ec).
      destruct (IH (length p) ltac:(cbn in Hk; lia) _ eq_refl) as (p' & rest' & E).
      rewrite E. now exists (c :: p'), rest'.
Qed.

Lemma strip_keeps_inside w rest p :
  w <> [] -> forallb (fun c => negb (isspace c)) w = true ->
  exists p' rest', strip (p ++ w ++ rest) = p' ++ w ++ rest'.
Proof.
  intros Hne Hw. destruct (exists_last Hne) as (w0 & xl & ->).
  rewrite forallb_app in Hw. apply andb_true_iff in Hw as [Hw0 Hxl].
  cbn in Hxl. rewrite andb_true_r in Hxl. apply negb_true_iff in Hxl.
  assert (Hhead : exists x z, (w0 ++ [xl]) ++ rest = x :: z /\ isspace x = false).
  { destruct w0 as [|x w0]; cbn.
    - now exists xl, rest.
    - cbn in Hw0. apply andb_true_iff in Hw0 as [Hx _].
      apply negb_true_iff in Hx. now exists x, ((w0 ++ [xl]) ++ rest). }
  destruct Hhead as (x & z & Ez & Hx).
  unfold strip, lstrip. rewrite Ez.
  destruct (run_app_stop isspace p x z Hx) as [_ ->]. rewrite <- Ez.
  exists (drop_run isspace p), (rstrip rest).
  replace (drop_run isspace p ++ (w0 ++ [xl]) ++ rest)
    with ((drop_run isspace p ++ w0) ++ xl :: rest)
    by (rewrite <- !app_assoc; reflexivity).
  rewrite (rstrip_app_nonspace _ _ _ Hxl), <- !app_assoc. reflexivity.
Qed.

Lemma remove_length s :
  length (sub timestamp_re (py "") s) <= length s
  /\ (search timestamp_re s = true ->
      length (sub timestamp_re (py "") s) < length s).
Proof.
  remember (length s) as k eqn:Hk. revert s Hk.
  induction k as [k IH] using lt_wf_ind. intros s Hk.
  destruct s as [|c s]; [rewrite remove_nil, search_timestamp_nil; split; [cbn; lia | discriminate]|].
  rewrite search_timestamp_cons. destruct (stamp_len (c :: s)) as [n|] eqn:E.
  - rewrite (remove_hit _ _ E). destruct (stamp_len_bounds _ _ E) as [H1 H2].
    assert (L : length (skipn n (c :: s)) < k)
      by (rewrite length_skipn; cbn in *; lia).
    destruct (IH _ L _ eq_refl) as [Hle _]. split; [lia | intros _; lia].
  - rewrite (remove_miss _ _ E). cbn [length] in *.
    destruct (IH (length s) ltac:(lia) _ eq_refl) as [Hle Hlt].
    split; [lia | intros H; specialize (Hlt H); lia].
Qed.

Lemma collapse_length y : length (sub whitespace_re (py " ") y) <= length y.
Proof.
  remember (length y) as k eqn:Hk. revert y Hk.
  induction k as [k IH] using lt_wf_ind. intros y Hk.
  destruct y as [|c r]; [rewrite collapse_nil; cbn; lia|].
  destruct (isspace c) eqn:Ec.
  - rewrite (collapse_run _ _ Ec). assert (L := drop_run_length isspace r).
    cbn [length] in *.
    specialize (IH (length (drop_run isspace r)) ltac:(lia) _ eq_refl). lia.
  - rewrite (collapse_keep _ _ Ec). cbn [length] in *.
    specialize (IH (length r) ltac:(lia) _ eq_refl). lia.
Qed.

Lemma strip_length s : length (strip s) <= length s.
Proof.
  destruct (strip_inside s) as (l & r & E). rewrite E at 2.
  rewrite !length_app. lia.
Qed.

Lemma search_timestamp_inside p marker rest :
  is_timestamp marker -> search timestamp_re (p ++ marker ++ rest) = true.
Proof.
  intros Hm. destruct (search timestamp_re (p ++ marker ++ rest)) eqn:E;
    [reflexivity|].
  rewrite search_timestamp_false in E. specialize (E _ _ eq_refl).
  now rewrite (stamp_len_timestamp _ rest Hm) in E.
Qed.

(** A marker left by the first pass makes the second pass shorten the
    text. *)
Lemma leftover_marker_shrinks x :
  search timestamp_re (sub timestamp_re (py "") x) = true ->
  length (clean_transcript (clean_transcript x)) < length (clean_transcript x).
Proof.
  intros H. destruct (search_timestamp_true _ H) as (p & q & n & E & Hq).
  destruct (stamp_len_sound _ _ Hq) as (Hm & Eq & _). rewrite Eq in E.
  assert (Hw := timestamp_no_space _ Hm).
  assert (Hne : firstn n q <> []).
  { destruct (timestamp_head _ Hm) as [z ->]. discriminate. }
  destruct (collapse_keeps_inside _ (skipn n q) p Hw) as (p1 & r1 & E1).
  destruct (strip_keeps_inside _ r1 p1 Hne Hw) as (p2 & r2 & E2).
  assert (S : search timestamp_re (clean_transcript x) = true).
  { rewrite clean_transcript_unfold, E, E1, E2.
    now apply search_timestamp_inside. }
  apply (proj2 (remove_length _)) in S.
  rewrite (clean_transcript_unfold (clean_transcript x)).
  eapply Nat.le_lt_trans; [apply strip_length|].
  eapply Nat.le_lt_trans; [apply collapse_length | exact S].
Qed.

End NormalizerFacts.

(* ===================================================================== *)
(** * Properties of the ranking *)
(* ===================================================================== *)

Module RankingFacts.
Import PyStr Sentiment.

Lemma Qltb_lt x y : Qltb x y = true <-> (x < y)%Q.
Proof.
  unfold Qltb. rewrite negb_true_iff, <- not_true_iff_false, Qle_bool_iff.
  split; [apply Qnot_le_lt | apply Qlt_not_le].
Qed.

Lemma Qltb_ge x y : Qltb x y = false <-> (y <= x)%Q.
Proof.
  unfold Qltb. rewrite negb_false_iff. apply Qle_bool_iff.
Qed.

Lemma Qltb_compat_r x y z : (y == z)%Q -> Qltb x y = Qltb x z.
Proof.
  intros E. destruct (Qltb x z) eqn:H.
  - apply Qltb_lt. apply Qltb_lt in H. now rewrite E.
  - apply Qltb_ge. apply Qltb_ge in H. now rewrite E.
Qed.

Lemma Qltb_compat_l x y z : (x == y)%Q -> Qltb x z = Qltb y z.
Proof.
  intros E. destruct (Qltb y z) eqn:H.
  - apply Qltb_lt. apply Qltb_lt in H. now rewrite E.
  - apply Qltb_ge. apply Qltb_ge in H. now rewrite E.
Qed.

Lemma StronglySorted_app_inv {A} (R : A -> A -> Prop) l1 l2 :
  StronglySorted R (l1 ++ l2) -> StronglySorted R l1.
Proof.
  induction l1 as [|x l1 IH]; simpl; intros H; [constructor|].
  apply StronglySorted_inv in H as [H1 H2].
  constructor; [now apply IH|].
  apply List.Forall_app in H2. tauto.
Qed.

Lemma StronglySorted_snoc {A} (R : A -> A -> Prop) l x :
  StronglySorted R l -> Forall (fun y => R y x) l -> StronglySorted R (l ++ [x]).
Proof.
  induction 1 as [|y l Hs IH Hy]; simpl; intros HF.
  - repeat constructor.
  - apply List.Forall_cons_iff in HF as [Hyx HF].
    constructor; [now apply IH|].
    apply List.Forall_app. split; [exact Hy | now constructor].
Qed.

Lemma StronglySorted_rev {A} (R : A -> A -> Prop) l :
  StronglySorted R l -> StronglySorted (fun a b => R b a) (rev l).
Proof.
  induction 1 as [|x l Hs IH Hx]; simpl; [constructor|].
  apply StronglySorted_snoc; [exact IH|].
  apply List.Forall_forall. intros y Hy. apply in_rev in Hy.
  rewrite List.Forall_forall in Hx. now apply Hx.
Qed.

Lemma filter_rev_comm {A} (p : A -> bool) l :
  List.filter p (rev l) = rev (List.filter p l).
Proof.
  induction l as [|x l IH]; [reflexivity|].
  simpl. rewrite List.filter_app, IH. simpl.
  destruct (p x); simpl; [reflexivity | now rewrite app_nil_r].
Qed.

Section Sorting.
Context {A : Type} (key : A -> Q).

Lemma insert_by_In x l z : In z (insert_by key x l) <-> z = x \/ In z l.
Proof.
  induction l as [|y l IH]; simpl.
  - intuition congruence.
  - destruct (Qltb (key y) (key x)); simpl; rewrite ?IH; intuition congruence.
Qed.

Lemma sort_by_In l z : In z (sort_by key l) <-> In z l.
Proof.
  induction l as [|x l IH]; simpl; [tauto|].
  rewrite insert_by_In, IH. intuition congruence.
Qed.

Lemma insert_by_sorted x l :
  StronglySorted (ascending key) l -> StronglySorted (ascending key) (insert_by key x l).
Proof.
  induction 1 as [|y l Hs IH Hy]; simpl.
  - repeat constructor.
  - destruct (Qltb (key y) (key x)) eqn:E.
    + constructor; [exact IH|].
      apply List.Forall_forall. intros z Hz. apply insert_by_In in Hz as [->|Hz].
      * apply Qltb_lt in E. now apply Qlt_le_weak.
      * rewrite List.Forall_forall in Hy. now apply Hy.
    + apply Qltb_ge in E. constructor; [now constructor|].
      constructor; [exact E|].
      eapply List.Forall_impl; [|exact Hy]. intros z Hz.
      unfold ascending in *. now apply Qle_trans with (key y).
Qed.

Lemma sort_by_sorted l : StronglySorted (ascending key) (sort_by key l).
Proof.
  induction l as [|x l IH]; simpl; [constructor | now apply insert_by_sorted].
Qed.

Lemma insert_by_stable v x l :
  List.filter (tied key v) (insert_by key x l) = List.filter (tied key v) (x :: l).
Proof.
  induction l as [|y l IH]; [reflexivity|].
  cbn [insert_by]. destruct (Qltb (key y) (key x)) eqn:E; [|reflexivity].
  cbn [List.filter] in *. rewrite IH.
  destruct (tied key v x) eqn:Hx; [|reflexivity].
  destruct (tied key v y) eqn:Hy; [|reflexivity].
  exfalso. unfold tied in *. apply Qeq_bool_iff in Hx, Hy.
  apply Qltb_lt in E. rewrite Hx, Hy in E. now apply Qlt_irrefl in E.
Qed.

Lemma sort_by_stable v l :
  List.filter (tied key v) (sort_by key l) = List.filter (tied key v) l.
Proof.
  induction l as [|x l IH]; [reflexivity|].
  cbn [sort_by fold_right]. rewrite insert_by_stable.
  cbn [List.filter]. fold (sort_by key l). now rewrite IH.
Qed.

Lemma sorted_stable v l reverse :
  List.filter (tied key v) (sorted l key reverse) = List.filter (tied key v) l.
Proof.
  destruct reverse; unfold sorted.
  - now rewrite filter_rev_comm, sort_by_stable, filter_rev_comm, rev_involutive.
  - apply sort_by_stable.
Qed.

Lemma sorted_In l reverse z : In z (sorted l key reverse) <-> In z l.
Proof.
  destruct reverse; unfold sorted.
  - now rewrite <- in_rev, sort_by_In, <- in_rev.
  - apply sort_by_In.
Qed.

Lemma sorted_ascending l : StronglySorted (ascending key) (sorted l key false).
Proof. apply sort_by_sorted. Qed.

Lemma sorted_descending l : StronglySorted (descending key) (sorted l key true).
Proof.
  unfold sorted. apply (StronglySorted_rev (ascending key)). apply sort_by_sorted.
Qed.

End Sorting.

Lemma slice_to_firstn {A} (l : list A) (n : Z) :
  exists k, slice_to l n = firstn k l.
Proof. unfold slice_to. destruct (0 <=? n)%Z; eauto. Qed.

Lemma StronglySorted_firstn {A} (R : A -> A -> Prop) k l :
  StronglySorted R l -> StronglySorted R (firstn k l).
Proof.
  intros H. rewrite <- (firstn_skipn k l) in H.
  now apply StronglySorted_app_inv in H.
Qed.

Lemma StronglySorted_map {A B} (f : A -> B) (R : B -> B -> Prop) l :
  StronglySorted (fun a b => R (f a) (f b)) l -> StronglySorted R (List.map f l).
Proof.
  induction 1 as [|x l Hs IH Hx]; simpl; constructor; [exact IH|].
  apply List.Forall_map. exact Hx.
Qed.

Lemma Forall_firstn_of {A} (P : A -> Prop) k l :
  Forall P l -> Forall P (firstn k l).
Proof.
  intros H. rewrite <- (firstn_skipn k l) in H. apply List.Forall_app in H. tauto.
Qed.

Lemma filter_map_comm {A B} (f : A -> B) (p : B -> bool) l :
  List.filter p (List.map f l) = List.map f (List.filter (fun a => p (f a)) l).
Proof.
  induction l as [|x l IH]; [reflexivity|].
  simpl. destruct (p (f x)); simpl; now rewrite IH.
Qed.

Lemma filter_firstn_prefix {A} (p : A -> bool) k (l : list A) :
  List.filter p (firstn k l) `prefix_of` List.filter p l.
Proof.
  exists (List.filter p (skipn k l)).
  now rewrite <- List.filter_app, firstn_skipn.
Qed.

(** Filtering on a predicate that is constant on a class either keeps the
    whole class or none of it. *)
Lemma filter_filter_class {A} (p q : A -> bool) (b : bool) l :
  (forall a, In a l -> p a = true -> q a = b) ->
  List.filter p (List.filter q l) = if b then List.filter p l else [].
Proof.
  induction l as [|x l IH]; intros H; [now destruct b|].
  assert (Hl : forall a, In a l -> p a = true -> q a = b)
    by (intros a Ha; apply H; now right).
  specialize (IH Hl). simpl.
  destruct (p x) eqn:Hp.
  - rewrite (H x (or_introl eq_refl) Hp). destruct b; simpl; [|exact IH].
    now rewrite Hp, IH.
  - destruct (q x); simpl; rewrite ?Hp; exact IH.
Qed.

Section Ranking.
Variable polarity_scores : pystr -> polarity.

Lemma entry_analyze sentences :
  List.map as_quote (List.map (analyze polarity_scores) sentences)
  = List.map (quote_of polarity_scores) sentences.
Proof. rewrite List.map_map. reflexivity. Qed.

(** The ties of a truncated, sorted and thresholded list are an initial
    part of the ties of the list of all candidates. *)
Lemma ties_prefix (thr : Q -> bool) reverse k v sentences :
  (forall x y, (x == y)%Q -> thr x = thr y) ->
  List.filter (tied score v)
    (List.map as_quote
       (firstn k
          (sorted
             (List.filter (fun s => thr (a_compound s))
                (List.map (analyze polarity_scores) sentences))
             a_compound reverse)))
  `prefix_of`
  List.filter (tied score v) (List.map (quote_of polarity_scores) sentences).
Proof.
  intros Hthr. rewrite <- entry_analyze.
  set (W := List.map (analyze polarity_scores) sentences).
  rewrite !filter_map_comm.
  change (fun a => tied score v (as_quote a)) with (tied a_compound v).
  destruct (filter_firstn_prefix (tied a_compound v) k
              (sorted (List.filter (fun s => thr (a_compound s)) W)
                 a_compound reverse)) as [rest E].
  rewrite sorted_stable in E.
  rewrite (filter_filter_class _ _ (thr v)) in E.
  - destruct (thr v).
    + exists (List.map as_quote rest). now rewrite E, List.map_app.
    + symmetry in E. apply app_eq_nil in E as [-> _].
      exists (List.map as_quote (List.filter (tied a_compound v) W)). reflexivity.
  - intros a _ Ha. apply Hthr. unfold tied in Ha. now apply Qeq_bool_iff in Ha.
Qed.

Lemma rank_positive sentences top_n :
  let out := rank_sentences polarity_scores sentences top_n (py "positive") in
  Forall (fun q => (2 # 10 < score q)%Q) out
  /\ StronglySorted (descending score) out
  /\ forall v, List.filter (tied score v) out
        `prefix_of`
        List.filter (tied score v) (List.map (quote_of polarity_scores) sentences).
Proof.
  unfold rank_sentences. rewrite bool_decide_eq_true_2 by reflexivity.
  destruct (slice_to_firstn
    (sorted (List.filter (fun s => Qltb (2 # 10) (a_compound s))
               (List.map (analyze polarity_scores) sentences)) a_compound true)
    top_n) as [k ->].
  cbv zeta. repeat split.
  - apply List.Forall_map, Forall_firstn_of, List.Forall_forall.
    intros a Ha. apply sorted_In, filter_In in Ha as [_ Ha].
    now apply Qltb_lt in Ha.
  - apply StronglySorted_map, StronglySorted_firstn.
    apply (sorted_descending a_compound).
  - intros v. apply (ties_prefix (fun x => Qltb (2 # 10) x)).
    intros x y E. now apply Qltb_compat_r.
Qed.

Lemma rank_other sentences top_n sentiment_type :
  sentiment_type <> py "positive" ->
  let out := rank_sentences polarity_scores sentences top_n sentiment_type in
  Forall (fun q => (score q < - (2 # 10))%Q) out
  /\ StronglySorted (ascending score) out
  /\ forall v, List.filter (tied score v) out
        `prefix_of`
        List.filter (tied score v) (List.map (quote_of polarity_scores) sentences).
Proof.
  intros Hty. unfold rank_sentences. rewrite bool_decide_eq_false_2 by exact Hty.
  destruct (slice_to_firstn
    (sorted (List.filter (fun s => Qltb (a_compound s) (- (2 # 10)))
               (List.map (analyze polarity_scores) sentences)) a_compound false)
    top_n) as [k ->].
  cbv zeta. repeat split.
  - apply List.Forall_map, Forall_firstn_of, List.Forall_forall.
    intros a Ha. apply sorted_In, filter_In in Ha as [_ Ha].
    now apply Qltb_lt in Ha.
  - apply StronglySorted_map, StronglySorted_firstn.
    apply (sorted_ascending a_compound).
  - intros v. apply (ties_prefix (fun x => Qltb x (- (2 # 10)))).
    intros x y E. now apply Qltb_compat_l.
Qed.

Lemma rank_other_eq sentences top_n sentiment_type :
  sentiment_type <> py "positive" ->
  rank_sentences polarity_scores sentences top_n sentiment_type
  = rank_sentences polarity_scores sentences top_n (py "negative").
Proof.
  intros Hty. unfold rank_sentences.
  rewrite (bool_decide_eq_false_2 _ Hty).
  rewrite bool_decide_eq_false_2 by discriminate. reflexivity.
Qed.

End Ranking.

End RankingFacts.

(** ** Selection: what a slice of the ranking holds *)

Module RankingMore.
Import PyStr Sentiment RankingFacts.

Lemma In_slice_to {A} (x : A) l n : In x (slice_to l n) -> In x l.
Proof.
  destruct (slice_to_firstn l n) as [k ->]. intros H.
  rewrite <- (firstn_skipn k l). apply in_or_app. now left.
Qed.

Lemma slice_to_length {A} (l : list A) n :
  length (slice_to l n)
  = if (0 <=? n)%Z then Nat.min (Z.to_nat n) (length l)
    else length l - Z.to_nat (- n).
Proof.
  unfold slice_to. destruct (0 <=? n)%Z; rewrite length_firstn; lia.
Qed.

Lemma insert_by_perm {A} (key : A -> Q) x l :
  Permutation (insert_by key x l) (x :: l).
Proof.
  induction l as [|y l IH]; [reflexivity|]. cbn [insert_by].
  destruct (Qltb (key y) (key x)); [|reflexivity].
  rewrite IH. apply perm_swap.
Qed.

Lemma sort_by_perm {A} (key : A -> Q) l : Permutation (sort_by key l) l.
Proof.
  induction l as [|x l IH]; [reflexivity|]. cbn [sort_by fold_right].
  rewrite insert_by_perm. now apply Permutation_cons.
Qed.

Lemma sorted_perm {A} (key : A -> Q) l reverse :
  Permutation (sorted l key reverse) l.
Proof.
  unfold sorted. destruct reverse.
  - now rewrite <- Permutation_rev, sort_by_perm, <- Permutation_rev.
  - apply sort_by_perm.
Qed.

Lemma sorted_length {A} (key : A -> Q) l reverse :
  length (sorted l key reverse) = length l.
Proof. apply Permutation_length, sorted_perm. Qed.

Lemma StronglySorted_app_order {A} (R : A -> A -> Prop) l1 l2 x y :
  StronglySorted R (l1 ++ l2) -> In x l1 -> In y l2 -> R x y.
Proof.
  induction l1 as [|a l1 IH]; [intros _ []|]. cbn [app].
  intros H Hx Hy. apply StronglySorted_inv in H as [H1 H2].
  destruct Hx as [->|Hx]; [|now apply IH].
  rewrite List.Forall_forall in H2. apply H2, in_or_app. now right.
Qed.

Section Selection.
Variable polarity_scores : pystr -> polarity.

Lemma quotes_of_filter (thr : Q -> bool) sentences :
  List.map as_quote
    (List.filter (fun a => thr (a_compound a))
       (List.map (analyze polarity_scores) sentences))
  = List.map (quote_of polarity_scores)
      (List.filter (fun s => thr (compound (polarity_scores s))) sentences).
Proof.
  induction sentences as [|s l IH]; [reflexivity|].
  cbn [List.map List.filter].
  change (thr (a_compound (analyze polarity_scores s)))
    with (thr (compound (polarity_scores s))).
  destruct (thr (compound (polarity_scores s))); cbn [List.map];
    rewrite IH; reflexivity.
Qed.

(** A slice of the sorted, thresholded list, with what it leaves out. *)
Lemma slice_selection (thr : Q -> bool) reverse top_n sentences :
  let passing :=
    List.filter (fun s => thr (compound (polarity_scores s))) sentences in
  let ranked :=
    sorted
      (List.filter (fun a => thr (a_compound a))
         (List.map (analyze polarity_scores) sentences))
      a_compound reverse in
  let out := List.map as_quote (slice_to ranked top_n) in
  (exists rest,
      Permutation (out ++ rest) (List.map (quote_of polarity_scores) passing)
      /\ forall q q', In q out -> In q' rest ->
           if reverse then (score q' <= score q)%Q else (score q <= score q')%Q)
  /\ length out = length (slice_to passing top_n).
Proof.
  intros passing ranked out. split.
  - subst out. destruct (slice_to_firstn ranked top_n) as [k ->].
    exists (List.map as_quote (skipn k ranked)). split.
    + rewrite <- List.map_app, firstn_skipn. subst ranked passing.
      rewrite <- quotes_of_filter. apply Permutation_map, sorted_perm.
    + intros q q' Hq Hq'.
      apply in_map_iff in Hq as (a & <- & Ha).
      apply in_map_iff in Hq' as (a' & <- & Ha').
      assert (S : StronglySorted
                    (if reverse then descending a_compound else ascending a_compound)
                    (firstn k ranked ++ skipn k ranked)).
      { rewrite firstn_skipn. subst ranked. destruct reverse.
        - apply sorted_descending.
        - apply sorted_ascending. }
      assert (O := StronglySorted_app_order _ _ _ _ _ S Ha Ha').
      destruct reverse; exact O.
  - subst out. rewrite length_map, !slice_to_length. subst ranked passing.
    rewrite sorted_length, <- (length_map as_quote), quotes_of_filter, length_map.
    reflexivity.
Qed.

Lemma rank_sentences_from sentences top_n sentiment_type q :
  In q (rank_sentences polarity_scores sentences top_n sentiment_type) ->
  exists s, In s sentences /\ q = quote_of polarity_scores s.
Proof.
  unfold rank_sentences. intros H. apply in_map_iff in H as (a & <- & Ha).
  apply In_slice_to in Ha.
  assert (Hin : In a (List.map (analyze polarity_scores) sentences)).
  { destruct (bool_decide _); apply sorted_In, filter_In in Ha; tauto. }
  apply in_map_iff in Hin as (s & <- & Hs). now exists s.
Qed.

End Selection.

End RankingMore.

(* ===================================================================== *)
(** * The transcript line format *)
(* ===================================================================== *)

Module TranscriptFacts.
Import PyStr Transcript.

Lemma fold_left_app_concat {A} (f : A -> pystr) (l : list A) (acc : pystr) :
  fold_left (fun s x => s ++ f x) l acc = acc ++ concat (List.map f l).
Proof.
  revert acc. induction l as [|x l IH]; intros acc; simpl.
  - now rewrite app_nil_r.
  - now rewrite IH, app_assoc.
Qed.

Lemma format_transcript_concat data :
  format_transcript data = concat (List.map format_line data).
Proof. unfold format_transcript. now rewrite fold_left_app_concat. Qed.

(** *** Minutes and seconds *)

Lemma int_inject_Z (z : Z) : int (inject_Z z) = z.
Proof.
  unfold int. destruct (Qle_bool 0 (inject_Z z)).
  - apply Qfloor_Z.
  - apply Qceiling_Z.
Qed.

Lemma Qfloor_div_60 (t : Q) : Qfloor (t / inject_Z 60) = (Qfloor t / 60)%Z.
Proof.
  destruct t as [n d]. unfold Qfloor, Qdiv, Qmult, Qinv, inject_Z. cbn.
  rewrite Z.mul_1_r, Pos2Z.inj_mul. symmetry. apply Z.div_div; lia.
Qed.

Lemma Qfloor_minus_Z (t : Q) (z : Z) :
  Qfloor (t - inject_Z z) = (Qfloor t - z)%Z.
Proof.
  destruct t as [n d]. unfold Qfloor, Qminus, Qplus, Qopp, inject_Z. cbn.
  rewrite Z.mul_1_r, Pos.mul_1_r.
  replace (n + - z * Z.pos d)%Z with (n + (- z) * Z.pos d)%Z by lia.
  rewrite Z.div_add by lia. lia.
Qed.

Lemma minutes_floor (t : Q) : int (floordiv t 60) = (Qfloor t / 60)%Z.
Proof. unfold floordiv. now rewrite int_inject_Z, Qfloor_div_60. Qed.

Lemma pymod_60 (t : Q) :
  (pymod t 60 == t - inject_Z (60 * (Qfloor t / 60)))%Q.
Proof.
  unfold pymod, floordiv. rewrite Qfloor_div_60, inject_Z_mult. reflexivity.
Qed.

Lemma Qfloor_nonneg (t : Q) : (0 <= t)%Q -> (0 <= Qfloor t)%Z.
Proof. intros H. apply Qfloor_resp_le in H. exact H. Qed.

Lemma Qfloor_compat (x y : Q) : (x == y)%Q -> Qfloor x = Qfloor y.
Proof.
  intros E. apply Z.le_antisymm; apply Qfloor_resp_le; rewrite E; apply Qle_refl.
Qed.

Lemma seconds_floor (t : Q) : int (pymod t 60) = (Qfloor t mod 60)%Z.
Proof.
  assert (F : Qfloor (pymod t 60) = (Qfloor t mod 60)%Z).
  { rewrite (Qfloor_compat _ _ (pymod_60 t)), Qfloor_minus_Z.
    rewrite Z.mod_eq by lia. reflexivity. }
  unfold int. destruct (Qle_bool 0 (pymod t 60)) eqn:E; [exact F|].
  exfalso. apply not_true_iff_false in E. apply E. apply Qle_bool_iff.
  rewrite pymod_60.
  assert (H := Qfloor_le t).
  assert (M := Z.mod_pos_bound (Qfloor t) 60 ltac:(lia)).
  rewrite Z.mod_eq in M by lia.
  apply Qle_trans with (inject_Z (Qfloor t) - inject_Z (60 * (Qfloor t / 60)))%Q.
  - unfold Qminus. rewrite <- inject_Z_opp, <- inject_Z_plus.
    change 0%Q with (inject_Z 0). rewrite <- Zle_Qle. lia.
  - unfold Qminus. apply Qplus_le_l. exact H.
Qed.

(** *** Decimal digits *)

Lemma string_of_uint_digits (d : Decimal.uint) :
  all_digits (py (NilEmpty.string_of_uint d)) = true.
Proof. induction d; cbn; auto. Qed.

Lemma decimal_value_acc (d : Decimal.uint) (acc : nat) :
  fold_left (fun a c => 10 * a + (nat_of_ascii c - 48))
    (py (NilEmpty.string_of_uint d)) acc
  = Nat.of_uint_acc d acc.
Proof.
  revert acc. induction d; intros acc; cbn [NilEmpty.string_of_uint py
    list_ascii_of_string fold_left Nat.of_uint_acc];
    rewrite ?IHd, ?Nat.tail_mul_spec; try reflexivity;
    f_equal; cbn [nat_of_ascii]; vm_compute (nat_of_ascii _ - 48); lia.
Qed.

Lemma decimal_value_decimal (n : nat) : decimal_value (decimal n) = n.
Proof.
  unfold decimal_value, decimal. rewrite decimal_value_acc.
  apply DecimalNat.Unsigned.of_to.
Qed.

Lemma decimal_digits (n : nat) : all_digits (decimal n) = true.
Proof. apply string_of_uint_digits. Qed.

Lemma decimal_nonempty (n : nat) : 1 <= length (decimal n).
Proof.
  unfold decimal.
  assert (H : Nat.to_uint n <> Decimal.Nil).
  { rewrite <- (DecimalNat.Unsigned.of_to n) at 1.
    rewrite DecimalNat.Unsigned.to_of. apply DecimalFacts.unorm_nonnil. }
  destruct (Nat.to_uint n); try congruence; cbn; lia.
Qed.

Lemma decimal_two_digits (n : nat) : n < 100 -> length (decimal n) <= 2.
Proof.
  intros H.
  assert (A : forallb (fun k => length (decimal k) <=? 2) (seq 0 100) = true)
    by (vm_compute; reflexivity).
  rewrite forallb_forall in A. apply Nat.leb_le, A, in_seq. lia.
Qed.

(** *** Padding *)

Lemma format_02d_nonneg (z : Z) :
  (0 <= z)%Z -> format_02d z = zero_pad 2 (decimal (Z.to_nat z)).
Proof.
  intros H. unfold format_02d, zero_pad.
  rewrite (proj2 (Z.ltb_ge z 0) H), Zabs2Nat.abs_nat_nonneg by exact H.
  set (digits := decimal (Z.to_nat z)).
  assert (L := decimal_nonempty (Z.to_nat z)). fold digits in L.
  destruct (length digits <? 2) eqn:E.
  - apply Nat.ltb_lt in E. replace (2 - length digits) with 1 by lia. reflexivity.
  - apply Nat.ltb_ge in E. replace (2 - length digits) with 0 by lia. reflexivity.
Qed.

Lemma zero_pad_digits w s : all_digits s = true -> all_digits (zero_pad w s) = true.
Proof.
  intros H. unfold zero_pad, all_digits. rewrite forallb_app. apply andb_true_iff.
  split; [|exact H]. induction (w - length s); cbn; auto.
Qed.

Lemma zero_pad_value w s : decimal_value (zero_pad w s) = decimal_value s.
Proof.
  unfold zero_pad, decimal_value. rewrite fold_left_app. f_equal.
  induction (w - length s) as [|k IH]; [reflexivity|]. cbn [repeat fold_left].
  exact IH.
Qed.

Lemma zero_pad_length w s : length (zero_pad w s) = Nat.max w (length s).
Proof. unfold zero_pad. rewrite length_app, repeat_length. lia. Qed.

Lemma whole_seconds_bound t : whole_seconds t < 60.
Proof.
  unfold whole_seconds.
  assert (M := Z.mod_pos_bound (Qfloor t) 60 ltac:(lia)). lia.
Qed.

Lemma whole_minutes_bound t : (t < 6000)%Q -> whole_minutes t < 100.
Proof.
  intros H. unfold whole_minutes.
  assert (F : (Qfloor t < 6000)%Z).
  { rewrite Zlt_Qlt. eapply Qle_lt_trans; [apply Qfloor_le | exact H]. }
  assert (D : (Qfloor t / 60 < 100)%Z) by (apply Z.div_lt_upper_bound; lia).
  lia.
Qed.

(** The line of a segment whose offset is not negative. *)
Lemma format_line_nonneg item :
  (0 <= start_time item)%Q ->
  format_line item
  = py "[" ++ zero_pad 2 (decimal (whole_minutes (start_time item)))
    ++ py ":" ++ zero_pad 2 (decimal (whole_seconds (start_time item)))
    ++ py "] " ++ default (py "") (text item) ++ [newline].
Proof.
  intros H. unfold format_line. fold (start_time item).
  rewrite minutes_floor, seconds_floor.
  assert (F := Qfloor_nonneg _ H).
  assert (M := Z.mod_pos_bound (Qfloor (start_time item)) 60 ltac:(lia)).
  assert (D : (0 <= Qfloor (start_time item) / 60)%Z) by (apply Z.div_pos; lia).
  rewrite !format_02d_nonneg by lia.
  unfold whole_minutes, whole_seconds.
  rewrite <- !app_assoc. reflexivity.
Qed.

End TranscriptFacts.

(* ===================================================================== *)
(** * Properties of the extraction cascade *)
(* ===================================================================== *)

Module WebFacts.
Import PyStr Web.

Ltac run := unfold mbind, M_bind, mret, M_ret, raise, call; cbn beta iota.

Section Service.
Variable urlparse : pystr -> result ParseResult.
Variable backend : strategy -> pystr -> pydict.

Lemma has_text_usable r v log :
  status_of r = Some v -> has_text r log = (Ok (usable r), log).
Proof.
  unfold status_of, has_text, usable, getitem, status_of. intros ->. run.
  destruct (decide (v = VStr (py "success"))) as [->|Hne].
  - rewrite !bool_decide_eq_true_2 by reflexivity. reflexivity.
  - rewrite !bool_decide_eq_false_2 by congruence. reflexivity.
Qed.

Lemma usable_text r :
  usable r = true ->
  exists v, r !! "text" = Some v /\ truthy v = true
            /\ len v = mret (text_length r).
Proof.
  unfold usable, text_length, dict_get. intros [_ H]%andb_true_iff.
  destruct (r !! "text") as [v|] eqn:E; [|discriminate].
  exists v. cbn in *. destruct v; try discriminate; auto.
Qed.

Lemma passes_gate_gate r v log :
  status_of r = Some v -> passes_gate r log = (Ok (gate r), log).
Proof.
  intros Hv. unfold passes_gate, gate. run.
  rewrite (has_text_usable _ _ _ Hv).
  destruct (usable r) eqn:Hu; [|reflexivity].
  destruct (usable_text _ Hu) as (t & Ht & _ & Hlen).
  unfold getitem. rewrite Ht. run. rewrite Hlen. reflexivity.
Qed.

Lemma first_with_text_find rs log :
  Forall (fun r => is_Some (status_of r)) rs ->
  first_with_text rs log = (Ok (List.find usable rs), log).
Proof.
  induction 1 as [|r rs [v Hv] _ IH]; [reflexivity|].
  cbn [first_with_text List.find]. run.
  rewrite (has_text_usable _ _ _ Hv).
  destruct (usable r); [reflexivity | exact IH].
Qed.

Lemma extract_content_invalid url log :
  is_valid_url urlparse url = false ->
  extract_content urlparse backend url log = (Ok invalid_url_error, log).
Proof. intros H. unfold extract_content. rewrite H. reflexivity. Qed.

(** The whole cascade on a valid URL, for back ends whose results carry a
    status. *)
Lemma extract_content_valid url log :
  let t := backend Trafilatura url in
  let n := backend Newspaper url in
  let b := backend BeautifulSoup url in
  is_valid_url urlparse url = true ->
  is_Some (status_of t) -> is_Some (status_of n) -> is_Some (status_of b) ->
  extract_content urlparse backend url log =
    if gate t then (Ok t, log ++ [(Trafilatura, url)])
    else if gate n then (Ok n, log ++ [(Trafilatura, url); (Newspaper, url)])
    else
      (Ok (if usable b then b
           else if usable t then t
           else if usable n then n
           else all_methods_failed_error),
       log ++ [(Trafilatura, url); (Newspaper, url); (BeautifulSoup, url)]).
Proof.
  intros t n b Hvalid [vt Ht] [vn Hn] [vb Hb].
  unfold extract_content. rewrite Hvalid. cbn [negb]. run.
  fold t. rewrite (passes_gate_gate _ _ _ Ht).
  destruct (gate t); [reflexivity|].
  fold n. rewrite (passes_gate_gate _ _ _ Hn), <- app_assoc. cbn [app].
  destruct (gate n); [reflexivity|].
  fold b. rewrite (has_text_usable _ _ _ Hb), <- app_assoc. cbn [app].
  destruct (usable b) eqn:Hub; [reflexivity|].
  rewrite first_with_text_find by (repeat constructor; eauto).
  cbn [List.find]. rewrite Hub.
  destruct (usable t); [reflexivity|]. destruct (usable n); reflexivity.
Qed.

Lemma failed_not_usable r : failed r -> usable r = false.
Proof.
  intros (v & Hv & Hne). unfold usable. rewrite Hv.
  rewrite bool_decide_eq_false_2 by congruence. reflexivity.
Qed.

Lemma failed_has_status r : failed r -> is_Some (status_of r).
Proof. intros (v & Hv & _). eauto. Qed.

End Service.

(** With the back ends of the source every result carries a status, so
    the cascade never raises. *)
Lemma backends_status lib s url :
  status_of (backends lib s url) = Some (VStr (py "success"))
  \/ status_of (backends lib s url) = Some (VStr (py "error")).
Proof.
  unfold status_of. destruct s; cbn [backends].
  - unfold extract_with_trafilatura.
    destruct (fetch_url _ url) as [[d|]|e]; [|right; reflexivity | right; reflexivity].
    destruct (extract _ d) as [[r|]|e]; [|right; reflexivity | right; reflexivity].
    destruct (extract_metadata _ d) as [m|e]; [left | right]; reflexivity.
  - unfold extract_with_newspaper.
    destruct (newspaper lib url); [left | right]; reflexivity.
  - unfold extract_with_beautifulsoup.
    destruct (beautifulsoup lib url); [left | right]; reflexivity.
Qed.

Lemma extract_content_returns urlparse lib url log :
  exists d log', extract_content urlparse (backends lib) url log = (Ok d, log').
Proof.
  destruct (is_valid_url urlparse url) eqn:Hv.
  - assert (St : forall s, is_Some (status_of (backends lib s url)))
      by (intros s; destruct (backends_status lib s url) as [-> | ->]; eauto).
    rewrite (extract_content_valid urlparse (backends lib)) by auto.
    destruct (gate _); [eauto|]. destruct (gate _); eauto.
  - rewrite (extract_content_invalid urlparse (backends lib)) by exact Hv. eauto.
Qed.

End WebFacts.

(* ===================================================================== *)
(** * The cascade: validation, short circuit, fallback, failure *)
(* ===================================================================== *)

Module WebClaims.
Import PyStr Web WebFacts.

Example is_valid_url_tests :
  is_valid_url simple_urlparse (py "https://example.com") = true
  /\ is_valid_url simple_urlparse (py "http://example.com/path") = true
  /\ is_valid_url simple_urlparse (py "example.com") = false
  /\ is_valid_url simple_urlparse (py "not a url") = false.
Proof. vm_compute. auto. Qed.

(** [test_extract_content_fallback]: the first back end fails, the second
    passes the gate, the third is not called. *)
Example extract_content_fallback_test :
  let n := success_result "newspaper3k" (text_of_length 540) in
  extract_content simple_urlparse
    (fixed_backend (error_result "trafilatura") n (error_result "beautifulsoup"))
    (py "https://example.com") []
  = (Ok n, [(Trafilatura, py "https://example.com");
            (Newspaper, py "https://example.com")]).
Proof. vm_compute. reflexivity. Qed.

(** Claim C8: when [urlparse] finds no scheme or no host part in the input
    (or rejects it), [extract_content] returns the [Invalid URL format]
    error at once and calls no back end: the record of calls is unchanged. *)
Theorem invalid_url_no_fetch
    (urlparse : pystr -> result ParseResult)
    (backend : strategy -> pystr -> pydict) (url : pystr) log :
  match urlparse url with
  | Ok parsed => scheme parsed = [] \/ netloc parsed = []
  | Raised _ => True
  end ->
  extract_content urlparse backend url log = (Ok invalid_url_error, log).
Proof.
  intros H. apply extract_content_invalid. unfold is_valid_url.
  destruct (urlparse url) as [parsed|e]; [|reflexivity].
  destruct H as [-> | ->]; cbn.
  - reflexivity.
  - apply andb_false_r.
Qed.

Lemma invalid_url_no_fetch_witness :
  extract_content simple_urlparse
    (fixed_backend (success_result "trafilatura" (text_of_length 540)) ∅ ∅)
    (py "example.com") []
  = (Ok invalid_url_error, []).
Proof.
  apply (invalid_url_no_fetch simple_urlparse _ (py "example.com") []).
  vm_compute. left. reflexivity.
Defined.

(** Claim C2, as amended: on a valid URL, when the first back end
    (trafilatura) reports success with a text of more than 200 characters,
    [extract_content] returns that very result and the only call made is
    the one to trafilatura. *)
Theorem gate_short_circuit
    (urlparse : pystr -> result ParseResult)
    (backend : strategy -> pystr -> pydict) (url body : pystr) log :
  is_valid_url urlparse url = true ->
  status_of (backend Trafilatura url) = Some (VStr (py "success")) ->
  backend Trafilatura url !! "text" = Some (VStr body) ->
  200 < length body ->
  extract_content urlparse backend url log
  = (Ok (backend Trafilatura url), log ++ [(Trafilatura, url)]).
Proof.
  intros Hvalid Hst Htext Hlen.
  unfold extract_content. rewrite Hvalid. cbn [negb]. run.
  rewrite (passes_gate_gate _ _ _ Hst).
  assert (Hg : gate (backend Trafilatura url) = true).
  { unfold gate, usable, text_length, dict_get. rewrite Hst, Htext.
    change (default VNone (Some (VStr body))) with (VStr body).
    cbn [truthy].
    rewrite bool_decide_eq_true_2 by reflexivity.
    rewrite bool_decide_eq_false_2 by (intros ->; cbn in Hlen; lia).
    apply Nat.ltb_lt in Hlen. rewrite Hlen. reflexivity. }
  rewrite Hg. reflexivity.
Qed.

Lemma gate_short_circuit_witness :
  let t := success_result "trafilatura" (text_of_length 201) in
  extract_content simple_urlparse (fixed_backend t ∅ ∅) (py "https://example.com") []
  = (Ok t, [(Trafilatura, py "https://example.com")]).
Proof.
  apply (gate_short_circuit simple_urlparse
           (fixed_backend (success_result "trafilatura" (text_of_length 201)) ∅ ∅)
           (py "https://example.com") (text_of_length 201) []).
  - vm_compute. reflexivity.
  - vm_compute. reflexivity.
  - vm_compute. reflexivity.
  - vm_compute. lia.
Defined.

(** Claim C2, as stated, fails at exactly 200 characters: the gate is
    [len > 200], so the second back end is called, and here its result is
    the one returned. *)
Lemma exactly_200_is_below_the_gate :
  ~ (forall (urlparse : pystr -> result ParseResult)
            (backend : strategy -> pystr -> pydict) (url body : pystr),
        is_valid_url urlparse url = true ->
        status_of (backend Trafilatura url) = Some (VStr (py "success")) ->
        backend Trafilatura url !! "text" = Some (VStr body) ->
        200 <= length body ->
        extract_content urlparse backend url []
        = (Ok (backend Trafilatura url), [(Trafilatura, url)])).
Proof.
  intros H.
  specialize (H simple_urlparse
    (fixed_backend (success_result "trafilatura" (text_of_length 200))
                   (success_result "newspaper3k" (text_of_length 300))
                   (error_result "beautifulsoup"))
    (py "https://example.com") (text_of_length 200)).
  assert (E : snd (extract_content simple_urlparse
    (fixed_backend (success_result "trafilatura" (text_of_length 200))
                   (success_result "newspaper3k" (text_of_length 300))
                   (error_result "beautifulsoup"))
    (py "https://example.com") [])
    = [(Trafilatura, py "https://example.com"); (Newspaper, py "https://example.com")])
    by (vm_compute; reflexivity).
  rewrite H in E.
  - discriminate E.
  - vm_compute. reflexivity.
  - vm_compute. reflexivity.
  - vm_compute. reflexivity.
  - vm_compute. lia.
Qed.

(** Claim C7: on a valid URL, when all three back ends return a failed
    result, [extract_content] returns the one fixed error dictionary, which
    carries nothing from the three results, after exactly the three calls. *)
Theorem all_failed_uniform_error
    (urlparse : pystr -> result ParseResult)
    (backend : strategy -> pystr -> pydict) (url : pystr) log :
  is_valid_url urlparse url = true ->
  failed (backend Trafilatura url) ->
  failed (backend Newspaper url) ->
  failed (backend BeautifulSoup url) ->
  extract_content urlparse backend url log
  = (Ok all_methods_failed_error,
     log ++ [(Trafilatura, url); (Newspaper, url); (BeautifulSoup, url)]).
Proof.
  intros Hvalid Ht Hn Hb.
  rewrite extract_content_valid by auto using failed_has_status.
  unfold gate. rewrite !failed_not_usable by assumption. reflexivity.
Qed.

Lemma all_failed_uniform_error_witness :
  extract_content simple_urlparse
    (fixed_backend (error_result "trafilatura") (error_result "newspaper3k")
                   (error_result "beautifulsoup"))
    (py "https://example.com") []
  = (Ok all_methods_failed_error,
     [(Trafilatura, py "https://example.com");
      (Newspaper, py "https://example.com");
      (BeautifulSoup, py "https://example.com")]).
Proof.
  apply (all_failed_uniform_error simple_urlparse
           (fixed_backend (error_result "trafilatura") (error_result "newspaper3k")
                          (error_result "beautifulsoup"))
           (py "https://example.com") []).
  - vm_compute. reflexivity.
  - exists (VStr (py "error")). split; [vm_compute; reflexivity | discriminate].
  - exists (VStr (py "error")). split; [vm_compute; reflexivity | discriminate].
  - exists (VStr (py "error")). split; [vm_compute; reflexivity | discriminate].
Defined.

(** Claim C1, as amended: on a valid URL, when no result passes the
    200-character gate, [extract_content] returns the result of the tag
    scraper (BeautifulSoup) if that is a success with non-empty text, and
    otherwise the first of the trafilatura and newspaper results that is a
    success with non-empty text, whatever its length. *)
Theorem fallback_order
    (urlparse : pystr -> result ParseResult)
    (backend : strategy -> pystr -> pydict) (url : pystr) log (r : pydict) :
  let t := backend Trafilatura url in
  let n := backend Newspaper url in
  let b := backend BeautifulSoup url in
  is_valid_url urlparse url = true ->
  is_Some (status_of t) -> is_Some (status_of n) -> is_Some (status_of b) ->
  gate t = false -> gate n = false -> gate b = false ->
  List.find usable [b; t; n] = Some r ->
  extract_content urlparse backend url log
  = (Ok r, log ++ [(Trafilatura, url); (Newspaper, url); (BeautifulSoup, url)]).
Proof.
  intros t n b Hvalid Ht Hn Hb Hgt Hgn _ Hfind.
  rewrite extract_content_valid by assumption.
  fold t n b. rewrite Hgt, Hgn. cbn [List.find] in Hfind.
  destruct (usable b); [congruence|].
  destruct (usable t); [congruence|].
  destruct (usable n); [congruence | discriminate].
Qed.

Lemma fallback_order_witness :
  let t := success_result "trafilatura" (text_of_length 50) in
  extract_content simple_urlparse
    (fixed_backend t (error_result "newspaper3k") (error_result "beautifulsoup"))
    (py "https://example.com") []
  = (Ok t, [(Trafilatura, py "https://example.com");
            (Newspaper, py "https://example.com");
            (BeautifulSoup, py "https://example.com")]).
Proof.
  apply (fallback_order simple_urlparse
           (fixed_backend (success_result "trafilatura" (text_of_length 50))
                          (error_result "newspaper3k") (error_result "beautifulsoup"))
           (py "https://example.com") []
           (success_result "trafilatura" (text_of_length 50))).
  - vm_compute. reflexivity.
  - vm_compute. eexists. reflexivity.
  - vm_compute. eexists. reflexivity.
  - vm_compute. eexists. reflexivity.
  - vm_compute. reflexivity.
  - vm_compute. reflexivity.
  - vm_compute. reflexivity.
  - vm_compute. reflexivity.
Defined.

(** Claim C1, as stated, fails: with two short successes, from trafilatura
    and from BeautifulSoup, the first in priority order is trafilatura's,
    but the result returned is BeautifulSoup's. *)
Lemma fallback_prefers_scraper :
  ~ (forall (urlparse : pystr -> result ParseResult)
            (backend : strategy -> pystr -> pydict) (url : pystr) (r : pydict),
        let t := backend Trafilatura url in
        let n := backend Newspaper url in
        let b := backend BeautifulSoup url in
        is_valid_url urlparse url = true ->
        is_Some (status_of t) -> is_Some (status_of n) -> is_Some (status_of b) ->
        gate t = false -> gate n = false -> gate b = false ->
        List.find usable [t; n; b] = Some r ->
        fst (extract_content urlparse backend url []) = Ok r).
Proof.
  intros H.
  specialize (H simple_urlparse
    (fixed_backend (success_result "trafilatura" (text_of_length 50))
                   (error_result "newspaper3k")
                   (success_result "beautifulsoup" (text_of_length 60)))
    (py "https://example.com")
    (success_result "trafilatura" (text_of_length 50))).
  cbv zeta in H.
  assert (E : fst (extract_content simple_urlparse
    (fixed_backend (success_result "trafilatura" (text_of_length 50))
                   (error_result "newspaper3k")
                   (success_result "beautifulsoup" (text_of_length 60)))
    (py "https://example.com") [])
    = Ok (success_result "beautifulsoup" (text_of_length 60)))
    by (vm_compute; reflexivity).
  rewrite H in E.
  - apply (f_equal (fun x : result pydict =>
                      match x with Ok d => d !! "method" | Raised _ => None end)) in E.
    vm_compute in E. discriminate E.
  - vm_compute. reflexivity.
  - vm_compute. eexists. reflexivity.
  - vm_compute. eexists. reflexivity.
  - vm_compute. eexists. reflexivity.
  - vm_compute. reflexivity.
  - vm_compute. reflexivity.
  - vm_compute. reflexivity.
  - vm_compute. reflexivity.
Qed.

End WebClaims.

(* ===================================================================== *)
(** * The normalizer: markers, whitespace, idempotence *)
(* ===================================================================== *)

Module NormalizerClaims.
Import PyStr Re Sentiment ReFacts NormalizerFacts.

(** Claim C4: [clean_transcript] removes every timestamp marker (whatever
    stands to its left and right is treated independently), turns every
    maximal run of whitespace into one space, leaves text without
    whitespace as it is, and trims: its result has no whitespace at either
    end, and no whitespace inside other than single spaces.  The transcript
    of three lines given as example normalizes to the sentence expected. *)
Theorem clean_transcript_spec (t p marker q a run b w : pystr) :
  is_timestamp marker ->
  rstrip a = a -> lstrip b = b -> run <> [] -> forallb isspace run = true ->
  forallb (fun c => negb (isspace c)) w = true ->
  clean_transcript t
  = strip (sub whitespace_re (py " ") (sub timestamp_re (py "") t))
  /\ sub timestamp_re (py "") (p ++ marker ++ q)
     = sub timestamp_re (py "") p ++ sub timestamp_re (py "") q
  /\ sub whitespace_re (py " ") (a ++ run ++ b)
     = sub whitespace_re (py " ") a ++ space :: sub whitespace_re (py " ") b
  /\ sub whitespace_re (py " ") w = w
  /\ single_spaced (clean_transcript t) = true
  /\ lstrip (clean_transcript t) = clean_transcript t
  /\ rstrip (clean_transcript t) = clean_transcript t
  /\ clean_transcript sample_formatted = py "Hello world This is a test Goodbye".
Proof.
  intros Hm Ha Hb Hne Hrun Hw.
  destruct (clean_transcript_normal t) as (N1 & N2 & N3).
  split; [apply clean_transcript_unfold|].
  split; [now apply remove_marker|].
  split; [now apply collapse_between|].
  split; [now apply collapse_fixed, no_space_single_spaced|].
  split; [exact N1|]. split; [exact N2|]. split; [exact N3|].
  vm_compute. reflexivity.
Qed.

Lemma clean_transcript_spec_witness :
  sub timestamp_re (py "") (py "Hello " ++ py "[01:15]" ++ py " world")
  = sub timestamp_re (py "") (py "Hello ") ++ sub timestamp_re (py "") (py " world")
  /\ sub whitespace_re (py " ") (py "Hello" ++ [space; newline; space] ++ py "world")
     = sub whitespace_re (py " ") (py "Hello") ++ space :: sub whitespace_re (py " ") (py "world").
Proof.
  assert (Hm : is_timestamp (py "[01:15]")).
  { exists (py "01"), (py "15"). repeat split; try discriminate; reflexivity. }
  destruct (clean_transcript_spec sample_formatted (py "Hello ") (py "[01:15]")
              (py " world") (py "Hello") [space; newline; space] (py "world")
              (py "Goodbye") Hm)
    as (_ & H1 & H2 & _).
  - vm_compute. reflexivity.
  - vm_compute. reflexivity.
  - discriminate.
  - vm_compute. reflexivity.
  - vm_compute. reflexivity.
  - split; [exact H1 | exact H2].
Defined.

(** Claim C3, as amended: [clean_transcript] is idempotent on every input
    from which the removal of the markers leaves a text without marker, and
    on no other input. *)
Theorem clean_transcript_idempotent (x : pystr) :
  search timestamp_re (sub timestamp_re (py "") x) = false <->
  clean_transcript (clean_transcript x) = clean_transcript x.
Proof.
  split.
  - intros H. rewrite (clean_transcript_unfold (clean_transcript x)).
    rewrite remove_no_match.
    + rewrite clean_transcript_unfold. apply whitespace_idempotent.
    + rewrite clean_transcript_unfold.
      now apply no_timestamp_strip, no_timestamp_collapse.
  - intros H.
    destruct (search timestamp_re (sub timestamp_re (py "") x)) eqn:E;
      [|reflexivity].
    apply leftover_marker_shrinks in E. rewrite H in E. lia.
Qed.

Lemma clean_transcript_idempotent_witness :
  clean_transcript (clean_transcript sample_formatted)
  = clean_transcript sample_formatted.
Proof.
  apply (proj1 (clean_transcript_idempotent sample_formatted)).
  vm_compute. reflexivity.
Defined.

(** Claim C3, as stated, fails: a marker wrapped around another one is put
    together by the first pass and removed by the second. *)
Lemma clean_transcript_not_idempotent :
  ~ (forall x : pystr,
       clean_transcript (clean_transcript x) = clean_transcript x).
Proof.
  intros H. specialize (H (py "[0[0:0]:0]")).
  vm_compute in H. discriminate H.
Qed.

Example nested_marker :
  clean_transcript (py "[0[0:0]:0]") = py "[0:0]"
  /\ clean_transcript (py "[0:0]") = py "".
Proof. vm_compute. split; reflexivity. Qed.

End NormalizerClaims.

(* ===================================================================== *)
(** * Segmentation and ranking *)
(* ===================================================================== *)

Module SentimentClaims.
Import PyStr Sentiment RankingFacts RankingMore.

(** Claim C5: every sentence returned by [split_into_sentences] has a
    trimmed length strictly between 20 and 200 characters. *)
Theorem sentence_length_band (text : pystr) :
  Forall (fun s => 20 < length (strip s) < 200) (split_into_sentences text).
Proof.
  unfold split_into_sentences. apply List.Forall_forall. intros s Hs.
  apply filter_In in Hs as [_ Hs].
  apply andb_true_iff in Hs as [H1 H2].
  apply Nat.ltb_lt in H1, H2. split; assumption.
Qed.

Example sample_review_sentences :
  split_into_sentences (clean_transcript sample_review)
  = [py "The opening was wonderful and bright.";
     py "The middle part was awful to sit through.";
     py "The hall opens at nine in the morning."].
Proof. vm_compute. reflexivity. Qed.

Lemma get_top_quotes_rank polarity_scores transcript top_n sentiment_type :
  get_top_quotes polarity_scores transcript top_n sentiment_type
  = rank_sentences polarity_scores
      (split_into_sentences (clean_transcript transcript)) top_n sentiment_type.
Proof. reflexivity. Qed.

(** Claim C6: [get_top_quotes] ranks the sentences of the segmenter, and for
    every list of candidate sentences and every [top_n], the positive
    ranking has all scores above 0.2 and in non-increasing order, the
    negative ranking has all scores below -0.2 and in non-decreasing order,
    and in both the entries that tie on a score come in the order of the
    candidates: they are an initial part of the candidates with that
    score. *)
Theorem ranking_order_and_ties
    (polarity_scores : pystr -> polarity) (sentences : list pystr) (top_n : Z) :
  let candidates := List.map (quote_of polarity_scores) sentences in
  let positive := rank_sentences polarity_scores sentences top_n (py "positive") in
  let negative := rank_sentences polarity_scores sentences top_n (py "negative") in
  (forall transcript sentiment_type,
     get_top_quotes polarity_scores transcript top_n sentiment_type
     = rank_sentences polarity_scores
         (split_into_sentences (clean_transcript transcript))
         top_n sentiment_type)
  /\
  (Forall (fun q => (2 # 10 < score q)%Q) positive
   /\ StronglySorted (descending score) positive
   /\ forall v, List.filter (tied score v) positive
         `prefix_of` List.filter (tied score v) candidates)
  /\
  (Forall (fun q => (score q < - (2 # 10))%Q) negative
   /\ StronglySorted (ascending score) negative
   /\ forall v, List.filter (tied score v) negative
         `prefix_of` List.filter (tied score v) candidates).
Proof.
  split; [reflexivity|]. split.
  - apply rank_positive.
  - apply rank_other. discriminate.
Qed.

Example ranking_example :
  get_top_quotes keyword_scores sample_review 5 (py "positive")
  = [{| quote := dquote :: py "The opening was wonderful and bright." ++ [dquote];
        score := 6 # 10 |}]
  /\ get_top_quotes keyword_scores sample_review 5 (py "negative")
  = [{| quote := dquote :: py "The middle part was awful to sit through." ++ [dquote];
        score := - (6 # 10) |}].
Proof. vm_compute. split; reflexivity. Qed.

(** Claim C10: with any [sentiment_type] other than the string [positive],
    [get_top_quotes] returns what it returns for [negative]: the scores are
    all below -0.2 and in non-decreasing order.  The result is not empty
    for want of a known type: it holds the sentences of the segmenter that
    score below -0.2, from the lowest score up, as many as the slice
    [[:top_n]] takes of them; what is left out scores no lower than what is
    returned, and when there is such a sentence and [top_n] is positive
    the result is not empty. *)
Theorem other_sentiment_type_ranks_negative
    (polarity_scores : pystr -> polarity) (transcript : pystr) (top_n : Z)
    (sentiment_type : pystr) :
  sentiment_type <> py "positive" ->
  let sentences := split_into_sentences (clean_transcript transcript) in
  let below :=
    List.filter (fun s => Qltb (compound (polarity_scores s)) (- (2 # 10)))
      sentences in
  let out := get_top_quotes polarity_scores transcript top_n sentiment_type in
  out = get_top_quotes polarity_scores transcript top_n (py "negative")
  /\ Forall (fun q => (score q < - (2 # 10))%Q) out
  /\ StronglySorted (ascending score) out
  /\ (exists rest,
        Permutation (out ++ rest) (List.map (quote_of polarity_scores) below)
        /\ forall q q', In q out -> In q' rest -> (score q <= score q')%Q)
  /\ length out
     = (if (0 <=? top_n)%Z then Nat.min (Z.to_nat top_n) (length below)
        else length below - Z.to_nat (- top_n))
  /\ ((0 < top_n)%Z -> below <> [] -> out <> []).
Proof.
  intros Hty sentences below out.
  assert (E : out = get_top_quotes polarity_scores transcript top_n (py "negative")).
  { subst out. rewrite !get_top_quotes_rank. now apply rank_other_eq. }
  destruct (rank_other polarity_scores sentences top_n sentiment_type Hty)
    as (H1 & H2 & _).
  destruct (slice_selection polarity_scores (fun x => Qltb x (- (2 # 10))) false
              top_n sentences) as [S1 S2].
  cbv zeta in S1, S2. rewrite slice_to_length in S2. fold below in S1, S2.
  assert (L : length out
     = (if (0 <=? top_n)%Z then Nat.min (Z.to_nat top_n) (length below)
        else length below - Z.to_nat (- top_n))).
  { rewrite E. exact S2. }
  split; [exact E|]. split; [exact H1|]. split; [exact H2|].
  split; [rewrite E; exact S1|]. split; [exact L|].
  intros Hn Hb Ho. rewrite Ho in L. cbn [length] in L.
  destruct below as [|s0 rest0]; [congruence|].
  rewrite (proj2 (Z.leb_le 0 top_n)) in L by lia. cbn [length] in L. lia.
Qed.

Lemma other_sentiment_type_ranks_negative_witness :
  let sentences := split_into_sentences (clean_transcript sample_review) in
  let below :=
    List.filter (fun s => Qltb (compound (keyword_scores s)) (- (2 # 10)))
      sentences in
  let out := get_top_quotes keyword_scores sample_review 5 (py "neutral") in
  out = get_top_quotes keyword_scores sample_review 5 (py "negative")
  /\ Forall (fun q => (score q < - (2 # 10))%Q) out
  /\ StronglySorted (ascending score) out
  /\ (exists rest,
        Permutation (out ++ rest) (List.map (quote_of keyword_scores) below)
        /\ forall q q', In q out -> In q' rest -> (score q <= score q')%Q)
  /\ length out
     = (if (0 <=? 5)%Z then Nat.min (Z.to_nat 5) (length below)
        else length below - Z.to_nat (- 5))
  /\ ((0 < 5)%Z -> below <> [] -> out <> []).
Proof.
  apply (other_sentiment_type_ranks_negative keyword_scores sample_review 5
           (py "neutral")).
  vm_compute. discriminate.
Defined.

Example neutral_is_not_empty :
  get_top_quotes keyword_scores sample_review 5 (py "neutral")
  = [{| quote := dquote :: py "The middle part was awful to sit through." ++ [dquote];
        score := - (6 # 10) |}]
  /\ get_top_quotes keyword_scores sample_review 5 (py "Positive")
     = get_top_quotes keyword_scores sample_review 5 (py "neutral")
  /\ get_top_quotes keyword_scores sample_review 5 (py "")
     = get_top_quotes keyword_scores sample_review 5 (py "neutral").
Proof. vm_compute. repeat split; reflexivity. Qed.

End SentimentClaims.

(* ===================================================================== *)
(** * The lines of a formatted transcript *)
(* ===================================================================== *)

Module TranscriptClaims.
Import PyStr Transcript TranscriptFacts.

(** [test_format_transcript] of [tests/test_transcript_service.py]. *)
Example format_transcript_test :
  format_transcript sample_transcript
  = py "[00:00] Hello world" ++ [newline]
    ++ py "[00:05] This is a test" ++ [newline]
    ++ py "[00:10] Goodbye" ++ [newline].
Proof. vm_compute. reflexivity. Qed.

(** Claim C9: for segments whose start offsets are not negative,
    [format_transcript] is the concatenation, in order, of one line per
    segment, each of the form [[MM:SS] text] followed by a newline, where
    [MM] and [SS] are the whole minutes and the remaining whole seconds of
    the offset in decimal, padded with zeros to two digits.  [SS] always has
    exactly two digits; [MM] has exactly two below 100 minutes and is never
    shorter.  The bracketed part is a marker of the kind [clean_transcript]
    removes. *)
Theorem format_transcript_lines (transcript_data : list segment) :
  Forall (fun item => (0 <= start_time item)%Q) transcript_data ->
  format_transcript transcript_data
  = concat (List.map
      (fun item =>
         py "[" ++ zero_pad 2 (decimal (whole_minutes (start_time item)))
         ++ py ":" ++ zero_pad 2 (decimal (whole_seconds (start_time item)))
         ++ py "] " ++ default (py "") (text item) ++ [newline])
      transcript_data)
  /\ Forall
       (fun item =>
          let mm := zero_pad 2 (decimal (whole_minutes (start_time item))) in
          let ss := zero_pad 2 (decimal (whole_seconds (start_time item))) in
          Sentiment.is_timestamp (py "[" ++ mm ++ py ":" ++ ss ++ py "]")
          /\ all_digits mm = true /\ all_digits ss = true
          /\ decimal_value mm = whole_minutes (start_time item)
          /\ decimal_value ss = whole_seconds (start_time item)
          /\ whole_seconds (start_time item) < 60
          /\ length ss = 2
          /\ 2 <= length mm
          /\ ((start_time item < 6000)%Q -> length mm = 2))
       transcript_data.
Proof.
  intros Hpos. split.
  - rewrite format_transcript_concat. f_equal.
    induction Hpos as [|item rest Hitem _ IH]; [reflexivity|].
    cbn [List.map]. now rewrite IH, format_line_nonneg.
  - apply List.Forall_forall. intros item _. cbv zeta.
    assert (S60 := whole_seconds_bound (start_time item)).
    assert (LS := decimal_two_digits (whole_seconds (start_time item)) ltac:(lia)).
    assert (NS := decimal_nonempty (whole_seconds (start_time item))).
    assert (LM := zero_pad_length 2 (decimal (whole_minutes (start_time item)))).
    assert (LS2 := zero_pad_length 2 (decimal (whole_seconds (start_time item)))).
    split.
    { eexists _, _. split; [reflexivity|].
      split; [intros E; rewrite E in LM; cbn in LM; lia|].
      split; [intros E; rewrite E in LS2; cbn in LS2; lia|].
      split; apply zero_pad_digits, decimal_digits. }
    repeat split.
    + apply zero_pad_digits, decimal_digits.
    + apply zero_pad_digits, decimal_digits.
    + now rewrite zero_pad_value, decimal_value_decimal.
    + now rewrite zero_pad_value, decimal_value_decimal.
    + exact S60.
    + rewrite zero_pad_length. lia.
    + rewrite zero_pad_length. lia.
    + intros Hlt. apply whole_minutes_bound in Hlt.
      apply decimal_two_digits in Hlt. rewrite zero_pad_length. lia.
Qed.

Lemma format_transcript_lines_witness :
  format_transcript sample_transcript
  = concat (List.map
      (fun item =>
         py "[" ++ zero_pad 2 (decimal (whole_minutes (start_time item)))
         ++ py ":" ++ zero_pad 2 (decimal (whole_seconds (start_time item)))
         ++ py "] " ++ default (py "") (text item) ++ [newline])
      sample_transcript).
Proof.
  apply (format_transcript_lines sample_transcript).
  repeat constructor; vm_compute; discriminate.
Defined.

(** What the formatter writes, the normalizer reads. *)
Example format_then_clean :
  Sentiment.clean_transcript (format_transcript sample_transcript)
  = py "Hello world This is a test Goodbye".
Proof. vm_compute. reflexivity. Qed.

(** From 100 minutes on the minutes take more than two digits. *)
Example format_transcript_long_video :
  format_transcript [ {| text := Some (py "late"); start := Some (6000 # 1)%Q |} ]
  = py "[100:00] late" ++ [newline].
Proof. vm_compute. reflexivity. Qed.

End TranscriptClaims.

(* ===================================================================== *)
(** * Further properties of segmentation and quoting *)
(* ===================================================================== *)

Module SegmenterFacts.
Import PyStr Re Sentiment TextSpec ReFacts NormalizerFacts.

Lemma part_of_refl s : part_of s s.
Proof. exists [], []. now rewrite app_nil_r. Qed.

Lemma part_of_nil s : part_of [] s.
Proof. exists [], s. reflexivity. Qed.

Lemma part_of_trans p q s : part_of p q -> part_of q s -> part_of p s.
Proof.
  intros (l1 & r1 & ->) (l2 & r2 & ->). exists (l2 ++ l1), (r1 ++ r2).
  now rewrite <- !app_assoc.
Qed.

Lemma part_of_cons p c s : part_of p s -> part_of p (c :: s).
Proof. intros (l & r & ->). now exists (c :: l), r. Qed.

Lemma part_of_skipn p n s : part_of p (skipn n s) -> part_of p s.
Proof.
  intros (l & r & E). exists (firstn n s ++ l), r.
  now rewrite <- app_assoc, <- E, firstn_skipn.
Qed.

Lemma part_of_strip s : part_of (strip s) s.
Proof. destruct (strip_inside s) as (l & r & E). now exists l, r. Qed.

Lemma pieces_of_all pieces s :
  pieces_of pieces s -> Forall (fun p => part_of p s) pieces.
Proof.
  destruct pieces as [|p0 ps]; [intros []|]. intros [[rest ->] H].
  constructor; [|exact H]. exists [], rest. reflexivity.
Qed.

Lemma pieces_of_single s : pieces_of [[]] s.
Proof. split; [now exists s | constructor]. Qed.

Lemma pieces_of_cons_first c pieces s :
  pieces_of pieces s -> pieces_of (cons_first c pieces) (c :: s).
Proof.
  destruct pieces as [|p0 ps]; [intros []|]. intros [[rest ->] H]. split.
  - now exists rest.
  - eapply List.Forall_impl; [|exact H]. intros p. apply part_of_cons.
Qed.

Lemma pieces_of_nil_cons pieces s n :
  pieces_of pieces (skipn n s) -> pieces_of ([] :: pieces) s.
Proof.
  intros H. split; [now exists s|].
  eapply List.Forall_impl; [|exact (pieces_of_all _ _ H)].
  intros p. apply part_of_skipn.
Qed.

(** Whatever the pattern, the pieces between its matches are parts of the
    text. *)
Lemma scan_pieces r a : forall n b, pieces_of (scan r n b a) (skipn n a).
Proof.
  induction a as [|c rest IH]; intros n b.
  - rewrite skipn_nil. destruct n; [|apply pieces_of_single].
    rewrite scan_0.
    destruct (match_here r false b []) as [[|m]|];
      [| apply (pieces_of_nil_cons _ _ 0), pieces_of_single
       | apply pieces_of_single].
    apply (pieces_of_nil_cons _ _ 0). cbn [skipn].
    destruct (match_here r true b []) as [k|]; [|apply pieces_of_single].
    apply (pieces_of_nil_cons _ _ 0). destruct k; apply pieces_of_single.
  - destruct n as [|n]; [|rewrite scan_S; apply IH]. cbn [skipn].
    rewrite scan_0.
    destruct (match_here r false b (c :: rest)) as [[|m]|].
    + apply (pieces_of_nil_cons _ _ 0). cbn [skipn].
      destruct (match_here r true b (c :: rest)) as [k|].
      * destruct k as [|m].
        -- apply (pieces_of_nil_cons _ _ 0), pieces_of_single.
        -- apply (pieces_of_nil_cons _ _ (S m)). cbn [skipn]. apply IH.
      * apply pieces_of_cons_first. apply (IH 0).
    + apply (pieces_of_nil_cons _ _ (S m)). cbn [skipn]. apply IH.
    + apply pieces_of_cons_first. apply (IH 0).
Qed.

Lemma split_parts r s : Forall (fun p => part_of p s) (split r s).
Proof. apply pieces_of_all. exact (scan_pieces r s 0 []). Qed.

(** Each string added to [sentences] is a stripped part of the text. *)
Lemma split_long_parts raw s :
  In s (split_long raw) -> exists u, s = strip u /\ part_of u raw.
Proof.
  unfold split_long. destruct (100 <? length (strip raw)).
  - intros H. apply in_map_iff in H as (u & <- & Hu).
    apply filter_In in Hu as [Hu _]. exists u. split; [reflexivity|].
    exact (proj1 (List.Forall_forall _ _) (split_parts clause_re raw) u Hu).
  - intros [<- | []]. exists raw. split; [reflexivity | apply part_of_refl].
Qed.

Lemma sentence_stripped_part text s :
  In s (split_into_sentences text) ->
  strip s = s /\ 20 < length s < 200 /\ part_of s text.
Proof.
  unfold split_into_sentences. intros H. apply filter_In in H as [H L].
  apply in_flat_map in H as (raw & Hraw & Hs).
  destruct (split_long_parts _ _ Hs) as (u & -> & Hu).
  rewrite strip_idem in *.
  apply andb_true_iff in L as [L1 L2]. apply Nat.ltb_lt in L1, L2.
  repeat split; try assumption.
  apply part_of_trans with u; [apply part_of_strip|].
  apply part_of_trans with raw; [exact Hu|].
  exact (proj1 (List.Forall_forall _ _) (split_parts sentence_end_re text) raw Hraw).
Qed.

(** ** Quotes *)

Lemma replace_double_space_cons c1 c2 rest :
  replace_double_space (c1 :: c2 :: rest)
  = if Ascii.eqb c1 space && Ascii.eqb c2 space
    then space :: replace_double_space rest
    else c1 :: replace_double_space (c2 :: rest).
Proof. reflexivity. Qed.

Lemma replace_double_space_length s : length (replace_double_space s) <= length s.
Proof.
  remember (length s) as k eqn:Hk. revert s Hk.
  induction k as [k IH] using lt_wf_ind. intros s Hk.
  destruct s as [|c1 [|c2 rest]]; subst k; [cbn; lia | cbn; lia |].
  rewrite replace_double_space_cons.
  destruct (Ascii.eqb c1 space && Ascii.eqb c2 space).
  - specialize (IH (length rest) ltac:(cbn; lia) rest eq_refl).
    cbn [length]. lia.
  - specialize (IH (length (c2 :: rest)) ltac:(cbn; lia) (c2 :: rest) eq_refl).
    change (length (c1 :: replace_double_space (c2 :: rest)))
      with (S (length (replace_double_space (c2 :: rest)))).
    cbn [length] in *. lia.
Qed.

Lemma replace_double_space_fixed s :
  single_spaced s = true -> replace_double_space s = s.
Proof.
  induction s as [|c1 s IH]; [reflexivity|]. intros H.
  assert (Hs : single_spaced s = true)
    by (cbn [single_spaced] in H; apply andb_true_iff in H; tauto).
  destruct s as [|c2 rest]; [reflexivity|].
  rewrite replace_double_space_cons.
  destruct (Ascii.eqb c1 space && Ascii.eqb c2 space) eqn:E.
  - exfalso. apply andb_true_iff in E as [E1 E2].
    apply Ascii.eqb_eq in E1, E2. subst c1 c2.
    cbn in H. discriminate H.
  - now rewrite IH.
Qed.

Lemma single_spaced_part p s :
  part_of p s -> single_spaced s = true -> single_spaced p = true.
Proof.
  intros (l & r & ->) H. now apply single_spaced_suffix, single_spaced_prefix in H.
Qed.

Lemma format_quote_plain s :
  single_spaced s = true -> strip s = s -> length s <= 200 ->
  format_quote s = dquote :: s ++ [dquote].
Proof.
  intros Hs Ht Hl. unfold format_quote.
  rewrite (proj2 (Nat.ltb_ge 200 (length s))) by lia.
  now rewrite (replace_double_space_fixed _ Hs), Ht.
Qed.

End SegmenterFacts.

Module NormalizerMore.
Import PyStr Re Sentiment TextSpec ReFacts NormalizerFacts RankingFacts.

Lemma filter_nonspace_space c l :
  isspace c = true -> List.filter nonspace (c :: l) = List.filter nonspace l.
Proof. intros E. cbn [List.filter]. unfold nonspace at 1. now rewrite E. Qed.

Lemma filter_nonspace_keep c l :
  isspace c = false -> List.filter nonspace (c :: l) = c :: List.filter nonspace l.
Proof. intros E. cbn [List.filter]. unfold nonspace at 1. now rewrite E. Qed.

Lemma filter_nonspace_drop_run s :
  List.filter nonspace (drop_run isspace s) = List.filter nonspace s.
Proof.
  induction s as [|c s IH]; [reflexivity|].
  cbn [drop_run]. destruct (isspace c) eqn:E.
  - now rewrite (filter_nonspace_space _ _ E).
  - reflexivity.
Qed.

Lemma collapse_filter_nonspace y :
  List.filter nonspace (sub whitespace_re (py " ") y) = List.filter nonspace y.
Proof.
  remember (length y) as k eqn:Hk. revert y Hk.
  induction k as [k IH] using lt_wf_ind. intros y Hk.
  destruct y as [|c r]; [now rewrite collapse_nil|].
  destruct (isspace c) eqn:Ec.
  - rewrite (collapse_run _ _ Ec), (filter_nonspace_space c r Ec).
    rewrite (filter_nonspace_space space _ eq_refl).
    assert (L := drop_run_length isspace r).
    rewrite (IH (length (drop_run isspace r))); [| subst k; cbn; lia | reflexivity].
    apply filter_nonspace_drop_run.
  - rewrite (collapse_keep _ _ Ec), !(filter_nonspace_keep c _ Ec). f_equal.
    apply (IH (length r)); [subst k; cbn; lia | reflexivity].
Qed.

Lemma strip_filter_nonspace s :
  List.filter nonspace (strip s) = List.filter nonspace s.
Proof.
  unfold strip, rstrip, lstrip.
  rewrite filter_rev_comm, filter_nonspace_drop_run, filter_rev_comm.
  now rewrite rev_involutive, filter_nonspace_drop_run.
Qed.

(** What the removal of the markers leaves is the text less markers, and
    nothing else. *)
Lemma remove_without_markers x :
  without_markers x (sub timestamp_re (py "") x).
Proof.
  remember (length x) as k eqn:Hk. revert x Hk.
  induction k as [k IH] using lt_wf_ind. intros x Hk.
  destruct x as [|c r]; [rewrite remove_nil; constructor|].
  destruct (stamp_len (c :: r)) as [n|] eqn:Hs.
  - rewrite (remove_hit _ _ Hs).
    destruct (stamp_len_sound _ _ Hs) as (Hm & Hx & Hn).
    destruct (stamp_len_bounds _ _ Hs) as [H1 _].
    rewrite Hx at 1. apply wm_drop; [exact Hm|].
    apply (IH (length (skipn n (c :: r)))); [|reflexivity].
    rewrite length_skipn. subst k. cbn [length] in *. lia.
  - rewrite (remove_miss _ _ Hs). apply wm_keep.
    apply (IH (length r)); [subst k; cbn; lia | reflexivity].
Qed.

(** Leaving markers out leaves out no character but brackets, digits and
    colons, and never adds one. *)
Lemma without_markers_length x y : without_markers x y -> length y <= length x.
Proof.
  induction 1 as [|c x y _ IH|m x y _ _ IH]; cbn [length]; [lia | lia|].
  rewrite length_app. lia.
Qed.

End NormalizerMore.

Module WordsFacts.
Import PyStr Re Sentiment TextSpec ReFacts NormalizerFacts.

Lemma words_space c r : isspace c = true -> words (c :: r) = words r.
Proof. intros E. cbn [words]. now rewrite E. Qed.

Lemma words_drop_run s : words (drop_run isspace s) = words s.
Proof.
  induction s as [|c s IH]; [reflexivity|]. cbn [drop_run].
  destruct (isspace c) eqn:E; [|reflexivity]. now rewrite (words_space _ _ E).
Qed.

Lemma words_head c r :
  isspace c = false -> exists w ws, words (c :: r) = (c :: w) :: ws.
Proof.
  intros E. cbn [words]. rewrite E.
  destruct (starts_space r); [eexists _, _; reflexivity|].
  destruct (words r); eexists _, _; reflexivity.
Qed.

Lemma words_keep_space c r :
  isspace c = false -> starts_space r = true -> words (c :: r) = [c] :: words r.
Proof. intros E S. cbn [words]. now rewrite E, S. Qed.

Lemma words_keep_more c d r :
  isspace c = false -> isspace d = false ->
  exists w ws, words (d :: r) = w :: ws /\ words (c :: d :: r) = (c :: w) :: ws.
Proof.
  intros Ec Ed. destruct (words_head d r Ed) as (w & ws & H).
  exists (d :: w), ws. split; [exact H|].
  change (words (c :: d :: r))
    with (if isspace c then words (d :: r)
          else if isspace d then [c] :: words (d :: r)
          else match words (d :: r) with
               | w :: ws => (c :: w) :: ws
               | [] => [[c]]
               end).
  now rewrite Ec, Ed, H.
Qed.

Example words_example :
  words (py "  the  quick" ++ [newline] ++ py "fox ")
  = [py "the"; py "quick"; py "fox"].
Proof. reflexivity. Qed.

(** The words hold the characters other than whitespace, in order; none is
    empty and none holds whitespace. *)
Lemma words_spec s :
  concat (words s) = List.filter nonspace s
  /\ Forall (fun w => w <> [] /\ forallb nonspace w = true) (words s).
Proof.
  induction s as [|c s [IH1 IH2]]; [split; [reflexivity | constructor]|].
  destruct (isspace c) eqn:Ec.
  - rewrite (words_space _ _ Ec). split; [|exact IH2].
    rewrite IH1. cbn [List.filter]. unfold nonspace at 2. now rewrite Ec.
  - assert (Hn : nonspace c = true) by (unfold nonspace; now rewrite Ec).
    cbn [List.filter]. rewrite Hn.
    destruct s as [|d s].
    { rewrite (words_keep_space c [] Ec eq_refl). split; [reflexivity|].
      repeat constructor; [discriminate | cbn; now rewrite Hn]. }
    destruct (isspace d) eqn:Ed.
    + rewrite (words_keep_space c (d :: s) Ec Ed). split.
      * cbn [concat app]. now rewrite IH1.
      * constructor; [|exact IH2]. split; [discriminate | cbn; now rewrite Hn].
    + destruct (words_keep_more c d s Ec Ed) as (w & ws & Hw & ->).
      rewrite Hw in IH1, IH2. split.
      * cbn [concat app] in *. now rewrite IH1.
      * inversion IH2 as [|? ? [_ Hf] Hrest]; subst.
        constructor; [|exact Hrest].
        split; [discriminate | cbn [forallb]; now rewrite Hn, Hf].
Qed.

(** The words of a text cut at a whitespace character. *)
Lemma words_app_space a c b :
  isspace c = true -> words (a ++ c :: b) = words a ++ words b.
Proof.
  intros Hc. induction a as [|x a IH]; [now apply words_space|].
  cbn [app]. destruct (isspace x) eqn:Ex.
  - now rewrite !(words_space x _ Ex).
  - destruct a as [|d a].
    + cbn [app]. rewrite (words_keep_space x (c :: b) Ex Hc).
      rewrite (words_space _ _ Hc), (words_keep_space x [] Ex eq_refl).
      reflexivity.
    + destruct (isspace d) eqn:Ed.
      * rewrite (words_keep_space x _ Ex) by exact Ed.
        rewrite (words_keep_space x (d :: a) Ex Ed), IH. reflexivity.
      * cbn [app] in *.
        destruct (words_keep_more x d (a ++ c :: b) Ex Ed) as (w & ws & H1 & ->).
        destruct (words_keep_more x d a Ex Ed) as (w' & ws' & H2 & ->).
        rewrite IH, H2 in H1. cbn [app] in H1. injection H1 as <- <-.
        reflexivity.
Qed.

Lemma drop_run_app_last (p : ascii -> bool) y c :
  p c = true ->
  drop_run p (y ++ [c])
  = match drop_run p y with [] => [] | d => d ++ [c] end.
Proof.
  intros Hc. induction y as [|x y IH]; cbn [app drop_run].
  - now rewrite Hc.
  - destruct (p x); [exact IH | reflexivity].
Qed.

Lemma rstrip_cons_space c x :
  isspace c = true ->
  rstrip (c :: x) = match rstrip x with [] => [] | _ => c :: rstrip x end.
Proof.
  intros Hc. unfold rstrip, lstrip. cbn [rev].
  rewrite (drop_run_app_last isspace (rev x) c Hc).
  destruct (drop_run isspace (rev x)) as [|a l]; [reflexivity|].
  rewrite rev_app_distr. cbn [rev app].
  destruct (rev l ++ [a]) eqn:E; [|reflexivity].
  now apply app_eq_nil in E as [_ E].
Qed.

Lemma join_space_cons w v ws :
  join (py " ") (w :: v :: ws) = w ++ space :: join (py " ") (v :: ws).
Proof. reflexivity. Qed.

Lemma join_words_head c w ws :
  join (py " ") ((c :: w) :: ws) = c :: join (py " ") (w :: ws).
Proof. destruct ws; reflexivity. Qed.

(** What [rstrip] leaves of a text whose whitespace has been collapsed. *)
Lemma rstrip_collapse_words s :
  rstrip (sub whitespace_re (py " ") s)
  = match s with
    | [] => []
    | c :: _ =>
        if isspace c
        then match words s with
             | [] => []
             | _ :: _ => space :: join (py " ") (words s)
             end
        else join (py " ") (words s)
    end.
Proof.
  remember (length s) as k eqn:Hk. revert s Hk.
  induction k as [k IH] using lt_wf_ind. intros s Hk.
  destruct s as [|c r]; [now rewrite collapse_nil|].
  destruct (isspace c) eqn:Ec.
  - rewrite (collapse_run _ _ Ec), (words_space _ _ Ec), <- words_drop_run.
    rewrite (rstrip_cons_space space _ eq_refl).
    assert (L := drop_run_length isspace r).
    rewrite (IH (length (drop_run isspace r)) ltac:(subst k; cbn; lia)
               (drop_run isspace r) eq_refl).
    destruct (drop_run isspace r) as [|d r'] eqn:E; [reflexivity|].
    assert (Hd := drop_run_head _ _ _ _ E). rewrite Hd.
    destruct (words_head d r' Hd) as (w & ws & ->).
    rewrite join_words_head. reflexivity.
  - rewrite (collapse_keep _ _ Ec), (rstrip_cons_nonspace _ _ Ec).
    rewrite (IH (length r) ltac:(subst k; cbn; lia) r eq_refl).
    destruct r as [|d r].
    { now rewrite (words_keep_space c [] Ec eq_refl). }
    destruct (isspace d) eqn:Ed.
    + rewrite (words_keep_space c (d :: r) Ec Ed).
      destruct (words (d :: r)) as [|v vs]; reflexivity.
    + destruct (words_keep_more c d r Ec Ed) as (w & ws & -> & ->).
      now rewrite join_words_head.
Qed.

(** Collapsing the whitespace and trimming leaves the words, separated by
    single spaces. *)
Lemma strip_collapse_words s :
  strip (sub whitespace_re (py " ") s) = join (py " ") (words s).
Proof.
  destruct s as [|c r]; [now rewrite collapse_nil|].
  destruct (isspace c) eqn:Ec.
  - rewrite (collapse_run _ _ Ec), (words_space _ _ Ec), <- words_drop_run.
    unfold strip. unfold lstrip at 1. cbn [drop_run].
    change (isspace space) with true. cbv iota.
    assert (R := rstrip_collapse_words (drop_run isspace r)).
    destruct (drop_run isspace r) as [|d r'] eqn:E.
    + rewrite collapse_nil. reflexivity.
    + assert (Hd := drop_run_head _ _ _ _ E). cbv iota in R. rewrite Hd in R.
      rewrite (collapse_keep _ _ Hd) in *. cbn [drop_run]. rewrite Hd. exact R.
  - assert (R := rstrip_collapse_words (c :: r)). cbv iota in R. rewrite Ec in R.
    rewrite (collapse_keep _ _ Ec) in *. unfold strip, lstrip.
    cbn [drop_run]. rewrite Ec. exact R.
Qed.

(** ** Markers and whitespace *)

(** A text in front of a character that can not be part of a marker is
    matched as it is alone. *)
Lemma stamp_len_app_space p c z :
  p <> [] -> isspace c = true -> stamp_len (p ++ c :: z) = stamp_len p.
Proof.
  intros Hp Hc.
  assert (Hd : isdigit c = false).
  { destruct (isdigit c) eqn:E; [|reflexivity].
    apply digit_not_space in E. congruence. }
  assert (H1 : Ascii.eqb ":" c = false).
  { destruct (Ascii.eqb_spec ":" c) as [<-|]; [discriminate | reflexivity]. }
  assert (H2 : Ascii.eqb "]" c = false).
  { destruct (Ascii.eqb_spec "]" c) as [<-|]; [discriminate | reflexivity]. }
  destruct p as [|x r]; [congruence|]. cbn [app stamp_len].
  destruct (Ascii.eqb "[" x); [|reflexivity].
  destruct (run_app_stop isdigit r c z Hd) as [-> ->].
  destruct (take_run isdigit r) as [|y d1]; [reflexivity|].
  destruct (drop_run isdigit r) as [|c2 r2].
  { cbn [app]. now rewrite H1. }
  cbn [app]. destruct (Ascii.eqb ":" c2); [|reflexivity].
  destruct (run_app_stop isdigit r2 c z Hd) as [-> ->].
  destruct (take_run isdigit r2) as [|y2 d2]; [reflexivity|].
  destruct (drop_run isdigit r2) as [|c3 r3]; [|reflexivity].
  cbn [app]. now rewrite H2.
Qed.

Lemma stamp_len_space c z : isspace c = true -> stamp_len (c :: z) = None.
Proof.
  intros Hc. cbn [stamp_len].
  destruct (Ascii.eqb_spec "[" c) as [<-|]; [discriminate | reflexivity].
Qed.

(** The markers are removed on each side of a whitespace character
    independently. *)
Lemma remove_app_space a c b :
  isspace c = true ->
  sub timestamp_re (py "") (a ++ c :: b)
  = sub timestamp_re (py "") a ++ c :: sub timestamp_re (py "") b.
Proof.
  intros Hc. remember (length a) as k eqn:Hk. revert a Hk.
  induction k as [k IH] using lt_wf_ind. intros a Hk.
  destruct a as [|x a].
  - cbn [app]. now rewrite (remove_miss _ _ (stamp_len_space c b Hc)), remove_nil.
  - assert (E : stamp_len ((x :: a) ++ c :: b) = stamp_len (x :: a)).
    { apply stamp_len_app_space; [discriminate | exact Hc]. }
    destruct (stamp_len (x :: a)) as [n|] eqn:Hs.
    + rewrite (remove_hit _ _ E), (remove_hit _ _ Hs).
      destruct (stamp_len_bounds _ _ Hs) as [H1 H2].
      rewrite skipn_app. replace (n - length (x :: a)) with 0 by lia.
      rewrite skipn_O. apply (IH (length (skipn n (x :: a)))); [|reflexivity].
      rewrite length_skipn. cbn in *. lia.
    + cbn [app] in *. rewrite (remove_miss _ _ E), (remove_miss _ _ Hs).
      cbn [app]. f_equal. apply (IH (length a)); [cbn in Hk; lia | reflexivity].
Qed.

(** The words left of texts joined by single spaces. *)
Lemma words_remove_join texts :
  words (sub timestamp_re (py "") (join (py " ") texts))
  = concat (List.map (fun t => words (sub timestamp_re (py "") t)) texts).
Proof.
  induction texts as [|t ts IH]; [cbn [join]; now rewrite remove_nil|].
  destruct ts as [|t' ts].
  - cbn [join List.map concat]. now rewrite app_nil_r.
  - rewrite join_space_cons, (remove_app_space _ space _ eq_refl).
    rewrite (words_app_space _ space _ eq_refl), IH. reflexivity.
Qed.

End WordsFacts.

Module RoundTripFacts.
Import PyStr Re Sentiment Transcript TextSpec ReFacts NormalizerFacts.
Import TranscriptFacts WordsFacts.

(** Two numbers padded to two digits, between brackets and separated by a
    colon, make a marker. *)
Lemma padded_is_timestamp (m n : nat) :
  is_timestamp (py "[" ++ zero_pad 2 (decimal m) ++ py ":"
                ++ zero_pad 2 (decimal n) ++ py "]").
Proof.
  assert (LM := zero_pad_length 2 (decimal m)).
  assert (LN := zero_pad_length 2 (decimal n)).
  eexists _, _. split; [reflexivity|].
  split; [intros E; rewrite E in LM; cbn in LM; lia|].
  split; [intros E; rewrite E in LN; cbn in LN; lia|].
  split; apply zero_pad_digits, decimal_digits.
Qed.

(** The line of a segment, in front of any text, after the removal of the
    markers. *)
Lemma remove_format_line item rest :
  (0 <= start_time item)%Q ->
  sub timestamp_re (py "") (format_line item ++ rest)
  = space :: sub timestamp_re (py "") (default (py "") (text item))
    ++ newline :: sub timestamp_re (py "") rest.
Proof.
  intros H. rewrite (format_line_nonneg _ H).
  assert (M := padded_is_timestamp (whole_minutes (start_time item))
                 (whole_seconds (start_time item))).
  set (mm := zero_pad 2 (decimal (whole_minutes (start_time item)))) in *.
  set (ss := zero_pad 2 (decimal (whole_seconds (start_time item)))) in *.
  set (t := default (py "") (text item)).
  set (marker := py "[" ++ mm ++ py ":" ++ ss ++ py "]") in *.
  replace ((py "[" ++ mm ++ py ":" ++ ss ++ py "] " ++ t ++ [newline]) ++ rest)
    with ([] ++ marker ++ (space :: t ++ newline :: rest)).
  2:{ subst marker. cbn [py list_ascii_of_string].
      repeat (progress (cbn [app]; rewrite <- ?app_assoc)). reflexivity. }
  rewrite (remove_marker [] _ _ M), remove_nil.
  cbn [app].
  rewrite (remove_miss _ _ (stamp_len_space space _ eq_refl)).
  now rewrite (remove_app_space t newline rest eq_refl).
Qed.

Lemma words_remove_format data :
  Forall (fun item => (0 <= start_time item)%Q) data ->
  words (sub timestamp_re (py "") (concat (List.map format_line data)))
  = concat (List.map
      (fun item => words (sub timestamp_re (py "") (default (py "") (text item))))
      data).
Proof.
  induction 1 as [|item rest Hitem _ IH]; [cbn [List.map concat]; now rewrite remove_nil|].
  cbn [List.map concat]. rewrite (remove_format_line _ _ Hitem).
  rewrite (words_space space _ eq_refl).
  now rewrite (words_app_space _ newline _ eq_refl), IH.
Qed.

(** ** A negative whole number of seconds *)

Lemma format_line_whole_negative item z :
  start_time item = inject_Z z -> (z < 0)%Z ->
  format_line item
  = negative_stamp z ++ py " " ++ default (py "") (text item) ++ [newline].
Proof.
  intros Hs Hz. unfold format_line. fold (start_time item).
  rewrite minutes_floor, seconds_floor, Hs, Qfloor_Z.
  assert (D : (z / 60 < 0)%Z) by (apply Z.div_lt_upper_bound; lia).
  assert (M := Z.mod_pos_bound z 60 ltac:(lia)).
  rewrite (format_02d_nonneg (z mod 60)) by lia.
  unfold format_02d. rewrite (proj2 (Z.ltb_lt _ 0) D).
  rewrite Zabs2Nat.abs_nat_spec, Z.abs_neq by lia.
  unfold negative_stamp. cbn [py list_ascii_of_string].
  repeat (progress (cbn [app]; rewrite <- ?app_assoc)). reflexivity.
Qed.

Lemma digit_not_open c : isdigit c = true -> Ascii.eqb "[" c = false.
Proof. destruct (Ascii.eqb_spec "[" c) as [<-|]; [discriminate | reflexivity]. Qed.

Lemma digits_plain d :
  all_digits d = true ->
  Forall (fun c => Ascii.eqb "[" c = false /\ isspace c = false) d.
Proof.
  unfold all_digits. intros H. apply List.Forall_forall. intros c Hc.
  assert (Hd := proj1 (forallb_forall _ _) H c Hc).
  split; [now apply digit_not_open | now apply digit_not_space].
Qed.

(** After its bracket the stamp holds no bracket that opens, and no
    whitespace anywhere. *)
Lemma negative_stamp_plain z :
  exists tl,
    negative_stamp z = "["%char :: minus :: tl
    /\ Forall (fun c => Ascii.eqb "[" c = false /\ isspace c = false)
         (minus :: tl).
Proof.
  unfold negative_stamp. eexists. split; [reflexivity|].
  constructor; [split; reflexivity|].
  apply List.Forall_app. split; [apply digits_plain, decimal_digits|].
  constructor; [split; reflexivity|].
  apply List.Forall_app. split.
  - apply digits_plain, zero_pad_digits, decimal_digits.
  - constructor; [split; reflexivity | constructor].
Qed.

(** The pattern of the markers finds nothing in the stamp. *)
Lemma negative_stamp_no_marker z :
  search timestamp_re (negative_stamp z) = false.
Proof.
  destruct (negative_stamp_plain z) as (tl & -> & F).
  apply search_timestamp_false. intros p q E.
  destruct p as [|c p].
  - cbn [app] in E. subst q. reflexivity.
  - cbn [app] in E. injection E as _ E. rewrite E in F.
    apply List.Forall_app in F as [_ F].
    destruct q as [|x q]; [reflexivity|].
    apply Forall_inv in F as [F _]. cbn [stamp_len]. now rewrite F.
Qed.

Lemma words_single w :
  w <> [] -> Forall (fun c => isspace c = false) w -> words w = [w].
Proof.
  induction w as [|c w IH]; [congruence|]. intros _ F.
  apply Forall_cons_iff in F as [Hc F].
  destruct w as [|d w]; [now rewrite (words_keep_space c [] Hc eq_refl)|].
  assert (Hd : isspace d = false) by now apply Forall_inv in F.
  destruct (words_keep_more c d w Hc Hd) as (v & vs & Hv & ->).
  rewrite IH in Hv by (discriminate || assumption).
  now injection Hv as <- <-.
Qed.

Lemma negative_stamp_word z : words (negative_stamp z) = [negative_stamp z].
Proof.
  destruct (negative_stamp_plain z) as (tl & E & F). rewrite E.
  apply words_single; [discriminate|].
  constructor; [reflexivity|].
  eapply List.Forall_impl; [|exact F]. now intros c [_ H].
Qed.

Lemma part_of_join a w b : part_of w (join (py " ") (a ++ w :: b)).
Proof.
  induction a as [|x a IH]; cbn [app].
  - destruct b as [|y b].
    + exists [], []. cbn [join app]. now rewrite app_nil_r.
    + exists [], (py " " ++ join (py " ") (y :: b)). reflexivity.
  - destruct IH as (l & r & E).
    destruct (a ++ w :: b) as [|y t] eqn:Ea.
    { destruct a; discriminate. }
    exists (x ++ py " " ++ l), r.
    change (join (py " ") (x :: y :: t)) with (x ++ py " " ++ join (py " ") (y :: t)).
    rewrite E, <- !app_assoc. reflexivity.
Qed.

(** The lines written so far end with a newline, if there are any. *)
Lemma format_transcript_tail data :
  format_transcript data = []
  \/ exists X, format_transcript data = X ++ [newline].
Proof.
  rewrite format_transcript_concat.
  destruct data as [|d data] using rev_ind; [now left|]. right.
  rewrite List.map_app, concat_app. cbn [List.map concat].
  rewrite app_nil_r. unfold format_line at 2.
  eexists. rewrite !app_assoc. reflexivity.
Qed.

(** The stamp of a negative whole offset is a word of what the removal of
    the markers leaves of the formatted transcript. *)
Lemma words_remove_negative before item after z :
  start_time item = inject_Z z -> (z < 0)%Z ->
  exists ws1 ws2,
    words (sub timestamp_re (py "")
             (format_transcript (before ++ item :: after)))
    = ws1 ++ negative_stamp z :: ws2.
Proof.
  intros Hs Hz.
  assert (E : format_transcript (before ++ item :: after)
              = format_transcript before
                ++ negative_stamp z
                ++ space :: (default (py "") (text item) ++ [newline]
                             ++ format_transcript after)).
  { rewrite !format_transcript_concat, List.map_app, concat_app.
    cbn [List.map concat]. rewrite (format_line_whole_negative _ _ Hs Hz).
    rewrite <- !app_assoc. reflexivity. }
  rewrite E.
  set (R := default (py "") (text item) ++ [newline] ++ format_transcript after).
  assert (S : sub timestamp_re (py "") (negative_stamp z ++ space :: R)
              = negative_stamp z ++ space :: sub timestamp_re (py "") R).
  { rewrite (remove_app_space _ space _ eq_refl).
    now rewrite (remove_no_match _ (negative_stamp_no_marker z)). }
  destruct (format_transcript_tail before) as [-> | [X ->]].
  - cbn [app]. rewrite S, (words_app_space _ space _ eq_refl), negative_stamp_word.
    exists [], (words (sub timestamp_re (py "") R)). reflexivity.
  - rewrite <- app_assoc. cbn [app].
    rewrite (remove_app_space X newline _ eq_refl), S.
    rewrite (words_app_space _ newline _ eq_refl).
    rewrite (words_app_space _ space _ eq_refl), negative_stamp_word.
    exists (words (sub timestamp_re (py "") X)),
           (words (sub timestamp_re (py "") R)). reflexivity.
Qed.

End RoundTripFacts.

(* ===================================================================== *)
(** * Further properties of [sentiment_analyzer.py] *)
(* ===================================================================== *)

Module SentimentExtras.
Import PyStr Re Sentiment TextSpec ReFacts NormalizerFacts RankingFacts.
Import SegmenterFacts RankingMore NormalizerMore WordsFacts.

(** Property X1: [format_quote]: the result is a body between two double
    quotes; the body has at most 200 characters, is never longer than the
    text and has no whitespace at its ends. *)
Theorem format_quote_bounds (text : pystr) :
  exists body,
    format_quote text = dquote :: body ++ [dquote]
    /\ length body <= 200
    /\ length body <= length text
    /\ strip body = body.
Proof.
  unfold format_quote.
  set (cut := if 200 <? length text then firstn 197 text ++ py "..." else text).
  exists (strip (replace_double_space cut)).
  assert (L : length (strip (replace_double_space cut)) <= length cut).
  { eapply Nat.le_trans; [apply strip_length | apply replace_double_space_length]. }
  assert (C : length cut <= 200 /\ length cut <= length text).
  { subst cut. destruct (200 <? length text) eqn:E.
    - apply Nat.ltb_lt in E. rewrite length_app, length_firstn.
      change (length (py "...")) with 3. lia.
    - apply Nat.ltb_ge in E. lia. }
  repeat split; [lia | lia | apply strip_idem].
Qed.

(** Property X2: [split_into_sentences]: every sentence returned is already
    trimmed, so that its own length lies strictly between 20 and 200, and it
    is a contiguous part of the text given. *)
Theorem sentences_are_trimmed_parts (text : pystr) :
  Forall (fun s => strip s = s /\ 20 < length s < 200 /\ part_of s text)
    (split_into_sentences text).
Proof.
  apply List.Forall_forall. intros s Hs. now apply sentence_stripped_part.
Qed.

(** Property X3: [get_top_quotes]: each quote returned is a sentence of the
    segmenter between two double quotes, with the score of that sentence;
    the cut to 197 characters and the replacement of double spaces in
    [format_quote] never change a sentence that comes from
    [clean_transcript]. *)
Theorem quotes_are_quoted_sentences
    (polarity_scores : pystr -> polarity) (transcript : pystr) (top_n : Z)
    (sentiment_type : pystr) :
  Forall
    (fun q =>
       exists s,
         In s (split_into_sentences (clean_transcript transcript))
         /\ quote q = dquote :: s ++ [dquote]
         /\ score q = compound (polarity_scores s))
    (get_top_quotes polarity_scores transcript top_n sentiment_type).
Proof.
  apply List.Forall_forall. intros q Hq. unfold get_top_quotes in Hq.
  apply rank_sentences_from in Hq as (s & Hs & ->). exists s.
  destruct (sentence_stripped_part _ _ Hs) as (Ht & [_ Hl] & Hp).
  destruct (clean_transcript_normal transcript) as (Hn & _).
  repeat split; [exact Hs|]. cbn [quote quote_of].
  apply format_quote_plain; [| exact Ht | lia].
  exact (single_spaced_part _ _ Hp Hn).
Qed.

(** Property X4: [get_top_quotes] selects from the top: what it returns
    together with what it leaves out is the list of all candidates beyond
    the threshold, nothing left out scores better than anything returned,
    and the number returned is that of the slice [[:top_n]] of the
    candidates beyond the threshold (at most [top_n] when [top_n] is not
    negative). *)
Theorem top_n_selection
    (polarity_scores : pystr -> polarity) (transcript : pystr) (top_n : Z) :
  let sentences := split_into_sentences (clean_transcript transcript) in
  let above :=
    List.filter (fun s => Qltb (2 # 10) (compound (polarity_scores s))) sentences in
  let below :=
    List.filter (fun s => Qltb (compound (polarity_scores s)) (- (2 # 10))) sentences in
  let positive := get_top_quotes polarity_scores transcript top_n (py "positive") in
  let negative := get_top_quotes polarity_scores transcript top_n (py "negative") in
  (exists rest,
      Permutation (positive ++ rest) (List.map (quote_of polarity_scores) above)
      /\ forall q q', In q positive -> In q' rest -> (score q' <= score q)%Q)
  /\ (exists rest,
      Permutation (negative ++ rest) (List.map (quote_of polarity_scores) below)
      /\ forall q q', In q negative -> In q' rest -> (score q <= score q')%Q)
  /\ length positive
     = (if (0 <=? top_n)%Z then Nat.min (Z.to_nat top_n) (length above)
        else length above - Z.to_nat (- top_n))
  /\ length negative
     = (if (0 <=? top_n)%Z then Nat.min (Z.to_nat top_n) (length below)
        else length below - Z.to_nat (- top_n)).
Proof.
  intros sentences above below positive negative.
  unfold get_top_quotes in positive, negative. fold sentences in positive, negative.
  destruct (slice_selection polarity_scores (fun x => Qltb (2 # 10) x) true
              top_n sentences) as [P1 P2].
  destruct (slice_selection polarity_scores (fun x => Qltb x (- (2 # 10))) false
              top_n sentences) as [N1 N2].
  cbv zeta in P1, P2, N1, N2. rewrite slice_to_length in P2, N2.
  repeat split; assumption.
Qed.

(** Property X5: [clean_transcript] changes nothing but markers and
    whitespace: what it returns is the words of the transcript less its
    markers, joined by single spaces, where every stretch left out of the
    transcript is a marker [[digits:digits]]; so the characters other than
    whitespace that are not in a marker are kept, in order, and the result
    is never longer than the input. *)
Theorem clean_transcript_keeps_words (transcript : pystr) :
  exists kept,
    without_markers transcript kept
    /\ kept = sub timestamp_re (py "") transcript
    /\ clean_transcript transcript = join (py " ") (words kept)
    /\ List.filter nonspace (clean_transcript transcript)
       = List.filter nonspace kept
    /\ length (clean_transcript transcript) <= length kept
    /\ length kept <= length transcript.
Proof.
  exists (sub timestamp_re (py "") transcript).
  assert (W := remove_without_markers transcript).
  split; [exact W|]. split; [reflexivity|].
  rewrite clean_transcript_unfold. split; [apply strip_collapse_words|]. split.
  - now rewrite strip_filter_nonspace, collapse_filter_nonspace.
  - split; [|now apply without_markers_length].
    eapply Nat.le_trans; [apply strip_length | apply collapse_length].
Qed.

(** A text between two markers is kept; a bracket that holds no digits is
    no marker and is kept too. *)
Example bracket_without_digits_is_kept :
  clean_transcript (py "[00:01] see [note] [1:2]here  [a:b]")
  = py "see [note] here [a:b]".
Proof. vm_compute. reflexivity. Qed.

End SentimentExtras.

(* ===================================================================== *)
(** * Further properties of [app/transcript_service.py] *)
(* ===================================================================== *)

Module TranscriptExtras.
Import PyStr Re Sentiment Transcript TextSpec ReFacts NormalizerFacts.
Import TranscriptFacts WordsFacts RoundTripFacts.

(** Property X6: [format_transcript] then [clean_transcript]: for segments
    whose start offsets are not negative, cleaning the formatted transcript
    gives what cleaning the texts of the segments, joined by spaces, gives;
    every marker and every newline the formatter wrote is gone. So the
    quotes [get_top_quotes] draws from the formatted transcript are those of
    the texts. *)
Theorem clean_inverts_format (transcript_data : list segment) :
  Forall (fun item => (0 <= start_time item)%Q) transcript_data ->
  let texts :=
    join (py " ")
      (List.map (fun item => default (py "") (text item)) transcript_data) in
  clean_transcript (format_transcript transcript_data) = clean_transcript texts
  /\ forall polarity_scores top_n sentiment_type,
       get_top_quotes polarity_scores (format_transcript transcript_data)
         top_n sentiment_type
       = get_top_quotes polarity_scores texts top_n sentiment_type.
Proof.
  intros H texts.
  assert (E : clean_transcript (format_transcript transcript_data)
              = clean_transcript texts).
  { subst texts. rewrite !clean_transcript_unfold, !strip_collapse_words.
    rewrite format_transcript_concat, (words_remove_format _ H).
    rewrite words_remove_join, List.map_map. reflexivity. }
  split; [exact E|]. intros polarity_scores top_n sentiment_type.
  unfold get_top_quotes. now rewrite E.
Qed.

Lemma clean_inverts_format_witness :
  clean_transcript (format_transcript sample_transcript)
  = clean_transcript
      (join (py " ")
         (List.map (fun item => default (py "") (text item)) sample_transcript)).
Proof.
  apply (clean_inverts_format sample_transcript).
  repeat constructor; vm_compute; discriminate.
Defined.

(** Property X7: [format_transcript] on a negative start offset.  For a
    segment whose offset is a negative whole number of seconds, among
    segments whose offsets are not negative, the line written begins with a
    bracket and a minus sign: it holds the minutes rounded down and the
    seconds that remain, as in [[-1:55]] for five seconds before zero.  The
    pattern of [clean_transcript] finds no marker in that stamp, and the
    stamp is still there, as it was written, in what [clean_transcript]
    returns for the formatted transcript. *)
Theorem negative_offset_line (before after : list segment) (item : segment)
    (z : Z) :
  Forall (fun i => (0 <= start_time i)%Q) before ->
  Forall (fun i => (0 <= start_time i)%Q) after ->
  start_time item = inject_Z z -> (z < 0)%Z ->
  format_transcript (before ++ item :: after)
  = format_transcript before
    ++ negative_stamp z ++ py " " ++ default (py "") (text item) ++ [newline]
    ++ format_transcript after
  /\ search timestamp_re (negative_stamp z) = false
  /\ part_of (negative_stamp z)
       (clean_transcript (format_transcript (before ++ item :: after))).
Proof.
  intros _ _ Hs Hz. split; [|split].
  - rewrite !format_transcript_concat, List.map_app, concat_app.
    cbn [List.map concat]. rewrite (format_line_whole_negative _ _ Hs Hz).
    rewrite <- !app_assoc. reflexivity.
  - apply negative_stamp_no_marker.
  - rewrite clean_transcript_unfold, strip_collapse_words.
    destruct (words_remove_negative before item after z Hs Hz)
      as (ws1 & ws2 & ->).
    apply part_of_join.
Qed.

Lemma negative_offset_line_witness :
  let item := {| text := Some (py "early"); start := Some (- 5 # 1)%Q |} in
  format_transcript ([] ++ item :: sample_transcript)
  = format_transcript []
    ++ negative_stamp (- 5) ++ py " " ++ default (py "") (text item) ++ [newline]
    ++ format_transcript sample_transcript
  /\ search timestamp_re (negative_stamp (- 5)) = false
  /\ part_of (negative_stamp (- 5))
       (clean_transcript (format_transcript ([] ++ item :: sample_transcript))).
Proof.
  apply (negative_offset_line [] sample_transcript
           {| text := Some (py "early"); start := Some (- 5 # 1)%Q |} (- 5)).
  - constructor.
  - repeat constructor; vm_compute; discriminate.
  - reflexivity.
  - lia.
Defined.

(** The stamp is kept where the markers are removed. *)
Example negative_stamp_is_kept :
  negative_stamp (- 5) = py "[-1:55]"
  /\ clean_transcript
       (format_transcript
          ({| text := Some (py "early"); start := Some (- 5 # 1)%Q |}
           :: sample_transcript))
     = py "[-1:55] early Hello world This is a test Goodbye".
Proof. vm_compute. auto. Qed.

(** A start offset of five seconds before zero. *)
Example format_transcript_negative_offset :
  format_transcript [ {| text := Some (py "early"); start := Some (- 5 # 1)%Q |} ]
  = py "[-1:55] early" ++ [newline].
Proof. vm_compute. reflexivity. Qed.

End TranscriptExtras.

Module CascadeFacts.
Import PyStr Re Sentiment Web TextSpec ReFacts NormalizerFacts WebFacts.

Lemma has_text_run r log :
  has_text r log
  = (match status_of r with
     | Some _ => Ok (usable r)
     | None => Raised (KeyError "status")
     end, log).
Proof.
  destruct (status_of r) as [v|] eqn:E; [now apply has_text_usable with v|].
  unfold has_text, getitem. unfold status_of in E. rewrite E. reflexivity.
Qed.

Lemma passes_gate_run r log :
  passes_gate r log
  = (match status_of r with
     | Some _ => Ok (gate r)
     | None => Raised (KeyError "status")
     end, log).
Proof.
  destruct (status_of r) as [v|] eqn:E; [now apply passes_gate_gate with v|].
  unfold passes_gate. run. rewrite has_text_run, E. reflexivity.
Qed.

(** The cascade on a valid URL, for any back ends. *)
Lemma extract_content_cases urlparse backend url log :
  let t := backend Trafilatura url in
  let n := backend Newspaper url in
  let b := backend BeautifulSoup url in
  is_valid_url urlparse url = true ->
  extract_content urlparse backend url log =
    match status_of t with
    | None => (Raised (KeyError "status"), log ++ [(Trafilatura, url)])
    | Some _ =>
        if gate t then (Ok t, log ++ [(Trafilatura, url)])
        else
          match status_of n with
          | None =>
              (Raised (KeyError "status"),
               log ++ [(Trafilatura, url); (Newspaper, url)])
          | Some _ =>
              if gate n then (Ok n, log ++ [(Trafilatura, url); (Newspaper, url)])
              else
                match status_of b with
                | None =>
                    (Raised (KeyError "status"),
                     log ++ [(Trafilatura, url); (Newspaper, url);
                             (BeautifulSoup, url)])
                | Some _ =>
                    (Ok (if usable b then b
                         else if usable t then t
                         else if usable n then n
                         else all_methods_failed_error),
                     log ++ [(Trafilatura, url); (Newspaper, url);
                             (BeautifulSoup, url)])
                end
          end
    end.
Proof.
  intros t n b Hvalid.
  unfold extract_content. rewrite Hvalid. cbn [negb]. run.
  fold t. rewrite passes_gate_run.
  destruct (status_of t) as [vt|] eqn:Ht; [|reflexivity].
  destruct (gate t); [reflexivity|].
  fold n. rewrite passes_gate_run, <- app_assoc. cbn [app].
  destruct (status_of n) as [vn|] eqn:Hn; [|reflexivity].
  destruct (gate n); [reflexivity|].
  fold b. rewrite has_text_run, <- app_assoc. cbn [app].
  destruct (status_of b) as [vb|] eqn:Hb; [|reflexivity].
  destruct (usable b) eqn:Hub; [reflexivity|].
  rewrite first_with_text_find by (repeat constructor; eauto).
  cbn [List.find]. rewrite Hub.
  destruct (usable t); [reflexivity|]. destruct (usable n); reflexivity.
Qed.

(** A usable result of a back end of the source carries its text as a
    string that is not empty. *)
Lemma backends_usable lib s url :
  usable (backends lib s url) = true ->
  status_of (backends lib s url) = Some (VStr (py "success"))
  /\ exists text,
       backends lib s url !! "text" = Some (VStr text) /\ text <> [].
Proof.
  unfold usable. intros [H1 H2]%andb_true_iff.
  apply bool_decide_eq_true in H1. split; [exact H1|].
  unfold dict_get in H2.
  assert (T : backends lib s url !! "text" = None
              \/ exists text, backends lib s url !! "text" = Some (VStr text)).
  { destruct s; cbn [backends].
    - unfold extract_with_trafilatura.
      destruct (fetch_url _ url) as [[d|]|e]; [|left; reflexivity | left; reflexivity].
      destruct (extract _ d) as [[r|]|e]; [|left; reflexivity | left; reflexivity].
      destruct (extract_metadata _ d) as [m|e];
        [right; eexists; reflexivity | left; reflexivity].
    - unfold extract_with_newspaper.
      destruct (newspaper lib url);
        [right; eexists; reflexivity | left; reflexivity].
    - unfold extract_with_beautifulsoup.
      destruct (beautifulsoup lib url);
        [right; eexists; reflexivity | left; reflexivity]. }
  destruct T as [T | [text T]]; rewrite T in H2; [discriminate|].
  exists text. split; [exact T|]. cbn in H2.
  intros ->. rewrite bool_decide_eq_true_2 in H2 by reflexivity. discriminate.
Qed.

(** With the back ends of the source the cascade returns, and what it
    returns is one of its two errors or a usable result of a back end. *)
Lemma extract_content_shape urlparse lib url log :
  exists d log',
    extract_content urlparse (backends lib) url log = (Ok d, log')
    /\ (d = invalid_url_error \/ d = all_methods_failed_error
        \/ exists s, d = backends lib s url /\ usable d = true).
Proof.
  destruct (is_valid_url urlparse url) eqn:Hv.
  2:{ rewrite (extract_content_invalid urlparse (backends lib) url log Hv). eauto. }
  assert (St : forall s, is_Some (status_of (backends lib s url)))
    by (intros s; destruct (backends_status lib s url) as [-> | ->]; eauto).
  assert (G : forall s, gate (backends lib s url) = true ->
                        usable (backends lib s url) = true).
  { intros s. unfold gate. now intros [H _]%andb_true_iff. }
  rewrite (extract_content_valid urlparse (backends lib)) by auto.
  destruct (gate (backends lib Trafilatura url)) eqn:Gt; [eauto 10|].
  destruct (gate (backends lib Newspaper url)) eqn:Gn; [eauto 10|].
  eexists _, _. split; [reflexivity|].
  destruct (usable (backends lib BeautifulSoup url)) eqn:Ub; [eauto 10|].
  destruct (usable (backends lib Trafilatura url)) eqn:Ut; [eauto 10|].
  destruct (usable (backends lib Newspaper url)) eqn:Un; eauto 10.
Qed.

(** ** The clean-up of the text of the whole page *)

Lemma run_len_bounds p a n : run_len p a = Some n -> 1 <= n <= length a.
Proof.
  unfold run_len. assert (E := take_drop_run p a).
  apply (f_equal (@length ascii)) in E. rewrite length_app in E.
  destruct (take_run p a); [discriminate|]. intros [= <-]. cbn in *. lia.
Qed.

(** A pattern [i+] matches exactly the longest run of its class. *)
Lemma plus_run_len i adv b a :
  match_here (Plus i) adv b a = run_len (item_ok i) a.
Proof.
  unfold match_here, run_len. cbn [matches].
  destruct a as [|c rest]; [reflexivity|]. cbn [take_run].
  destruct (item_ok i c); [|reflexivity].
  apply greedy_accept.
  assert (E := take_drop_run (item_ok i) rest).
  apply (f_equal (@length ascii)) in E. rewrite length_app in E.
  cbn [length].
  replace (S (length rest) - length (drop_run (item_ok i) rest))
    with (S (length (take_run (item_ok i) rest))) by lia.
  now rewrite andb_false_r.
Qed.

Lemma sub_plus_nil i repl : sub (Plus i) repl [] = [].
Proof. apply (sub_nil _ _ (plus_run_len i) (run_len_bounds _)). Qed.

Lemma sub_plus_keep i repl c rest :
  item_ok i c = false ->
  sub (Plus i) repl (c :: rest) = c :: sub (Plus i) repl rest.
Proof.
  intros H. apply (sub_miss _ _ (plus_run_len i) (run_len_bounds _)).
  unfold run_len. cbn [take_run]. now rewrite H.
Qed.

Lemma sub_plus_run i repl c rest :
  item_ok i c = true ->
  sub (Plus i) repl (c :: rest)
  = repl ++ sub (Plus i) repl (drop_run (item_ok i) rest).
Proof.
  intros H.
  rewrite (sub_hit _ _ (plus_run_len i) (run_len_bounds _) repl
             (c :: rest) (S (length (take_run (item_ok i) rest)))).
  - cbn [skipn]. now rewrite skipn_take_run.
  - unfold run_len. cbn [take_run]. now rewrite H.
Qed.

Lemma newline_is_space c : item_ok (Lit newline) c = true -> isspace c = true.
Proof.
  cbn [item_ok]. destruct (Ascii.eqb_spec newline c) as [<-|]; [|discriminate].
  reflexivity.
Qed.

Lemma drop_space_after_newlines r :
  drop_run isspace (drop_run (item_ok (Lit newline)) r) = drop_run isspace r.
Proof.
  induction r as [|c r IH]; [reflexivity|]. cbn [drop_run].
  destruct (item_ok (Lit newline) c) eqn:E; [|reflexivity].
  now rewrite (newline_is_space _ E).
Qed.

(** Doubling the newlines does not change what the collapse of the
    whitespace gives. *)
Lemma collapse_after_newlines x :
  sub whitespace_re (py " ") (sub newlines_re [newline; newline] x)
  = sub whitespace_re (py " ") x
  /\ sub whitespace_re (py " ")
       (drop_run isspace (sub newlines_re [newline; newline] x))
     = sub whitespace_re (py " ") (drop_run isspace x).
Proof.
  unfold newlines_re.
  remember (length x) as k eqn:Hk. revert x Hk.
  induction k as [k IH] using lt_wf_ind. intros x Hk.
  destruct x as [|c r]; [now rewrite sub_plus_nil|].
  destruct (item_ok (Lit newline) c) eqn:En.
  - assert (Ec := newline_is_space _ En).
    rewrite (sub_plus_run _ _ _ _ En). cbn [app].
    assert (L := drop_run_length (item_ok (Lit newline)) r).
    destruct (IH (length (drop_run (item_ok (Lit newline)) r))
                ltac:(subst k; cbn; lia) _ eq_refl) as [_ I2].
    rewrite drop_space_after_newlines in I2.
    rewrite (collapse_run newline _ eq_refl), (collapse_run c r Ec).
    cbn [drop_run]. change (isspace newline) with true. cbv iota.
    rewrite Ec, I2. auto.
  - rewrite (sub_plus_keep _ _ _ _ En).
    destruct (IH (length r) ltac:(subst k; cbn; lia) r eq_refl) as [I1 I2].
    destruct (isspace c) eqn:Ec.
    + rewrite !(collapse_run c _ Ec). cbn [drop_run]. rewrite Ec, I2. auto.
    + rewrite !(collapse_keep c _ Ec). cbn [drop_run]. rewrite Ec.
      rewrite !(collapse_keep c _ Ec), I1. auto.
Qed.

End CascadeFacts.

(* ===================================================================== *)
(** * Further properties of [app/web_content_service.py] *)
(* ===================================================================== *)

Module WebExtras.
Import PyStr Re Sentiment Web TextSpec ReFacts NormalizerFacts WebFacts.
Import CascadeFacts.

(** Property X8: [extract_content] calls the back ends in one fixed order,
    each at most once and always with the URL it was given: whatever the
    back ends return, the calls made are an initial part of trafilatura,
    newspaper, BeautifulSoup. *)
Theorem calls_in_fixed_order
    (urlparse : pystr -> result ParseResult)
    (backend : strategy -> pystr -> pydict) (url : pystr) log :
  exists calls,
    snd (extract_content urlparse backend url log)
    = log ++ List.map (fun s => (s, url)) calls
    /\ (calls = [] \/ calls = [Trafilatura]
        \/ calls = [Trafilatura; Newspaper]
        \/ calls = [Trafilatura; Newspaper; BeautifulSoup]).
Proof.
  destruct (is_valid_url urlparse url) eqn:Hv.
  - rewrite (extract_content_cases urlparse backend url log Hv).
    destruct (status_of (backend Trafilatura url));
      [|exists [Trafilatura]; split; [reflexivity | tauto]].
    destruct (gate (backend Trafilatura url));
      [exists [Trafilatura]; split; [reflexivity | tauto]|].
    destruct (status_of (backend Newspaper url));
      [|exists [Trafilatura; Newspaper]; split; [reflexivity | tauto]].
    destruct (gate (backend Newspaper url));
      [exists [Trafilatura; Newspaper]; split; [reflexivity | tauto]|].
    destruct (status_of (backend BeautifulSoup url));
      exists [Trafilatura; Newspaper; BeautifulSoup]; split;
      (reflexivity || tauto).
  - rewrite (extract_content_invalid urlparse backend url log Hv).
    exists []. split; [cbn; now rewrite app_nil_r | tauto].
Qed.

(** Property X9: The only exception [extract_content] lets through is the
    [KeyError] of the lookup of ['status'], and only when the result of a
    back end it called has no such key. *)
Theorem only_missing_status_raises
    (urlparse : pystr -> result ParseResult)
    (backend : strategy -> pystr -> pydict) (url : pystr) log (e : exn) :
  fst (extract_content urlparse backend url log) = Raised e ->
  e = KeyError "status"
  /\ exists s,
       In (s, url) (snd (extract_content urlparse backend url nil))
       /\ status_of (backend s url) = None.
Proof.
  destruct (is_valid_url urlparse url) eqn:Hv.
  - rewrite !(extract_content_cases urlparse backend url _ Hv).
    destruct (status_of (backend Trafilatura url)) eqn:Ht.
    2:{ intros [= <-]. split; [reflexivity|]. exists Trafilatura.
        split; [left; reflexivity | exact Ht]. }
    destruct (gate (backend Trafilatura url)); [discriminate|].
    destruct (status_of (backend Newspaper url)) eqn:Hn.
    2:{ intros [= <-]. split; [reflexivity|]. exists Newspaper.
        split; [right; left; reflexivity | exact Hn]. }
    destruct (gate (backend Newspaper url)); [discriminate|].
    destruct (status_of (backend BeautifulSoup url)) eqn:Hb; [discriminate|].
    intros [= <-]. split; [reflexivity|]. exists BeautifulSoup.
    split; [right; right; left; reflexivity | exact Hb].
  - rewrite (extract_content_invalid urlparse backend url log Hv). discriminate.
Qed.

Lemma only_missing_status_raises_witness :
  KeyError "status" = KeyError "status"
  /\ exists s,
       In (s, py "https://example.com")
         (snd (extract_content simple_urlparse (fixed_backend ∅ ∅ ∅)
                 (py "https://example.com") nil))
       /\ status_of (fixed_backend ∅ ∅ ∅ s (py "https://example.com")) = None.
Proof.
  apply (only_missing_status_raises simple_urlparse (fixed_backend ∅ ∅ ∅)
           (py "https://example.com") []).
  vm_compute. reflexivity.
Defined.

(** Property X10: With the three back ends of the source [extract_content]
    never raises, and its result is one of three things: the [Invalid URL
    format] error, with no call made; the error of the failure of all
    methods, after the three calls; or the dictionary of a back end that was
    called, whose status is [success] and whose text is a string that is not
    empty. *)
Theorem extract_content_outcome
    (urlparse : pystr -> result ParseResult) (lib : libraries)
    (url : pystr) log :
  exists d calls,
    extract_content urlparse (backends lib) url log
    = (Ok d, log ++ List.map (fun s => (s, url)) calls)
    /\ ((d = invalid_url_error /\ calls = [])
        \/ (d = all_methods_failed_error
            /\ calls = [Trafilatura; Newspaper; BeautifulSoup])
        \/ (exists s text,
              In s calls /\ d = backends lib s url
              /\ d !! "status" = Some (VStr (py "success"))
              /\ d !! "text" = Some (VStr text) /\ text <> [])).
Proof.
  destruct (is_valid_url urlparse url) eqn:Hv.
  2:{ rewrite (extract_content_invalid urlparse (backends lib) url log Hv).
      exists invalid_url_error, []. split; [cbn; now rewrite app_nil_r | tauto]. }
  assert (St : forall s, is_Some (status_of (backends lib s url)))
    by (intros s; destruct (backends_status lib s url) as [-> | ->]; eauto).
  assert (U : forall s, usable (backends lib s url) = true ->
     exists text, backends lib s url !! "status" = Some (VStr (py "success"))
       /\ backends lib s url !! "text" = Some (VStr text) /\ text <> []).
  { intros s Hs. destruct (backends_usable lib s url Hs) as (H1 & text & H2 & H3).
    exists text. auto. }
  assert (G : forall s, gate (backends lib s url) = true ->
                        usable (backends lib s url) = true).
  { intros s. unfold gate. now intros [H _]%andb_true_iff. }
  rewrite (extract_content_valid urlparse (backends lib)) by auto.
  destruct (gate (backends lib Trafilatura url)) eqn:Gt.
  { destruct (U _ (G _ Gt)) as (text & H1 & H2 & H3).
    exists (backends lib Trafilatura url), [Trafilatura]. split; [reflexivity|].
    right; right. exists Trafilatura, text. cbn [In]. auto. }
  destruct (gate (backends lib Newspaper url)) eqn:Gn.
  { destruct (U _ (G _ Gn)) as (text & H1 & H2 & H3).
    exists (backends lib Newspaper url), [Trafilatura; Newspaper].
    split; [reflexivity|].
    right; right. exists Newspaper, text. cbn [In]. auto. }
  eexists _, [Trafilatura; Newspaper; BeautifulSoup]. split; [reflexivity|].
  destruct (usable (backends lib BeautifulSoup url)) eqn:Ub.
  { destruct (U _ Ub) as (text & H1 & H2 & H3).
    right; right. exists BeautifulSoup, text. cbn [In]. auto 10. }
  destruct (usable (backends lib Trafilatura url)) eqn:Ut.
  { destruct (U _ Ut) as (text & H1 & H2 & H3).
    right; right. exists Trafilatura, text. cbn [In]. auto 10. }
  destruct (usable (backends lib Newspaper url)) eqn:Un.
  { destruct (U _ Un) as (text & H1 & H2 & H3).
    right; right. exists Newspaper, text. cbn [In]. auto 10. }
  right; left. auto.
Qed.

(** Property X11: [extract_with_beautifulsoup], when the paragraphs give
    fewer than 100 characters: the text returned is the text of the whole
    page with every run of whitespace replaced by one space. The doubling of
    the newlines that precedes it is without effect, and no newline is left. *)
Theorem scraper_page_text
    (fetch_page : pystr -> result page) (url : pystr) (soup : page) :
  fetch_page url = Ok soup ->
  length
    (join [newline; newline]
       (List.map strip
          (List.filter (fun p => negb (bool_decide (strip p = [])))
             (page_paragraphs soup)))) < 100 ->
  extract_with_beautifulsoup fetch_page url !! "text"
  = Some (VStr (sub whitespace_re (py " ") (page_text soup)))
  /\ single_spaced (sub whitespace_re (py " ") (page_text soup)) = true.
Proof.
  intros Hf Hl. split; [|apply collapse_single_spaced].
  unfold extract_with_beautifulsoup. rewrite Hf. cbv zeta.
  apply Nat.ltb_lt in Hl. rewrite Hl.
  rewrite (proj1 (collapse_after_newlines (page_text soup))). reflexivity.
Qed.

Lemma scraper_page_text_witness :
  let soup :=
    {| page_title := VNone;
       page_paragraphs := [py "  "; py " short "];
       page_text := py "Menu" ++ [newline; newline; newline] ++ py " short  text" |} in
  extract_with_beautifulsoup (fun _ => Ok soup) (py "https://example.com") !! "text"
  = Some (VStr (sub whitespace_re (py " ") (page_text soup)))
  /\ single_spaced (sub whitespace_re (py " ") (page_text soup)) = true.
Proof.
  apply (scraper_page_text
           (fun _ => Ok
              {| page_title := VNone;
                 page_paragraphs := [py "  "; py " short "];
                 page_text :=
                   py "Menu" ++ [newline; newline; newline] ++ py " short  text" |})
           (py "https://example.com")).
  - reflexivity.
  - vm_compute. lia.
Defined.

(** The text of the whole page in the example above. *)
Example page_text_cleanup_example :
  sub whitespace_re (py " ")
    (sub newlines_re [newline; newline]
       (py "Menu" ++ [newline; newline; newline] ++ py " short  text"))
  = py "Menu short text".
Proof. vm_compute. reflexivity. Qed.

End WebExtras.

Module VideoIdFacts.
Import PyStr Re VideoId ReFacts.

Lemma matches_id_class {A : Set} b a (k : pystr -> pystr -> option A) :
  matches id_class b a k
  = match a with
    | c :: rest => if idchar c then k (c :: b) rest else None
    | [] => None
    end.
Proof.
  destruct a as [|c rest]; [reflexivity|]. unfold id_class, idchar.
  cbn [matches item_ok].
  change (nat_of_ascii "0") with 48. change (nat_of_ascii "9") with 57.
  change (nat_of_ascii "A") with 65. change (nat_of_ascii "Z") with 90.
  change (nat_of_ascii "a") with 97. change (nat_of_ascii "z") with 122.
  destruct (in_range 48 57 c), (in_range 65 90 c), (in_range 97 122 c),
    (Ascii.eqb "_" c), (Ascii.eqb "-" c); cbn [orb];
    destruct (k (c :: b) rest); reflexivity.
Qed.

Lemma times_S r n : times r (S (S n)) = Cat r (times r (S n)).
Proof. reflexivity. Qed.

(** [[0-9A-Za-z_-]{n}] takes [n] characters of the class, or fails. *)
Lemma matches_times {A : Set} n : forall b a (k : pystr -> pystr -> option A),
  matches (times id_class (S n)) b a k
  = if (S n <=? length a) && forallb idchar (firstn (S n) a)
    then k (rev (firstn (S n) a) ++ b) (skipn (S n) a)
    else None.
Proof.
  induction n as [|n IH]; intros b a k.
  - change (times id_class 1) with id_class. rewrite matches_id_class.
    destruct a as [|c rest]; [reflexivity|].
    cbn [length firstn skipn forallb rev app]. rewrite firstn_O.
    cbn [forallb rev app]. rewrite andb_true_r.
    change (1 <=? S (length rest)) with true. reflexivity.
  - rewrite times_S. cbn [matches]. rewrite matches_id_class.
    destruct a as [|c rest]; [reflexivity|].
    rewrite IH. cbn [length firstn skipn forallb rev].
    change (S (S n) <=? S (length rest)) with (S n <=? length rest).
    destruct (idchar c); [|now rewrite andb_false_r].
    cbn [andb]. rewrite <- app_assoc. reflexivity.
Qed.

Lemma greedy_const {A : Set} i b a (x : A) : greedy i b a (fun _ _ => Some x) = Some x.
Proof.
  revert b. induction a as [|c a IH]; intros b; cbn [greedy]; [reflexivity|].
  destruct (item_ok i c); [now rewrite IH | reflexivity].
Qed.

(** A literal text matches at the head of a text that starts with it. *)
Lemma matches_literal {A : Set} cs : forall c b a (k : pystr -> pystr -> option A),
  matches (seq (Lit c) (List.map Lit cs)) b a k
  = match after_prefix (c :: cs) a with
    | Some rest => k (rev (c :: cs) ++ b) rest
    | None => None
    end.
Proof.
  induction cs as [|d cs IH]; intros c b a k.
  - cbn [List.map seq matches after_prefix item_ok].
    destruct a as [|x rest]; [reflexivity|].
    destruct (Ascii.eqb_spec c x) as [<-|]; reflexivity.
  - cbn [List.map seq matches item_ok]. cbn [after_prefix].
    destruct a as [|x rest]; [reflexivity|].
    destruct (Ascii.eqb_spec c x) as [<-|]; [|reflexivity].
    rewrite IH. cbn [rev]. rewrite <- !app_assoc. reflexivity.
Qed.

(** The group of the three patterns, and what may follow it. *)
Lemma group_id_at (tail : bool) b a :
  matches (times id_class 11) b a
    (fun b' a' =>
       let captured := firstn (length a - length a') a in
       if tail then greedy Dot b' a' (fun _ _ => Some captured)
       else Some captured)
  = id_at a.
Proof.
  rewrite matches_times. unfold id_at.
  destruct (11 <=? length a) eqn:L; [|reflexivity]. apply Nat.leb_le in L.
  destruct (forallb idchar (firstn 11 a)); [|reflexivity]. cbn [andb]. cbv zeta.
  rewrite length_skipn. replace (length a - (length a - 11)) with 11 by lia.
  destruct tail; [apply greedy_const | reflexivity].
Qed.

Lemma group_here_literal c cs tail b a :
  group_here {| prefix := seq (Lit c) (List.map Lit cs);
                group := times id_class 11; any_tail := tail |} b a
  = id_after (c :: cs) a.
Proof.
  unfold group_here, id_after. cbn [prefix group any_tail].
  rewrite matches_literal.
  destruct (after_prefix (c :: cs) a) as [rest|]; [|reflexivity].
  assert (G := group_id_at tail (rev (c :: cs) ++ b) rest).
  cbv beta zeta in G. exact G.
Qed.

Lemma group_here_standard b a : group_here standard_pattern b a = standard_at a.
Proof.
  unfold group_here, standard_at, id_after, standard_pattern.
  cbn [prefix group any_tail].
  change (Alt (seq (Lit "v") [Lit "="]) (One (Lit "/")))
    with (Alt (seq (Lit "v") (List.map Lit (py "=")))
              (seq (Lit "/") (List.map Lit []))).
  cbn [matches]. rewrite !matches_literal.
  change (py "v=") with ("v"%char :: py "=").
  change (py "/") with ["/"%char].
  assert (G := fun b a => group_id_at true b a). cbv beta iota zeta in G.
  destruct (after_prefix ("v"%char :: py "=") a) as [rest1|];
    destruct (after_prefix ["/"%char] a) as [rest2|];
    rewrite ?G; reflexivity.
Qed.

Lemma group_from_first_at p (f : pystr -> option pystr) :
  (forall b a, group_here p b a = f a) ->
  forall a b, group_from p b a = first_at f a.
Proof.
  intros H. induction a as [|c a IH]; intros b; cbn [group_from first_at];
    rewrite H; destruct (f _); auto.
Qed.

Lemma search_standard url :
  search_group standard_pattern url = first_at standard_at url.
Proof. apply group_from_first_at, group_here_standard. Qed.

Lemma search_embed url :
  search_group embed_pattern url = first_at (id_after (py "embed/")) url.
Proof.
  apply group_from_first_at. intros b a.
  apply (group_here_literal "e" (py "mbed/") false).
Qed.

Lemma search_short url :
  search_group short_pattern url = first_at (id_after (py "youtu.be/")) url.
Proof.
  apply group_from_first_at. intros b a.
  apply (group_here_literal "y" (py "outu.be/") false).
Qed.

(** ** The first result from the left *)

Lemma first_at_some {A : Type} (f : pystr -> option A) s x :
  first_at f s = Some x ->
  exists l q,
    s = l ++ q /\ f q = Some x
    /\ forall l1 l2, l = l1 ++ l2 -> l2 <> [] -> f (l2 ++ q) = None.
Proof.
  induction s as [|c s IH]; cbn [first_at].
  - destruct (f []) eqn:E; [|discriminate]. intros [= ->].
    exists [], []. repeat split; [exact E|].
    intros l1 l2 H. symmetry in H. apply app_eq_nil in H as [_ ->]. congruence.
  - destruct (f (c :: s)) eqn:E.
    + intros [= ->]. exists [], (c :: s). repeat split; [exact E|].
      intros l1 l2 H. symmetry in H. apply app_eq_nil in H as [_ ->]. congruence.
    + intros H. destruct (IH H) as (l & q & -> & Hq & Hl).
      exists (c :: l), q. repeat split; [exact Hq|].
      intros l1 l2 H12 Hne. destruct l1 as [|d l1].
      * cbn [app] in H12. subst l2. exact E.
      * injection H12 as -> ->. now apply (Hl l1 l2).
Qed.

Lemma first_at_none {A : Type} (f : pystr -> option A) s :
  first_at f s = None -> forall l q, s = l ++ q -> f q = None.
Proof.
  induction s as [|c s IH]; cbn [first_at].
  - destruct (f []) eqn:E; [discriminate|]. intros _ l q H.
    symmetry in H. apply app_eq_nil in H as [_ ->]. exact E.
  - destruct (f (c :: s)) eqn:E; [discriminate|]. intros H l q Hs.
    destruct l as [|d l].
    + cbn [app] in Hs. now subst q.
    + injection Hs as -> ->. now apply (IH H l q).
Qed.

Lemma first_at_found {A : Type} (f : pystr -> option A) l q :
  is_Some (f q) -> is_Some (first_at f (l ++ q)).
Proof.
  intros H. destruct (first_at f (l ++ q)) eqn:E; [eauto|].
  rewrite (first_at_none f _ E l q eq_refl) in H. exact H.
Qed.

(** ** Identifiers *)

Lemma after_prefix_some p : forall s rest,
  after_prefix p s = Some rest <-> s = p ++ rest.
Proof.
  induction p as [|c p IH]; intros s rest; cbn [after_prefix app].
  - split; [now intros [= ->] | now intros ->].
  - destruct s as [|d s]; [split; discriminate|].
    destruct (Ascii.eqb_spec c d) as [<-|Hne].
    + rewrite IH. split; [now intros -> | now intros [= ->]].
    + split; [discriminate | intros [= H _]; congruence].
Qed.

Lemma id_at_some s g :
  id_at s = Some g <->
  length g = 11 /\ forallb idchar g = true /\ exists r, s = g ++ r.
Proof.
  unfold id_at. split.
  - destruct (11 <=? length s) eqn:L; [|discriminate]. apply Nat.leb_le in L.
    destruct (forallb idchar (firstn 11 s)) eqn:F; [|discriminate].
    intros [= <-]. repeat split; [rewrite length_firstn; lia | exact F|].
    exists (skipn 11 s). symmetry. apply firstn_skipn.
  - intros (L & F & r & ->).
    assert (E : firstn 11 (g ++ r) = g).
    { rewrite <- L, firstn_app, Nat.sub_diag, firstn_O, firstn_all.
      apply app_nil_r. }
    rewrite E, F, length_app.
    rewrite (proj2 (Nat.leb_le 11 _)) by lia. reflexivity.
Qed.

Lemma id_after_some sep s g :
  id_after sep s = Some g <->
  length g = 11 /\ forallb idchar g = true /\ exists r, s = sep ++ g ++ r.
Proof.
  unfold id_after. split.
  - destruct (after_prefix sep s) as [rest|] eqn:E; [|discriminate].
    apply after_prefix_some in E. rewrite id_at_some.
    intros (L & F & r & ->). eauto.
  - intros (L & F & r & ->).
    rewrite (proj2 (after_prefix_some sep _ _) eq_refl).
    apply id_at_some. eauto.
Qed.

Lemma standard_at_some s g :
  standard_at s = Some g <->
  length g = 11 /\ forallb idchar g = true
  /\ exists sep r, (sep = py "v=" \/ sep = py "/") /\ s = sep ++ g ++ r.
Proof.
  unfold standard_at. split.
  - destruct (id_after (py "v=") s) as [g'|] eqn:E.
    + intros [= ->]. apply id_after_some in E as (L & F & r & ->).
      repeat split; [exact L | exact F|]. exists (py "v="), r. auto.
    + intros H. apply id_after_some in H as (L & F & r & ->).
      repeat split; [exact L | exact F|]. exists (py "/"), r. auto.
  - intros (L & F & sep & r & [-> | ->] & ->).
    + now rewrite (proj2 (id_after_some (py "v=") _ g)) by eauto.
    + change (id_after (py "v=") (py "/" ++ g ++ r)) with (@None pystr).
      apply id_after_some. eauto.
Qed.

Lemma later_pattern_covered p url :
  is_Some (first_at (id_after (p ++ py "/")) url) ->
  is_Some (first_at standard_at url).
Proof.
  intros [g H]. apply first_at_some in H as (l & q & -> & Hq & _).
  apply id_after_some in Hq as (L & F & r & ->).
  rewrite <- app_assoc, app_assoc.
  apply first_at_found. exists g. apply standard_at_some.
  repeat split; [exact L | exact F|]. exists (py "/"), r. auto.
Qed.

Lemma later_pattern_none p url :
  first_at standard_at url = None ->
  first_at (id_after (p ++ py "/")) url = None.
Proof.
  intros E. destruct (first_at (id_after (p ++ py "/")) url) eqn:E2; [|reflexivity].
  destruct (later_pattern_covered p url) as [g Hg]; [eauto|]. congruence.
Qed.

(** The loop over the three patterns gives what the first pattern gives. *)
Lemma extract_video_id_first_at url :
  extract_video_id url = first_at standard_at url.
Proof.
  unfold extract_video_id, patterns. cbn [first_group].
  rewrite search_standard, search_embed, search_short.
  destruct (first_at standard_at url) eqn:E; [reflexivity|].
  change (py "embed/") with (py "embed" ++ py "/").
  change (py "youtu.be/") with (py "youtu.be" ++ py "/").
  now rewrite !later_pattern_none.
Qed.

End VideoIdFacts.

(* ===================================================================== *)
(** * Properties of [extract_video_id] *)
(* ===================================================================== *)

Module VideoIdExtras.
Import PyStr Re VideoId ReFacts VideoIdFacts.

(** The tests of [tests/test_transcript_service.py]. *)
Example extract_video_id_tests :
  extract_video_id (py "https://www.youtube.com/watch?v=dQw4w9WgXcQ")
  = Some (py "dQw4w9WgXcQ")
  /\ extract_video_id (py "https://youtu.be/dQw4w9WgXcQ") = Some (py "dQw4w9WgXcQ")
  /\ extract_video_id (py "https://www.youtube.com/embed/dQw4w9WgXcQ")
     = Some (py "dQw4w9WgXcQ")
  /\ extract_video_id (py "https://example.com") = None.
Proof. vm_compute. auto. Qed.

(** Property X12: What [extract_video_id] returns is a run of eleven
    characters among letters, digits, [_] and [-] that stands in the URL
    right after [v=] or after a [/], and it is the first such run from the
    left. *)
Theorem video_id_sound (url id : pystr) :
  extract_video_id url = Some id ->
  length id = 11 /\ forallb idchar id = true
  /\ exists l sep r,
       (sep = py "v=" \/ sep = py "/") /\ url = l ++ sep ++ id ++ r
       /\ forall l' sep' id' r',
            (sep' = py "v=" \/ sep' = py "/") ->
            length id' = 11 -> forallb idchar id' = true ->
            url = l' ++ sep' ++ id' ++ r' -> length l <= length l'.
Proof.
  rewrite extract_video_id_first_at. intros H.
  apply first_at_some in H as (l & q & -> & Hq & Hleft).
  apply standard_at_some in Hq as (L & F & sep & r & Hsep & ->).
  repeat split; [exact L | exact F|]. exists l, sep, r.
  repeat split; [exact Hsep|].
  intros l' sep' id' r' Hsep' L' F' E.
  destruct (Nat.le_gt_cases (length l) (length l')) as [|Hlt]; [assumption|].
  exfalso.
  assert (E1 : l = l' ++ skipn (length l') l).
  { rewrite <- (firstn_skipn (length l') l) at 1. f_equal.
    apply (f_equal (firstn (length l'))) in E.
    rewrite !firstn_app, Nat.sub_diag, firstn_O, firstn_all, app_nil_r in E.
    rewrite (proj2 (Nat.sub_0_le (length l') (length l))) in E by lia.
    rewrite firstn_O, app_nil_r in E. exact E. }
  assert (N : skipn (length l') l <> []).
  { intros Hn. apply (f_equal (@length ascii)) in Hn.
    rewrite length_skipn in Hn. cbn in Hn. lia. }
  assert (E2 : skipn (length l') l ++ sep ++ id ++ r = sep' ++ id' ++ r').
  { rewrite E1 in E at 1. rewrite <- app_assoc in E.
    now apply app_inv_head in E. }
  specialize (Hleft l' _ E1 N). rewrite E2 in Hleft.
  assert (S : standard_at (sep' ++ id' ++ r') = Some id')
    by (apply standard_at_some; eauto 10).
  congruence.
Qed.

Lemma video_id_sound_witness :
  length (py "dQw4w9WgXcQ") = 11 /\ forallb idchar (py "dQw4w9WgXcQ") = true
  /\ exists l sep r,
       (sep = py "v=" \/ sep = py "/")
       /\ py "https://www.youtube.com/watch?v=dQw4w9WgXcQ"
          = l ++ sep ++ py "dQw4w9WgXcQ" ++ r
       /\ forall l' sep' id' r',
            (sep' = py "v=" \/ sep' = py "/") ->
            length id' = 11 -> forallb idchar id' = true ->
            py "https://www.youtube.com/watch?v=dQw4w9WgXcQ"
            = l' ++ sep' ++ id' ++ r' -> length l <= length l'.
Proof.
  apply (video_id_sound (py "https://www.youtube.com/watch?v=dQw4w9WgXcQ")
           (py "dQw4w9WgXcQ")).
  vm_compute. reflexivity.
Defined.

(** Property X13: [extract_video_id] finds an identifier in every text in
    which eleven characters among letters, digits, [_] and [-] follow [v=]
    or a [/], whether the text is the URL of a video or not. *)
Theorem video_id_complete (l sep id r : pystr) :
  sep = py "v=" \/ sep = py "/" ->
  length id = 11 -> forallb idchar id = true ->
  is_Some (extract_video_id (l ++ sep ++ id ++ r)).
Proof.
  intros Hsep L F. rewrite extract_video_id_first_at.
  apply first_at_found. exists id. apply standard_at_some. eauto 10.
Qed.

Lemma video_id_complete_witness :
  is_Some (extract_video_id
             (py "https:/" ++ py "/" ++ py "stackoverfl" ++ py "ow.com/questions")).
Proof.
  apply (video_id_complete (py "https:/") (py "/") (py "stackoverfl")
           (py "ow.com/questions")).
  - right. reflexivity.
  - reflexivity.
  - vm_compute. reflexivity.
Defined.

(** Addresses that are not those of videos. *)
Example extract_video_id_other_sites :
  extract_video_id (py "https://stackoverflow.com/questions")
  = Some (py "stackoverfl")
  /\ extract_video_id (py "https://example.com/introduction-to-python")
     = Some (py "introductio").
Proof. vm_compute. auto. Qed.

(** Property X14: The second and the third pattern of [extract_video_id]
    never decide: wherever one of them matches the first matches too, so the
    result is always that of the first pattern alone. *)
Theorem first_pattern_decides (url : pystr) :
  extract_video_id url = search_group standard_pattern url
  /\ (search_group standard_pattern url = None ->
      search_group embed_pattern url = None
      /\ search_group short_pattern url = None).
Proof.
  split.
  - unfold extract_video_id, patterns. cbn [first_group].
    destruct (search_group standard_pattern url) eqn:E; [reflexivity|].
    rewrite search_standard in E. rewrite search_embed, search_short.
    change (py "embed/") with (py "embed" ++ py "/").
    change (py "youtu.be/") with (py "youtu.be" ++ py "/").
    now rewrite (later_pattern_none (py "embed") url E),
      (later_pattern_none (py "youtu.be") url E).
  - rewrite search_standard, search_embed, search_short. intros E.
    split; [apply (later_pattern_none (py "embed")) |
            apply (later_pattern_none (py "youtu.be"))]; exact E.
Qed.

(** The identifier after [embed/] is not the one returned when an earlier
    part of the path has eleven characters. *)
Example embed_pattern_overruled :
  search_group embed_pattern (py "https://host/abcdefghijk/embed/AAAAAAAAAAA")
  = Some (py "AAAAAAAAAAA")
  /\ extract_video_id (py "https://host/abcdefghijk/embed/AAAAAAAAAAA")
     = Some (py "abcdefghijk").
Proof. vm_compute. auto. Qed.

End VideoIdExtras.

(* ===================================================================== *)
(** * Properties of [get_transcript] and of the request handlers *)
(* ===================================================================== *)

Module ApiFacts.
Import PyStr Transcript Web VideoId Youtube Api WebFacts CascadeFacts VideoIdFacts.

Section Service.
Context {TL T : Type} (api : youtube_api TL T).

Lemma find_and_fetch_shape tl language :
  (exists data code,
      handle (find_and_fetch api tl language) = transcript_success data code)
  \/ (exists message,
        handle (find_and_fetch api tl language) = transcript_error message).
Proof.
  unfold find_and_fetch.
  destruct (find_transcript api tl [language]) as [t|[| |m]];
    [|right; eexists; reflexivity ..].
  destruct (fetch api t) as [data|[| |m]];
    [left; eexists _, _; reflexivity | right; eexists; reflexivity ..].
Qed.

(** [get_transcript] returns one of its two dictionaries. *)
Lemma get_transcript_shape video_id language :
  (exists data code,
      Youtube.get_transcript api video_id language = transcript_success data code)
  \/ (exists message,
        Youtube.get_transcript api video_id language = transcript_error message).
Proof.
  unfold Youtube.get_transcript.
  destruct (list_transcripts api video_id) as [tl|[| |m]];
    [|right; eexists; reflexivity ..].
  cbv zeta.
  destruct language as [[|c language]|]; try apply find_and_fetch_shape.
  assert (F := find_and_fetch_shape tl (c :: language)).
  destruct (find_and_fetch api tl (c :: language)) as [d|[| |m]]; try exact F.
  apply find_and_fetch_shape.
Qed.

End Service.

Lemma extract_video_id_truthy url id :
  extract_video_id url = Some id -> falsy (Some id) = false.
Proof.
  rewrite extract_video_id_first_at. intros H.
  apply first_at_some in H as (l & q & _ & Hq & _).
  apply standard_at_some in Hq. destruct Hq as [L _].
  destruct id; [discriminate | reflexivity].
Qed.

(** The dictionaries of the back ends of the source have no key [url] and
    no key [content_type]. *)
Lemma backends_keys lib s url :
  backends lib s url !! "url" = None
  /\ backends lib s url !! "content_type" = None.
Proof.
  destruct s; cbn [backends].
  - unfold extract_with_trafilatura.
    destruct (fetch_url _ url) as [[d|]|e]; [|split; reflexivity ..].
    destruct (extract _ d) as [[r|]|e]; [|split; reflexivity ..].
    destruct (extract_metadata _ d) as [m|e]; split; reflexivity.
  - unfold extract_with_newspaper.
    destruct (newspaper lib url); split; reflexivity.
  - unfold extract_with_beautifulsoup.
    destruct (beautifulsoup lib url); split; reflexivity.
Qed.

(** The response to a success: the result with the URL added. *)
Lemma success_response url (d : pydict) :
  d !! "status" = Some (VStr (py "success")) -> d !! "url" = None ->
  without_status d ∪ ({[ "status" := TStr (py "success"); "url" := TStr url ]} : tdict)
  = <["url" := TStr url]> (TVal <$> d).
Proof.
  intros Hs Hu. apply map_eq. intros k. unfold without_status.
  rewrite lookup_union, !lookup_insert, !lookup_fmap, lookup_delete.
  rewrite ?lookup_insert, ?lookup_singleton.
  repeat case_decide; simplify_eq; rewrite ?Hs, ?Hu; try reflexivity;
    destruct (d !! k); reflexivity.
Qed.

Lemma success_response_content url (d : pydict) :
  d !! "status" = Some (VStr (py "success")) -> d !! "url" = None ->
  d !! "content_type" = None ->
  without_status d
  ∪ ({[ "status" := TStr (py "success"); "url" := TStr url;
        "content_type" := TStr (py "webpage") ]} : tdict)
  = <["content_type" := TStr (py "webpage")]> (<["url" := TStr url]> (TVal <$> d)).
Proof.
  intros Hs Hu Hc. apply map_eq. intros k. unfold without_status.
  rewrite lookup_union, !lookup_insert, !lookup_fmap, lookup_delete.
  rewrite ?lookup_insert, ?lookup_singleton.
  repeat case_decide; simplify_eq; rewrite ?Hs, ?Hu, ?Hc; try reflexivity;
    destruct (d !! k); reflexivity.
Qed.

End ApiFacts.

Module ApiExtras.
Import PyStr Transcript Web VideoId Youtube Api WebFacts CascadeFacts.
Import VideoIdFacts ApiFacts.

(** Property X15: [get_transcript] falls back silently: when no language is
    asked for but the empty one, or when the transcript in the language
    asked for is not found, the result is the one of a call without a
    language. *)
Theorem language_fallback {TL T : Type} (api : youtube_api TL T)
    (video_id language : pystr) :
  language = []
  \/ (forall transcript_list,
        list_transcripts api video_id = Returned transcript_list ->
        find_and_fetch api transcript_list language = Failed NoTranscriptFound) ->
  Youtube.get_transcript api video_id (Some language)
  = Youtube.get_transcript api video_id None.
Proof.
  intros [-> | H]; [reflexivity|]. unfold Youtube.get_transcript.
  destruct (list_transcripts api video_id) as [tl|e]; [|reflexivity].
  destruct language as [|c language]; [reflexivity|].
  cbv zeta. now rewrite (H tl eq_refl).
Qed.

Lemma language_fallback_witness :
  Youtube.get_transcript (catalogue_api sample_catalogue) (py "dQw4w9WgXcQ")
    (Some (py "fr"))
  = Youtube.get_transcript (catalogue_api sample_catalogue) (py "dQw4w9WgXcQ") None.
Proof.
  apply (language_fallback (catalogue_api sample_catalogue) (py "dQw4w9WgXcQ")
           (py "fr")).
  right. intros tl. vm_compute. intros [= <-]. reflexivity.
Defined.

(** Property X16: The handler of [POST /transcript] raises nothing but the
    error 400, and that exactly when [extract_video_id] finds no identifier
    in the URL. Otherwise it answers with the identifier and with either the
    message of the error of [get_transcript], or the language and the
    transcript, formatted if so requested. *)
Theorem transcript_handler_outcome {TL T : Type} (api : youtube_api TL T)
    (url : pystr) (language : option pystr) (format_text : bool) log :
  match extract_video_id url with
  | None =>
      Api.get_transcript api url language format_text log = (Raised http_400, log)
  | Some video_id =>
      (exists message,
          Youtube.get_transcript api video_id language = transcript_error message
          /\ Api.get_transcript api url language format_text log
             = (Ok {[ "status" := TStr (py "error");
                      "message" := TStr message;
                      "video_id" := TStr video_id ]}, log))
      \/ (exists data code,
            Youtube.get_transcript api video_id language
            = transcript_success data code
            /\ Api.get_transcript api url language format_text log
               = (Ok {[ "status" := TStr (py "success");
                        "video_id" := TStr video_id;
                        "language" := TStr code;
                        "transcript" :=
                          if format_text then TStr (format_transcript data)
                          else TData data ]}, log))
  end.
Proof.
  unfold Api.get_transcript.
  destruct (extract_video_id url) as [video_id|] eqn:E; [|reflexivity].
  rewrite (extract_video_id_truthy _ _ E).
  change (default [] (Some video_id)) with video_id. cbv zeta.
  destruct (get_transcript_shape api video_id language)
    as [(data & code & Hr) | (message & Hr)]; rewrite Hr.
  - right. exists data, code. split; [reflexivity|].
    destruct format_text; reflexivity.
  - left. exists message. split; reflexivity.
Qed.

(** Property X17: The handler of [POST /webpage], with the back ends of the
    source, raises nothing: to an error of [extract_content] it answers with
    the status, the URL and the message, and to a success with the result of
    the back end, to which the URL is added. *)
Theorem webpage_handler_outcome
    (urlparse : pystr -> result ParseResult) (lib : libraries)
    (url : pystr) log :
  exists d log',
    extract_content urlparse (backends lib) url log = (Ok d, log')
    /\ get_webpage_content urlparse (backends lib) url log
       = (Ok (webpage_response url d), log').
Proof.
  destruct (extract_content_shape urlparse lib url log) as (d & log' & E & H).
  exists d, log'. split; [exact E|].
  unfold get_webpage_content. run. rewrite E.
  destruct H as [-> | [-> | (s & -> & Hu)]]; [reflexivity | reflexivity |].
  destruct (backends_usable lib s url Hu) as [Hs _]. unfold status_of in Hs.
  unfold getitem. rewrite Hs. run.
  rewrite bool_decide_eq_false_2 by discriminate.
  unfold webpage_response. rewrite Hs.
  rewrite bool_decide_eq_false_2 by discriminate.
  rewrite success_response; [reflexivity | exact Hs | apply backends_keys].
Qed.

(** Property X18: The handler of [POST /content] decides by
    [extract_video_id] alone. When it finds an identifier the answer is that
    of a video and no back end of the web service is called; when it finds
    none the answer is that of [POST /webpage] with the content type added. *)
Theorem content_routing {TL T : Type} (api : youtube_api TL T)
    (urlparse : pystr -> result ParseResult) (lib : libraries)
    (url : pystr) (language : option pystr) (format_text : bool) log :
  match extract_video_id url with
  | Some video_id =>
      exists response,
        get_content api urlparse (backends lib) url language format_text log
        = (Ok response, log)
        /\ response !! "content_type" = Some (TStr (py "youtube"))
        /\ response !! "video_id" = Some (TStr video_id)
        /\ response !! "status"
           = Youtube.get_transcript api video_id language !! "status"
  | None =>
      exists d log',
        extract_content urlparse (backends lib) url log = (Ok d, log')
        /\ get_content api urlparse (backends lib) url language format_text log
           = (Ok (<["content_type" := TStr (py "webpage")]> (webpage_response url d)),
              log')
  end.
Proof.
  unfold get_content.
  destruct (extract_video_id url) as [video_id|] eqn:E.
  - rewrite (extract_video_id_truthy _ _ E). cbn [negb].
    change (default [] (Some video_id)) with video_id. cbv zeta.
    destruct (get_transcript_shape api video_id language)
      as [(data & code & Hr) | (message & Hr)]; rewrite Hr.
    + destruct format_text; eexists; (split; [reflexivity|]);
        repeat split; reflexivity.
    + eexists. split; [reflexivity|]. repeat split; reflexivity.
  - cbn [falsy negb].
    destruct (extract_content_shape urlparse lib url log) as (d & log' & Ec & H).
    exists d, log'. split; [exact Ec|].
    run. rewrite Ec.
    destruct H as [-> | [-> | (s & -> & Hu)]]; [reflexivity | reflexivity |].
    destruct (backends_usable lib s url Hu) as [Hs _]. unfold status_of in Hs.
    unfold getitem. rewrite Hs. run.
    rewrite bool_decide_eq_false_2 by discriminate.
    unfold webpage_response. rewrite Hs.
    rewrite bool_decide_eq_false_2 by discriminate.
    rewrite success_response_content;
      [reflexivity | exact Hs | apply backends_keys ..].
Qed.

(** The address of a page of questions is taken for that of a video. *)
Example questions_page_taken_for_video :
  fst (get_content (catalogue_api sample_catalogue) simple_urlparse
         (fixed_backend ∅ ∅ ∅) (py "https://stackoverflow.com/questions")
         None true [])
  = Ok {[ "status" := TStr (py "error");
          "url" := TStr (py "https://stackoverflow.com/questions");
          "content_type" := TStr (py "youtube");
          "video_id" := TStr (py "stackoverfl");
          "message" := TStr (py "Transcripts are disabled for this video") ]}.
Proof. vm_compute. reflexivity. Qed.

End ApiExtras.
